(** * Regulus front-end: annotator, upload client and camera controller

    A shallow embedding of the JavaScript sources

      - [frontend/src/components/Visualization3D/MiningPitVisualizer.jsx]
      - the top-level [App] component (upload / analysis client)
      - [frontend/src/MapPage.jsx]

    together with the properties the specification states about them.

    Conventions of the embedding.
      - JavaScript values that come out of [JSON.parse] are trees
        ([JS.value]); objects are finite maps from property names to
        values (stdpp's [gmap]), arrays are lists.
      - JavaScript numbers are taken as the rationals they denote
        ([Q]).  In [MapPage] and [Page] the arithmetic is exact, and
        what is stated over it are constants, ranges and the formulas
        as written.  Where the rounding of the engine decides a
        property (sums and round trips of the camera buttons, the
        values of their easing function), the operations are those of
        [Double]: the exact result rounded to the nearest
        double-precision number.
      - Strings stand for sequences of code units in the Basic Latin
        range, where code units and code points coincide.
      - A thrown exception is the [Throw] branch of [JS.result].
      - React state setters are recorded in the order they are called
        ([App.update]); the next state is obtained by reducing that
        queue, as React does on the following render. *)

From Stdlib Require Import QArith Qminmax Lqa DecimalString Qround Qpower.
From stdpp Require Import gmap strings list fin_maps.

Set Warnings "-register-all".
Local Open Scope string_scope.
Local Open Scope list_scope.

(** ** JavaScript values *)

Module JS.

Inductive value : Type :=
| VUndef
| VNull
| VBool (b : bool)
| VNum (q : Q)
| VStr (s : string)
| VArr (l : list value)
| VObj (o : gmap string value).

(** The [TypeError]s the sources can raise. *)
Inductive type_error : Type :=
| CannotRead (base : value) (key : string)   (* property read on null / undefined *)
| CannotReadIndex (base : value) (i : nat)   (* indexed read on null / undefined *)
| NotAFunction (method : string)             (* call of a missing method *)
| NotIterable (v : value).                   (* array spread of a non-iterable *)

Inductive exn : Type :=
| Error (m : value)            (* [new Error(m)] *)
| TypeError (e : type_error)   (* raised by the engine *)
| Rejection (text : string).   (* a rejected promise of the platform, with its message *)

(** What [err.message] evaluates to.  The wording of an engine-raised
    [TypeError], and the string conversion of a non-string argument of
    [new Error], are engine business and are kept symbolic. *)
Inductive message : Type :=
| Text (s : string)
| ToStringOf (v : value)
| TypeErrorText (e : type_error).

Definition exn_message (e : exn) : message :=
  match e with
  | Error (VStr s) => Text s
  | Error v => ToStringOf v
  | TypeError t => TypeErrorText t
  | Rejection s => Text s
  end.

Inductive result (A : Type) : Type :=
| Ok (a : A)
| Throw (e : exn).
Arguments Ok {A} a.
Arguments Throw {A} e.

#[global] Instance result_ret : MRet result := fun A a => Ok a.
#[global] Instance result_bind : MBind result := fun A B k r =>
  match r with
  | Ok a => k a
  | Throw e => Throw e
  end.

(** [ToBoolean]. *)
Definition truthy (v : value) : bool :=
  match v with
  | VUndef | VNull => false
  | VBool b => b
  | VNum q => negb (Qeq_bool q 0)
  | VStr s => negb (String.eqb s EmptyString)
  | VArr _ | VObj _ => true
  end.

(** [a || b]. *)
Definition or_else (a b : value) : value := if truthy a then a else b.

(** The decimal spelling of an array index, and of [index + 1] in the
    template literals. *)
Definition decimal (n : nat) : string := NilZero.string_of_uint (Nat.to_uint n).

Definition of_nat (n : nat) : Q := inject_Z (Z.of_nat n).

(** [v.key] for a name [key] that is not an array index.  Only own
    properties and [length] are modelled; the sources read no inherited
    property. *)
Definition get_prop (v : value) (key : string) : result value :=
  match v with
  | VUndef | VNull => Throw (TypeError (CannotRead v key))
  | VObj o => Ok (default VUndef (o !! key))
  | VArr l => Ok (if String.eqb key "length" then VNum (of_nat (length l)) else VUndef)
  | VStr s => Ok (if String.eqb key "length" then VNum (of_nat (String.length s)) else VUndef)
  | VBool _ | VNum _ => Ok VUndef
  end.

(** [v[i]] for a literal index [i]. *)
Definition get_index (v : value) (i : nat) : result value :=
  match v with
  | VUndef | VNull => Throw (TypeError (CannotReadIndex v i))
  | VArr l => Ok (default VUndef (l !! i))
  | VObj o => Ok (default VUndef (o !! decimal i))
  | VStr s => Ok (match String.get i s with
                  | Some c => VStr (String c EmptyString)
                  | None => VUndef
                  end)
  | VBool _ | VNum _ => Ok VUndef
  end.

Fixpoint chars (s : string) : list value :=
  match s with
  | EmptyString => []
  | String c s' => VStr (String c EmptyString) :: chars s'
  end.

(** The own enumerable properties copied by an object spread [{...v}]. *)
Definition own_props (v : value) : gmap string value :=
  match v with
  | VObj o => o
  | VArr l => list_to_map (imap (fun i x => (decimal i, x)) l)
  | VStr s => list_to_map (imap (fun i x => (decimal i, x)) (chars s))
  | VUndef | VNull | VBool _ | VNum _ => ∅
  end.

(** The elements produced by an array spread [[...v]]. *)
Definition iterate (v : value) : result (list value) :=
  match v with
  | VArr l => Ok l
  | VStr s => Ok (chars s)
  | _ => Throw (TypeError (NotIterable v))
  end.

(** [Array.prototype.map] with an (element, index) callback that may
    throw; the first exception aborts the traversal. *)
Fixpoint map_from {A B} (f : A -> nat -> result B) (i : nat) (l : list A)
  : result (list B) :=
  match l with
  | [] => Ok []
  | x :: l' =>
      y ← f x i;
      ys ← map_from f (S i) l';
      Ok (y :: ys)
  end.

(** [v.map(f)]: only arrays carry the method. *)
Definition array_map (f : value -> nat -> result value) (v : value) : result value :=
  match v with
  | VUndef | VNull => Throw (TypeError (CannotRead v "map"))
  | VArr l => l' ← map_from f 0 l; Ok (VArr l')
  | _ => Throw (TypeError (NotAFunction "map"))
  end.

End JS.

(** ** MiningPitVisualizer.jsx: the feature annotator and the layer renderer *)

Module Visualizer.
Import JS.

Definition status_tag (isIllegal : bool) : string :=
  if isIllegal then "illegal" else "legal".

(** [isIllegal ? `Illegal Pit #${index + 1}` : `Legal Area #${index + 1}`] *)
Definition feature_name (isIllegal : bool) (index : nat) : string :=
  if isIllegal then "Illegal Pit #" +:+ decimal (index + 1)
  else "Legal Area #" +:+ decimal (index + 1).

(** [(data.illegal_operations || [])] *)
Definition operations (data : value) : result value :=
  ops ← get_prop data "illegal_operations";
  Ok (or_else ops (VArr [])).

(** The callback handed to [features.map] in [addDataToFeatures]. *)
Definition annotate (data : value) (isIllegal : bool) (feature : value) (index : nat)
  : result value :=
  operation ← (if isIllegal
               then ops ← operations data; get_index ops index
               else Ok VNull);
  properties ← get_prop feature "properties";
  depth ← (if truthy operation then get_prop operation "avg_depth_m" else Ok (VNum 50));
  volume ← (if truthy operation then get_prop operation "volume_m3" else Ok (VStr "N/A"));
  Ok (VObj (<["properties" :=
              VObj (<["name" := VStr (feature_name isIllegal index)]>
                   (<["volume" := volume]>
                   (<["depth" := depth]>
                   (<["status" := VStr (status_tag isIllegal)]>
                   (own_props properties)))))]>
            (own_props feature))).

Definition addDataToFeatures (data featureCollection : value) (isIllegal : bool)
  : result value :=
  if negb (truthy featureCollection) then Ok VNull else
  features ← get_prop featureCollection "features";
  if negb (truthy features) then Ok VNull else
  features' ← array_map (annotate data isIllegal) features;
  Ok (VObj (<["features" := features']> (own_props featureCollection))).

(** Paint properties of a layer. *)
Inductive paint_value : Type :=
| Color (c : string)
| Number (q : Q)
| TimesGet (property : string) (k : Q).   (* ['*', ['get', property], k] *)

Definition layerPaint3D (color : string) : list (string * paint_value) :=
  [ ("fill-extrusion-color", Color color);
    ("fill-extrusion-height", TimesGet "depth" 10);
    ("fill-extrusion-base", Number 0);
    ("fill-extrusion-opacity", Number 0.85) ].

Definition layerPaint2D (color : string) : list (string * paint_value) :=
  [ ("fill-color", Color color);
    ("fill-opacity", Number 0.6);
    ("fill-outline-color", Color "#ffffff") ].

Record layer : Type := Layer
  { layer_id : string;
    layer_type : string;
    layer_paint : list (string * paint_value) }.

Record source : Type := Source
  { source_id : string;
    source_type : string;
    source_data : value;
    source_layers : list layer }.

Definition illegal_source (d : value) : source :=
  Source "illegal-pits" "geojson" d
    [ Layer "illegal-pits-3d" "fill-extrusion" (layerPaint3D "#B71C1C");
      Layer "illegal-pits-2d" "fill" (layerPaint2D "#FF6B6B") ].

Definition legal_source (d : value) : source :=
  Source "legal-pits" "geojson" d
    [ Layer "legal-pits-3d" "fill-extrusion" (layerPaint3D "#1B5E20");
      Layer "legal-pits-2d" "fill" (layerPaint2D "#50C878") ].

(** The component: the sources (with their layers) it registers, in
    document order.  Rendering [null] registers nothing. *)
Definition MiningPitVisualizer (data : value) : result (list source) :=
  if negb (truthy data) then Ok [] else
  geospatial_data ← get_prop data "geospatial_data";
  if negb (truthy geospatial_data) then Ok [] else
  legal_polygons ← get_prop geospatial_data "legal_polygons";
  illegal_polygons ← get_prop geospatial_data "illegal_polygons";
  illegalPitsWithData ← addDataToFeatures data illegal_polygons true;
  legalPitsWithData ← addDataToFeatures data legal_polygons false;
  Ok ((if truthy illegalPitsWithData then [illegal_source illegalPitsWithData] else [])
      ++ (if truthy legalPitsWithData then [legal_source legalPitsWithData] else [])).

(** Identifiers of everything registered by a render. *)
Definition registered_ids (l : list source) : list string :=
  flat_map (fun s => source_id s :: map layer_id (source_layers s)) l.

End Visualizer.

(** ** The [App] component: upload / analysis client *)

Module App.
Import JS.

(** The [File] picked in the file input, known by its name. *)
Definition file : Type := string.

Record popup : Type := Popup
  { lngLat : value;
    properties : value }.

Record state : Type := State
  { viewState : gmap string value;
    popupInfo : option popup;
    analysisResult : value;
    isLoading : bool;
    error : option message }.

(** The [useState] initial values. *)
Definition initial : state :=
  {| viewState := <["longitude" := VNum 86.44]>
                  (<["latitude" := VNum 23.75]>
                  (<["zoom" := VNum 10]>
                  (<["pitch" := VNum 45]>
                  (<["bearing" := VNum (-30)]> ∅))));
     popupInfo := None;
     analysisResult := VNull;
     isLoading := false;
     error := None |}.

(** What a handler does to the outside, in the order it does it: state
    setter calls (queued by React) and platform calls. *)
Inductive call : Type :=
| SetViewState (f : gmap string value -> result (gmap string value))
| SetPopupInfo (p : option popup)
| SetAnalysisResult (v : value)
| SetIsLoading (b : bool)
| SetError (m : option message)
| Alert (text : string)
| Fetch (url method field : string) (f : file)
| ConsoleError (label : string) (e : exn).

(** A handler run: the calls made so far, and how the run ended. *)
Definition prog (A : Type) : Type := list call * result A.

#[global] Instance prog_ret : MRet prog := fun A a => ([], Ok a).
#[global] Instance prog_bind : MBind prog := fun A B k p =>
  match p with
  | (cs, Ok a) => let (cs', r) := k a in (cs ++ cs', r)
  | (cs, Throw e) => (cs, Throw e)
  end.

Definition do_call (c : call) : prog unit := ([c], Ok tt).
Definition eval {A} (r : result A) : prog A := ([], r).
Definition throw {A} (e : exn) : prog A := ([], Throw e).

(** [try { body } catch (err) { handler(err) } finally { final }] *)
Definition try_catch_finally (body : prog unit) (handler : exn -> prog unit)
    (final : prog unit) : prog unit :=
  let caught : prog unit :=
    match body with
    | (cs, Ok a) => (cs, Ok a)
    | (cs, Throw err) => let (cs', r) := handler err in (cs ++ cs', r)
    end in
  match caught, final with
  | (cs, r), (cs', Ok _) => (cs ++ cs', r)
  | (cs, _), (cs', Throw e) => (cs ++ cs', Throw e)
  end.

(** How the request of [handleAnalysis] ended: [fetch] rejected, or a
    response arrived whose body [response.json()] parses or rejects. *)
Inductive body : Type :=
| Unparsable (text : string)   (* message of the parser's rejection *)
| Json (v : value).

Inductive fetch_outcome : Type :=
| NetworkFailure (text : string)
| Response (status : nat) (b : body).

(** [response.ok]: the status is in the range 200-299. *)
Definition ok (status : nat) : bool := (200 <=? status)%nat && (status <=? 299)%nat.

Definition json (b : body) : result value :=
  match b with
  | Unparsable text => Throw (Rejection text)
  | Json v => Ok v
  end.

(** [handleAnalysis] up to the first [await]. *)
Definition handleAnalysis (files : list file) : prog unit :=
  match files with
  | [] => do_call (Alert "Please select a boundary file first.")
  | file :: _ =>
      do_call (SetIsLoading true);;
      do_call (SetError None);;
      do_call (SetAnalysisResult VNull);;
      do_call (Fetch "http://127.0.0.1:5000/analyze" "POST" "boundaryFile" file)
  end.

(** The updater [prev => ({...prev, longitude: firstCoord[0], ...})];
    React evaluates it when it processes the queue. *)
Definition recenter (firstCoord : value) (prev : gmap string value)
  : result (gmap string value) :=
  longitude ← get_index firstCoord 0;
  latitude ← get_index firstCoord 1;
  Ok (<["transitionDuration" := VNum 2000]>
     (<["zoom" := VNum 12]>
     (<["latitude" := latitude]>
     (<["longitude" := longitude]> prev)))).

(** The statements of the [try] block after [await fetch(...)]. *)
Definition after_fetch (o : fetch_outcome) : prog unit :=
  match o with
  | NetworkFailure text => throw (Rejection text)
  | Response status b =>
    if negb (ok status) then
      errData ← eval (json b);
      details ← eval (get_prop errData "details");
      throw (Error (or_else details (VStr "Backend analysis failed")))
    else
      results ← eval (json b);
      do_call (SetAnalysisResult results);;
      geospatial_data ← eval (get_prop results "geospatial_data");
      illegal_polygons ← eval (get_prop geospatial_data "illegal_polygons");
      illegal_features ← eval (get_prop illegal_polygons "features");
      illegal ← eval (iterate (or_else illegal_features (VArr [])));
      geospatial_data' ← eval (get_prop results "geospatial_data");
      legal_polygons ← eval (get_prop geospatial_data' "legal_polygons");
      legal_features ← eval (get_prop legal_polygons "features");
      legal ← eval (iterate (or_else legal_features (VArr [])));
      match illegal ++ legal with
      | [] => mret tt
      | first :: _ =>
          geometry ← eval (get_prop first "geometry");
          coordinates ← eval (get_prop geometry "coordinates");
          ring ← eval (get_index coordinates 0);
          firstCoord ← eval (get_index ring 0);
          do_call (SetViewState (recenter firstCoord))
      end
  end.

(** [handleAnalysis] from the moment the request settles. *)
Definition handleAnalysis_resume (o : fetch_outcome) : prog unit :=
  try_catch_finally
    (after_fetch o)
    (fun err =>
       do_call (SetError (Some (exn_message err)));;
       do_call (ConsoleError "Analysis failed:" err))
    (do_call (SetIsLoading false)).

(** The event object of a map click, as the map library builds it. *)
Record click_event : Type := ClickEvent
  { features : option (list value);
    click_lngLat : value }.

Definition handleMapClick (e : click_event) : prog unit :=
  match features e with
  | Some (feature :: _) =>
      feature_properties ← eval (get_prop feature "properties");
      do_call (SetPopupInfo (Some (Popup (click_lngLat e) feature_properties)))
  | _ => mret tt
  end.

(** What can happen to the component. *)
Inductive event : Type :=
| AnalyzeClicked (files : list file)     (* the Analyze button *)
| RequestSettled (o : fetch_outcome)     (* the pending request settles *)
| MapMoved (vs : gmap string value)      (* [onMove] *)
| MapClicked (e : click_event)           (* [onClick] *)
| PopupClosed.                           (* [onClose] of the popup *)

Definition handle (ev : event) : prog unit :=
  match ev with
  | AnalyzeClicked files => handleAnalysis files
  | RequestSettled o => handleAnalysis_resume o
  | MapMoved vs => do_call (SetViewState (fun _ => Ok vs))
  | MapClicked e => handleMapClick e
  | PopupClosed => do_call (SetPopupInfo None)
  end.

(** React processing one queued setter call. *)
Definition apply (c : call) (s : state) : result state :=
  match c with
  | SetViewState f =>
      vs ← f (viewState s);
      Ok (State vs (popupInfo s) (analysisResult s) (isLoading s) (error s))
  | SetPopupInfo p => Ok (State (viewState s) p (analysisResult s) (isLoading s) (error s))
  | SetAnalysisResult v => Ok (State (viewState s) (popupInfo s) v (isLoading s) (error s))
  | SetIsLoading b => Ok (State (viewState s) (popupInfo s) (analysisResult s) b (error s))
  | SetError m => Ok (State (viewState s) (popupInfo s) (analysisResult s) (isLoading s) m)
  | Alert _ | Fetch _ _ _ _ | ConsoleError _ _ => Ok s
  end.

(** The state after the queue is processed; [Throw] when an updater
    throws while React renders. *)
Fixpoint reduce (cs : list call) (s : state) : result state :=
  match cs with
  | [] => Ok s
  | c :: cs' => s' ← apply c s; reduce cs' s'
  end.

Definition step (ev : event) (s : state) : result state :=
  reduce (fst (handle ev)) s.

(** [{analysisResult && <MiningPitVisualizer data={analysisResult} />}] *)
Definition rendered_sources (s : state) : result (list Visualizer.source) :=
  if truthy (analysisResult s) then Visualizer.MiningPitVisualizer (analysisResult s)
  else Ok [].

End App.

(** ** MapPage.jsx: the view-state controller *)

Module MapPage.
Local Open Scope Q_scope.

Inductive view_mode : Type := TopDown | Perspective | CrossSection.

(** The easing functions of the handlers below.  The one of
    [setViewMode] also calls [setAnimationProgress] each time the map
    engine evaluates it. *)
Inductive easing : Type :=
| ToggleEasing      (* t => 1 - Math.pow(1 - t, 2) *)
| ViewModeEasing    (* the same curve, reporting its progress *)
| NudgeEasing.      (* t => t * (2 - t) *)

(** The progress an easing function returns at time [t]: the value of
    its formula, before any rounding. *)
Definition ease (e : easing) (t : Q) : Q :=
  match e with
  | ToggleEasing | ViewModeEasing => 1 - (1 - t) ^ 2
  | NudgeEasing => t * (2 - t)
  end.

Record view_state : Type := ViewState
  { longitude : Q;
    latitude : Q;
    zoom : Q;
    pitch : Q;
    bearing : Q;
    transitionDuration : option Q;
    transitionEasing : option easing }.

(** Callbacks handed to [setTimeout]. *)
Inductive timeout_callback : Type :=
| ClearAnimating     (* () => { setIsAnimating(false) } *)
| FinishAnimation.   (* () => { setIsAnimating(false); setAnimationProgress(1) } *)

Record state : Type := State
  { viewState : view_state;
    currentViewMode : view_mode;
    isAnimating : bool;
    animationProgress : Q;
    is3DEnabled : bool;
    timeouts : list (Q * timeout_callback) }.   (* pending, with their delay in ms *)

Definition initial : state :=
  {| viewState := ViewState 78.98 20.58 10 0 0 None None;
     currentViewMode := TopDown;
     isAnimating := false;
     animationProgress := 0;
     is3DEnabled := true;
     timeouts := [] |}.

(** The state setters. *)
Definition setViewState (f : view_state -> view_state) (s : state) : state :=
  State (f (viewState s)) (currentViewMode s) (isAnimating s) (animationProgress s)
        (is3DEnabled s) (timeouts s).
Definition setCurrentViewMode (m : view_mode) (s : state) : state :=
  State (viewState s) m (isAnimating s) (animationProgress s) (is3DEnabled s) (timeouts s).
Definition setIsAnimating (b : bool) (s : state) : state :=
  State (viewState s) (currentViewMode s) b (animationProgress s) (is3DEnabled s) (timeouts s).
Definition setAnimationProgress (p : Q) (s : state) : state :=
  State (viewState s) (currentViewMode s) (isAnimating s) p (is3DEnabled s) (timeouts s).
Definition setIs3DEnabled (b : bool) (s : state) : state :=
  State (viewState s) (currentViewMode s) (isAnimating s) (animationProgress s) b (timeouts s).
Definition setTimeout (cb : timeout_callback) (delay : Q) (s : state) : state :=
  State (viewState s) (currentViewMode s) (isAnimating s) (animationProgress s)
        (is3DEnabled s) (timeouts s ++ [(delay, cb)]).

Definition toggle3DMode (s : state) : state :=
  let enable3D := negb (is3DEnabled s) in
  let s := setIs3DEnabled enable3D s in
  let s := setIsAnimating true s in
  let s :=
    if enable3D then
      let s := setViewState (fun prev =>
                 ViewState (longitude prev) (latitude prev) 11.2 45 (-30)
                           (Some 1500) (Some ToggleEasing)) s in
      setCurrentViewMode Perspective s
    else
      let s := setViewState (fun prev =>
                 ViewState (longitude prev) (latitude prev) 10.5 0 0
                           (Some 1500) (Some ToggleEasing)) s in
      setCurrentViewMode TopDown s in
  setTimeout ClearAnimating 1500 s.

(** An entry of the [presets] table of [setViewMode]. *)
Record preset : Type := Preset
  { preset_pitch : Q;
    preset_bearing : Q;
    preset_zoom : Q;
    preset_transitionDuration : Q }.

Definition presets (mode : view_mode) : preset :=
  match mode with
  | TopDown => Preset 0 0 10.5 2000
  | Perspective => Preset 60 (-30) 11.2 1800
  | CrossSection => Preset 75 (-45) 12.5 2200
  end.

Definition setViewMode (mode : view_mode) (s : state) : state :=
  if negb (is3DEnabled s) then toggle3DMode s
  else
    let s := setCurrentViewMode mode s in
    let s := setIsAnimating true s in
    let s := setAnimationProgress 0 s in
    let s := setViewState (fun prev =>
               ViewState (longitude prev) (latitude prev)
                         (preset_zoom (presets mode)) (preset_pitch (presets mode))
                         (preset_bearing (presets mode))
                         (Some (preset_transitionDuration (presets mode)))
                         (Some ViewModeEasing)) s in
    setTimeout FinishAnimation 2000 s.

(** The updaters of the four camera buttons ("Rotate Left", "Rotate
    Right", "Tilt Up", "Tilt Down"), which are written inline.  Sums
    and differences are exact here; [Nudge] has the same updaters with
    every operation rounded to a double. *)
Definition rotate_left (prev : view_state) : view_state :=
  ViewState (longitude prev) (latitude prev) (zoom prev) (pitch prev)
            (bearing prev - 45) (Some 800) (Some NudgeEasing).

Definition rotate_right (prev : view_state) : view_state :=
  ViewState (longitude prev) (latitude prev) (zoom prev) (pitch prev)
            (bearing prev + 45) (Some 800) (Some NudgeEasing).

Definition tilt_up (prev : view_state) : view_state :=
  ViewState (longitude prev) (latitude prev) (zoom prev)
            (Qmin (pitch prev + 15) 85)
            (bearing prev) (Some 600) (Some NudgeEasing).

Definition tilt_down (prev : view_state) : view_state :=
  ViewState (longitude prev) (latitude prev) (zoom prev)
            (Qmax (pitch prev - 15) 0)
            (bearing prev) (Some 600) (Some NudgeEasing).

Inductive nudge : Type := RotateLeft | RotateRight | TiltUp | TiltDown.

Definition nudge_updater (n : nudge) : view_state -> view_state :=
  match n with
  | RotateLeft => rotate_left
  | RotateRight => rotate_right
  | TiltUp => tilt_up
  | TiltDown => tilt_down
  end.

(** What a click on a camera button does. *)
Definition press (n : nudge) (s : state) : state := setViewState (nudge_updater n) s.

End MapPage.

(** ** MiningPitVisualizer.jsx again, with object identity

    The annotator read at the level of references: objects and arrays
    live in a store and values point to them, so that copying (object
    spread), sharing and the absence of writes can be stated.  The
    definitions follow the same source lines as [Visualizer]. *)

Module Store.

Definition loc : Type := positive.

Inductive value : Type :=
| VUndef
| VNull
| VBool (b : bool)
| VNum (q : Q)
| VStr (s : string)
| VRef (l : loc).

Inductive object : Type :=
| Obj (props : gmap string value)
| Arr (elems : list value).

Abbreviation heap := (gmap loc object).

(** A computation on the store; [None] is a thrown [TypeError] (or a
    read through a reference that is not in the store, which a
    JavaScript heap does not contain). *)
Definition M (A : Type) : Type := heap -> heap * option A.

#[global] Instance M_ret : MRet M := fun A a h => (h, Some a).
#[global] Instance M_bind : MBind M := fun A B k m h =>
  match m h with
  | (h', Some a) => k a h'
  | (h', None) => (h', None)
  end.

Definition read {A} (f : heap -> option A) : M A := fun h => (h, f h).

(** An object or array literal: a new object at a location not in use. *)
Definition alloc (o : object) : M value := fun h =>
  let l := fresh (dom h) in (<[l := o]> h, Some (VRef l)).

Definition truthy (v : value) : bool :=
  match v with
  | VUndef | VNull => false
  | VBool b => b
  | VNum q => negb (Qeq_bool q 0)
  | VStr s => negb (String.eqb s EmptyString)
  | VRef _ => true
  end.

Definition read_prop (v : value) (key : string) (h : heap) : option value :=
  match v with
  | VUndef | VNull => None
  | VRef l =>
      match h !! l with
      | Some (Obj props) => Some (default VUndef (props !! key))
      | Some (Arr elems) =>
          Some (if String.eqb key "length" then VNum (JS.of_nat (length elems)) else VUndef)
      | None => None
      end
  | VStr s => Some (if String.eqb key "length" then VNum (JS.of_nat (String.length s)) else VUndef)
  | VBool _ | VNum _ => Some VUndef
  end.

Definition read_index (v : value) (i : nat) (h : heap) : option value :=
  match v with
  | VUndef | VNull => None
  | VRef l =>
      match h !! l with
      | Some (Obj props) => Some (default VUndef (props !! JS.decimal i))
      | Some (Arr elems) => Some (default VUndef (elems !! i))
      | None => None
      end
  | VStr s => Some (match String.get i s with
                    | Some c => VStr (String c EmptyString)
                    | None => VUndef
                    end)
  | VBool _ | VNum _ => Some VUndef
  end.

Fixpoint chars (s : string) : list value :=
  match s with
  | EmptyString => []
  | String c s' => VStr (String c EmptyString) :: chars s'
  end.

Definition indexed (l : list value) : gmap string value :=
  list_to_map (imap (fun i x => (JS.decimal i, x)) l).

Definition read_props (v : value) (h : heap) : option (gmap string value) :=
  match v with
  | VRef l =>
      match h !! l with
      | Some (Obj props) => Some props
      | Some (Arr elems) => Some (indexed elems)
      | None => None
      end
  | VStr s => Some (indexed (chars s))
  | VUndef | VNull | VBool _ | VNum _ => Some ∅
  end.

Definition read_elems (v : value) (h : heap) : option (list value) :=
  match v with
  | VRef l =>
      match h !! l with
      | Some (Arr elems) => Some elems
      | _ => None
      end
  | _ => None
  end.

(** [v.key], [v[i]], the properties copied by [{...v}], and the
    elements visited by [v.map]. *)
Definition get_prop (v : value) (key : string) : M value := read (read_prop v key).
Definition get_index (v : value) (i : nat) : M value := read (read_index v i).
Definition own_props (v : value) : M (gmap string value) := read (read_props v).
Definition elements (v : value) : M (list value) := read (read_elems v).

Fixpoint map_from {A B} (f : A -> nat -> M B) (i : nat) (l : list A) : M (list B) :=
  match l with
  | [] => mret []
  | x :: l' =>
      y ← f x i;
      ys ← map_from f (S i) l';
      mret (y :: ys)
  end.

Definition array_map (f : value -> nat -> M value) (v : value) : M value :=
  elems ← elements v;
  elems' ← map_from f 0 elems;
  alloc (Arr elems').

(** [(data.illegal_operations || [])] *)
Definition operations (data : value) : M value :=
  ops ← get_prop data "illegal_operations";
  if truthy ops then mret ops else alloc (Arr []).

Definition annotate (data : value) (isIllegal : bool) (feature : value) (index : nat)
  : M value :=
  operation ← (if isIllegal
               then ops ← operations data; get_index ops index
               else mret VNull);
  copied ← own_props feature;
  properties ← get_prop feature "properties";
  copied_properties ← own_props properties;
  depth ← (if truthy operation then get_prop operation "avg_depth_m" else mret (VNum 50));
  volume ← (if truthy operation then get_prop operation "volume_m3" else mret (VStr "N/A"));
  properties' ← alloc (Obj (<["name" := VStr (Visualizer.feature_name isIllegal index)]>
                           (<["volume" := volume]>
                           (<["depth" := depth]>
                           (<["status" := VStr (Visualizer.status_tag isIllegal)]>
                            copied_properties)))));
  alloc (Obj (<["properties" := properties']> copied)).

Definition addDataToFeatures (data featureCollection : value) (isIllegal : bool)
  : M value :=
  if negb (truthy featureCollection) then mret VNull else
  features ← get_prop featureCollection "features";
  if negb (truthy features) then mret VNull else
  copied ← own_props featureCollection;
  features' ← array_map (annotate data isIllegal) features;
  alloc (Obj (<["features" := features']> copied)).

End Store.

(** * Vocabulary of the specification

    Predicates and expected values that the statements below use; they
    say what the specification promises and embed no source code. *)

Module Spec.
Import JS Visualizer.

Definition is_object (v : value) : Prop := exists o, v = VObj o.

(** The field [key] of a record. *)
Definition field (v : value) (key : string) : value :=
  match v with
  | VObj o => default VUndef (o !! key)
  | _ => VUndef
  end.

(** The values the specification promises for [depth] and [volume] of
    the feature at index [i], given the operation records [ops]. *)
Definition expected_depth (isIllegal : bool) (ops : list value) (i : nat) : value :=
  match (if isIllegal then ops !! i else None) with
  | Some op => field op "avg_depth_m"
  | None => VNum 50
  end.

Definition expected_volume (isIllegal : bool) (ops : list value) (i : nat) : value :=
  match (if isIllegal then ops !! i else None) with
  | Some op => field op "volume_m3"
  | None => VStr "N/A"
  end.

Definition annotated_properties (isIllegal : bool) (ops : list value) (i : nat)
    (old : gmap string value) : gmap string value :=
  <["name" := VStr (feature_name isIllegal i)]>
  (<["volume" := expected_volume isIllegal ops i]>
  (<["depth" := expected_depth isIllegal ops i]>
  (<["status" := VStr (status_tag isIllegal)]> old))).

(** The two collections of an analysis result. *)
Definition collection_key (isIllegal : bool) : string :=
  if isIllegal then "illegal_polygons" else "legal_polygons".

Definition source_for (isIllegal : bool) (d : value) : source :=
  if isIllegal then illegal_source d else legal_source d.

(** Identifiers of the source and of the two layers of a collection. *)
Definition ids_for (isIllegal : bool) : list string :=
  registered_ids [source_for isIllegal VNull].

(** A collection that is absent (or otherwise falsy), or whose
    [features] member is. *)
Definition lacks_features (fc : value) : Prop :=
  truthy fc = false \/ exists v, get_prop fc "features" = Ok v /\ truthy v = false.

(** [l] is what the array spread [...(fc.features || [])] yields. *)
Definition features_of (fc : value) (l : list value) : Prop :=
  exists fs, get_prop fc "features" = Ok fs /\ iterate (or_else fs (VArr [])) = Ok l.

(** [c] is [feature.geometry.coordinates[0][0]]: for a polygon, the
    first coordinate of its first ring. *)
Definition first_coordinate (feature c : value) : Prop :=
  exists geometry coordinates ring,
    get_prop feature "geometry" = Ok geometry /\
    get_prop geometry "coordinates" = Ok coordinates /\
    get_index coordinates 0 = Ok ring /\
    get_index ring 0 = Ok c.

(** A complete run of the upload flow: the Analyze button is pressed
    with [files] selected, React renders, and the request then settles
    as [o]. *)
Definition upload (files : list App.file) (o : App.fetch_outcome) (s : App.state)
  : result App.state :=
  s1 ← App.step (App.AnalyzeClicked files) s;
  App.step (App.RequestSettled o) s1.

(** The request did not produce a successful response. *)
Definition failed (o : App.fetch_outcome) : Prop :=
  match o with
  | App.NetworkFailure _ => True
  | App.Response status _ => App.ok status = false
  end.

(** The analysis result a settled request stores: the parsed body of a
    successful response, and nothing otherwise. *)
Definition stored_by (o : App.fetch_outcome) : option value :=
  match o with
  | App.Response status (App.Json v) => if App.ok status then Some v else None
  | _ => None
  end.

(** Calls that touch neither the analysis result nor the loading flag. *)
Definition quiet (c : App.call) : Prop :=
  match c with
  | App.SetAnalysisResult _ | App.SetIsLoading _ => False
  | _ => True
  end.

(** The camera shows the values of a preset. *)
Definition preset_applied (p : MapPage.preset) (vs : MapPage.view_state) : Prop :=
  (MapPage.pitch vs == MapPage.preset_pitch p)%Q /\
  (MapPage.bearing vs == MapPage.preset_bearing p)%Q /\
  (MapPage.zoom vs == MapPage.preset_zoom p)%Q /\
  exists d, MapPage.transitionDuration vs = Some d /\
            (d == MapPage.preset_transitionDuration p)%Q.

(** Shapes of an easing curve [f] on the unit interval.  A curve eases
    in when it starts slowly: over the first half, progress does not
    run ahead of time.  It eases out when it ends slowly: over the
    second half, progress is ahead of time and slows down to arrive.
    An ease-in-out curve does both; a plain ease-out curve is ahead of
    time throughout. *)
Definition eases_in (f : Q -> Q) : Prop :=
  forall t : Q, (0 <= t)%Q -> (t <= 1 # 2)%Q -> (f t <= t)%Q.

Definition eases_out (f : Q -> Q) : Prop :=
  forall t : Q, (1 # 2 <= t)%Q -> (t <= 1)%Q -> (t <= f t)%Q.

Definition ease_in_out (f : Q -> Q) : Prop := eases_in f /\ eases_out f.

Definition ease_out_only (f : Q -> Q) : Prop :=
  forall t : Q, (0 <= t)%Q -> (t <= 1)%Q -> (t <= f t)%Q.

(** *** Vocabulary for the store-level reading of the annotator *)

(** A value that is not a reference, or whose reference is in the store. *)
Definition bound (h : Store.heap) (v : Store.value) : Prop :=
  match v with
  | Store.VRef l => is_Some (h !! l)
  | _ => True
  end.

(** A store without dangling references. *)
Definition closed (h : Store.heap) : Prop :=
  forall l o, h !! l = Some o ->
    match o with
    | Store.Obj props => forall k v, props !! k = Some v -> bound h v
    | Store.Arr elems => Forall (bound h) elems
    end.

(** A computation that writes to no existing object: whatever it does,
    every object of the store it starts from is still there, unchanged,
    in the store it ends with. *)
Definition grows {A} (m : Store.M A) : Prop := forall h, h ⊆ (m h).1.

(** A reference to a (non-array) object of the store. *)
Definition is_feature (h : Store.heap) (v : Store.value) : Prop :=
  exists l props, v = Store.VRef l /\ h !! l = Some (Store.Obj props).

(** The four properties the annotator writes. *)
Definition annotation_keys : list string := ["status"; "depth"; "volume"; "name"].

(** [v'] is, in the store [h'], an annotated copy of the feature with
    members [feature] of the store [h]: a new object with the same
    members (the same geometry in particular) except [properties],
    which is a new object too, with the properties of the old one
    except the four annotation keys, which are written. *)
Definition annotated_copy (h h' : Store.heap) (isIllegal : bool) (index : nat)
    (feature : gmap string Store.value) (v' : Store.value) : Prop :=
  exists (lf' lp' : Store.loc) (p' old : gmap string Store.value),
    v' = Store.VRef lf' /\
    h !! lf' = None /\
    h' !! lf' = Some (Store.Obj (<["properties" := Store.VRef lp']> feature)) /\
    h !! lp' = None /\
    h' !! lp' = Some (Store.Obj p') /\
    Store.read_props (default Store.VUndef (feature !! "properties")) h = Some old /\
    (forall k, k ∉ annotation_keys -> p' !! k = old !! k) /\
    p' !! "status" = Some (Store.VStr (status_tag isIllegal)) /\
    p' !! "name" = Some (Store.VStr (feature_name isIllegal index)) /\
    is_Some (p' !! "depth") /\
    is_Some (p' !! "volume").

End Spec.

(** * Sample inputs

    Concrete analysis results and states on which the statements below
    are exercised. *)

Module Sample.
Import JS.

Definition polygon (ring : list value) : value :=
  VObj (<["type" := VStr "Polygon"]> (<["coordinates" := VArr [VArr ring] ]> ∅)).

Definition point (x y : Q) : value := VArr [VNum x; VNum y].

Definition pit_a : value :=
  VObj (<["type" := VStr "Feature"]>
       (<["geometry" := polygon [point 86.5 23.8; point 86.6 23.8; point 86.6 23.9]]>
       (<["properties" := VObj (<["id" := VNum 7]> (<["name" := VStr "old"]> ∅))]> ∅))).

Definition pit_b : value :=
  VObj (<["type" := VStr "Feature"]>
       (<["geometry" := polygon [point 86.1 23.1; point 86.2 23.1; point 86.2 23.2]]>
       (<["properties" := VNull]> ∅))).

Definition lease : value :=
  VObj (<["type" := VStr "Feature"]>
       (<["geometry" := polygon [point 86.3 23.7; point 86.4 23.7; point 86.4 23.6]]>
       (<["properties" := VObj (<["license" := VStr "L-12"]> ∅)]> ∅))).

Definition operation_a : value :=
  VObj (<["avg_depth_m" := VNum 12.5]> (<["volume_m3" := VNum 3400]> ∅)).

Definition collection (features : list value) : gmap string value :=
  <["type" := VStr "FeatureCollection"]> (<["features" := VArr features]> ∅).

Definition analysis : value :=
  VObj (<["geospatial_data" :=
            VObj (<["illegal_polygons" := VObj (collection [pit_a; pit_b])]>
                 (<["legal_polygons" := VObj (collection [lease])]> ∅))]>
       (<["illegal_operations" := VArr [operation_a] ]> ∅)).

(** An analysis that found nothing: both collections are present and
    their feature arrays are empty. *)
Definition empty_analysis : value :=
  VObj (<["geospatial_data" :=
            VObj (<["illegal_polygons" := VObj (collection [])]>
                 (<["legal_polygons" := VObj (collection [])]> ∅))]>
       (<["illegal_operations" := VArr [] ]> ∅)).

(** An analysis without an illegal collection. *)
Definition legal_only_analysis : value :=
  VObj (<["geospatial_data" :=
            VObj (<["legal_polygons" := VObj (collection [lease])]> ∅)]>
       (<["illegal_operations" := VArr [] ]> ∅)).

(** The application after [analysis] was received. *)
Definition loaded : App.state :=
  App.State (App.viewState App.initial) None analysis false None.

(** A store holding an analysis: an illegal collection (at 1) with one
    feature (at 3), its geometry (4, 6) and properties (5), and the
    analysis object (7) with one operation record (8, 9). *)
Definition store_objects : list (Store.loc * Store.object) :=
  [ (1%positive, Store.Obj (<["type" := Store.VStr "FeatureCollection"]>
                           (<["features" := Store.VRef 2%positive]> ∅)));
    (2%positive, Store.Arr [Store.VRef 3%positive]);
    (3%positive, Store.Obj (<["type" := Store.VStr "Feature"]>
                           (<["geometry" := Store.VRef 4%positive]>
                           (<["properties" := Store.VRef 5%positive]> ∅))));
    (4%positive, Store.Obj (<["type" := Store.VStr "Polygon"]>
                           (<["coordinates" := Store.VRef 6%positive]> ∅)));
    (5%positive, Store.Obj (<["id" := Store.VNum 7]> (<["name" := Store.VStr "old"]> ∅)));
    (6%positive, Store.Arr []);
    (7%positive, Store.Obj (<["illegal_operations" := Store.VRef 8%positive]> ∅));
    (8%positive, Store.Arr [Store.VRef 9%positive]);
    (9%positive, Store.Obj (<["avg_depth_m" := Store.VNum 12.5]>
                           (<["volume_m3" := Store.VNum 3400]> ∅))) ].

Definition store : Store.heap := list_to_map store_objects.

(** The map page after one press of the 2D/3D toggle: the 2D view. *)
Definition flat : MapPage.state := MapPage.toggle3DMode MapPage.initial.

End Sample.

(** ** MapPage.jsx: the whole page

    [MapPage] above has the camera handlers on their own.  Here is the
    component with all its state slots and handlers: the popup, the
    click handler and [flyToMine] with its cubic easing, the orbital
    rotation with the values its callback captures, the timers, and
    which controls the rendered page offers. *)

Module Page.
Import JS.
Local Open Scope Q_scope.

(** [interactiveLayerIds] of the [Map] element. *)
Definition interactiveLayerIds : list string :=
  ["mining-pits-click"; "mining-pits-2d"; "mining-pits-3d"].

Inductive easing : Type :=
| Written (e : MapPage.easing)   (* the easing functions of [MapPage] *)
| FlyEasing.                     (* t => 1 - Math.pow(1 - t, 3), reporting its progress *)

(** The value of the formula, before any rounding. *)
Definition ease (e : easing) (t : Q) : Q :=
  match e with
  | Written e' => MapPage.ease e' t
  | FlyEasing => 1 - (1 - t) ^ 3
  end.

Record view_state : Type := ViewState
  { longitude : Q;
    latitude : Q;
    zoom : Q;
    pitch : Q;
    bearing : Q;
    transitionDuration : option Q;
    transitionEasing : option easing }.

(** [{ lngLat, properties }]; the properties of a feature reported by
    the map are an object. *)
Record popup : Type := Popup
  { lng : Q;
    lat : Q;
    properties : gmap string value }.

(** What an [animate] callback handed to [requestAnimationFrame] has
    captured from the render that created [startOrbitalRotation]. *)
Record frame : Type := Frame
  { captured_isAnimating : bool;
    captured_is3DEnabled : bool }.

Record state : Type := State
  { viewState : view_state;
    popupInfo : option popup;
    currentViewMode : MapPage.view_mode;
    isAnimating : bool;
    animationProgress : Q;
    is3DEnabled : bool;
    timeouts : list (Q * MapPage.timeout_callback);   (* pending, with their delay in ms *)
    frames : list frame }.                            (* pending animation frames *)

Definition initial : state :=
  {| viewState := ViewState 78.98 20.58 10 0 0 None None;
     popupInfo := None;
     currentViewMode := MapPage.TopDown;
     isAnimating := false;
     animationProgress := 0;
     is3DEnabled := true;
     timeouts := [];
     frames := [] |}.

(** The state setters and the two schedulers. *)
Definition setViewState (f : view_state -> view_state) (s : state) : state :=
  State (f (viewState s)) (popupInfo s) (currentViewMode s) (isAnimating s)
        (animationProgress s) (is3DEnabled s) (timeouts s) (frames s).
Definition setPopupInfo (p : option popup) (s : state) : state :=
  State (viewState s) p (currentViewMode s) (isAnimating s)
        (animationProgress s) (is3DEnabled s) (timeouts s) (frames s).
Definition setCurrentViewMode (m : MapPage.view_mode) (s : state) : state :=
  State (viewState s) (popupInfo s) m (isAnimating s)
        (animationProgress s) (is3DEnabled s) (timeouts s) (frames s).
Definition setIsAnimating (b : bool) (s : state) : state :=
  State (viewState s) (popupInfo s) (currentViewMode s) b
        (animationProgress s) (is3DEnabled s) (timeouts s) (frames s).
Definition setAnimationProgress (p : Q) (s : state) : state :=
  State (viewState s) (popupInfo s) (currentViewMode s) (isAnimating s)
        p (is3DEnabled s) (timeouts s) (frames s).
Definition setIs3DEnabled (b : bool) (s : state) : state :=
  State (viewState s) (popupInfo s) (currentViewMode s) (isAnimating s)
        (animationProgress s) b (timeouts s) (frames s).
Definition setTimeout (cb : MapPage.timeout_callback) (delay : Q) (s : state) : state :=
  State (viewState s) (popupInfo s) (currentViewMode s) (isAnimating s)
        (animationProgress s) (is3DEnabled s) (timeouts s ++ [(delay, cb)]) (frames s).
Definition requestAnimationFrame (c : frame) (s : state) : state :=
  State (viewState s) (popupInfo s) (currentViewMode s) (isAnimating s)
        (animationProgress s) (is3DEnabled s) (timeouts s) (frames s ++ [c]).

Definition toggle3DMode (s : state) : state :=
  let enable3D := negb (is3DEnabled s) in
  let s := setIs3DEnabled enable3D s in
  let s := setIsAnimating true s in
  let s :=
    if enable3D then
      let s := setViewState (fun prev =>
                 ViewState (longitude prev) (latitude prev) 11.2 45 (-30)
                           (Some 1500) (Some (Written MapPage.ToggleEasing))) s in
      setCurrentViewMode MapPage.Perspective s
    else
      let s := setViewState (fun prev =>
                 ViewState (longitude prev) (latitude prev) 10.5 0 0
                           (Some 1500) (Some (Written MapPage.ToggleEasing))) s in
      setCurrentViewMode MapPage.TopDown s in
  setTimeout MapPage.ClearAnimating 1500 s.

(** [properties.status === 'illegal'] *)
Definition status_is_illegal (properties : gmap string value) : bool :=
  match properties !! "status" with
  | Some (VStr status) => String.eqb status "illegal"
  | _ => false
  end.

Definition flyToMine (mine_lng mine_lat : Q) (properties : gmap string value)
    (s : state) : state :=
  let targetPitch :=
    if is3DEnabled s
    then (match currentViewMode s with MapPage.TopDown => 45 | _ => 60 end)
    else 0 in
  let s' := setIsAnimating true s in
  let s' := setAnimationProgress 0 s' in
  let s' := setViewState (fun _ =>
              ViewState mine_lng mine_lat
                        (if status_is_illegal properties then 14.5 else 13.5)
                        targetPitch
                        (if is3DEnabled s then -30 else 0)
                        (Some 3000) (Some FlyEasing)) s' in
  setTimeout MapPage.FinishAnimation 3000 s'.

Definition setViewMode (mode : MapPage.view_mode) (s : state) : state :=
  if negb (is3DEnabled s) then toggle3DMode s
  else
    let s := setCurrentViewMode mode s in
    let s := setIsAnimating true s in
    let s := setAnimationProgress 0 s in
    let s := setViewState (fun prev =>
               ViewState (longitude prev) (latitude prev)
                         (MapPage.preset_zoom (MapPage.presets mode))
                         (MapPage.preset_pitch (MapPage.presets mode))
                         (MapPage.preset_bearing (MapPage.presets mode))
                         (Some (MapPage.preset_transitionDuration (MapPage.presets mode)))
                         (Some (Written MapPage.ViewModeEasing))) s in
    setTimeout MapPage.FinishAnimation 2000 s.

(** One run of [animate]; [elapsed] is [Date.now() - startTime], in ms.
    The continuation test reads the captured values. *)
Definition animate (c : frame) (elapsed : Z) (s : state) : state :=
  let progress := inject_Z (Z.rem elapsed 15000) / 15000 in
  let s := setViewState (fun prev =>
             ViewState (longitude prev) (latitude prev) (zoom prev) (pitch prev)
                       (progress * 360) (Some 0) (transitionEasing prev)) s in
  if captured_isAnimating c && captured_is3DEnabled c
  then requestAnimationFrame c s
  else s.

Definition startOrbitalRotation (elapsed : Z) (s : state) : state :=
  if negb (is3DEnabled s) then s
  else
    let c := Frame (isAnimating s) (is3DEnabled s) in
    animate c elapsed (setIsAnimating true s).

Definition stopOrbitalRotation (s : state) : state := setIsAnimating false s.

(** The event object of a map click: the properties of the features
    under the pointer, if the map reports any, and the position. *)
Record click_event : Type := ClickEvent
  { features : option (list (gmap string value));
    click_lng : Q;
    click_lat : Q }.

Definition handleMapClick (e : click_event) (s : state) : state :=
  match features e with
  | Some (feature_properties :: _) =>
      let s := setPopupInfo (Some (Popup (click_lng e) (click_lat e) feature_properties)) s in
      flyToMine (click_lng e) (click_lat e) feature_properties s
  | _ => s
  end.

(** [onMove]: the view state the map library reports replaces the
    stored one; it carries no transition members. *)
Definition onMove (lng lat zoom pitch bearing : Q) (s : state) : state :=
  setViewState (fun _ => ViewState lng lat zoom pitch bearing None None) s.

(** The updaters of the four camera buttons. *)
Definition nudge_updater (n : MapPage.nudge) (prev : view_state) : view_state :=
  match n with
  | MapPage.RotateLeft =>
      ViewState (longitude prev) (latitude prev) (zoom prev) (pitch prev)
                (bearing prev - 45) (Some 800) (Some (Written MapPage.NudgeEasing))
  | MapPage.RotateRight =>
      ViewState (longitude prev) (latitude prev) (zoom prev) (pitch prev)
                (bearing prev + 45) (Some 800) (Some (Written MapPage.NudgeEasing))
  | MapPage.TiltUp =>
      ViewState (longitude prev) (latitude prev) (zoom prev)
                (Qmin (pitch prev + 15) 85)
                (bearing prev) (Some 600) (Some (Written MapPage.NudgeEasing))
  | MapPage.TiltDown =>
      ViewState (longitude prev) (latitude prev) (zoom prev)
                (Qmax (pitch prev - 15) 0)
                (bearing prev) (Some 600) (Some (Written MapPage.NudgeEasing))
  end.

(** A timer callback runs. *)
Definition run_callback (cb : MapPage.timeout_callback) (s : state) : state :=
  match cb with
  | MapPage.ClearAnimating => setIsAnimating false s
  | MapPage.FinishAnimation => setAnimationProgress 1 (setIsAnimating false s)
  end.

Definition drop_timeout (k : nat) (s : state) : state :=
  State (viewState s) (popupInfo s) (currentViewMode s) (isAnimating s)
        (animationProgress s) (is3DEnabled s) (delete k (timeouts s)) (frames s).

Definition drop_frame (s : state) : state :=
  State (viewState s) (popupInfo s) (currentViewMode s) (isAnimating s)
        (animationProgress s) (is3DEnabled s) (timeouts s) (tail (frames s)).

(** [maxPitch={is3DEnabled ? 85 : 0}] *)
Definition maxPitch (s : state) : Q := if is3DEnabled s then 85 else 0.

(** What can happen to the page. *)
Inductive event : Type :=
| ToggleClicked                            (* the 2D/3D button *)
| ViewModeClicked (mode : MapPage.view_mode) (* the three view buttons *)
| ResetViewClicked                         (* "Reset View" *)
| NudgeClicked (n : MapPage.nudge)         (* the four camera buttons *)
| OrbitClicked (elapsed : Z)               (* "Auto Orbit" *)
| MapClicked (e : click_event)             (* [onClick] *)
| MapMoved (lng lat zoom pitch bearing : Q)  (* [onMove] *)
| PopupClosed                              (* [onClose] *)
| ReflyClicked                             (* "Re-fly to Mine" in the popup *)
| TimeoutFired (k : nat)                   (* the pending timer number [k] is due *)
| FrameFired (elapsed : Z)                 (* the next animation frame *)
| EasingEvaluated (t : Q).                 (* the map engine evaluates [transitionEasing] *)

(** The easing functions that call [setAnimationProgress]. *)
Definition reports_progress (e : easing) : bool :=
  match e with
  | Written MapPage.ViewModeEasing | FlyEasing => true
  | _ => false
  end.

(** Whether the rendered page lets the event happen: a button must be
    rendered and not disabled, a timer or frame must be pending, the
    map library reports pitches within [0, maxPitch] and evaluates an
    easing function at normalized times, within [0, 1]. *)
Definition enabled (ev : event) (s : state) : bool :=
  match ev with
  | ToggleClicked => negb (isAnimating s)
  | ViewModeClicked _ | ResetViewClicked => is3DEnabled s && negb (isAnimating s)
  | NudgeClicked (MapPage.RotateLeft | MapPage.RotateRight) => negb (isAnimating s)
  | NudgeClicked (MapPage.TiltUp | MapPage.TiltDown) => is3DEnabled s && negb (isAnimating s)
  | OrbitClicked _ => is3DEnabled s
  | MapClicked _ => true
  | MapMoved _ _ _ pitch _ => Qle_bool 0 pitch && Qle_bool pitch (maxPitch s)
  | PopupClosed | ReflyClicked =>
      match popupInfo s with Some _ => true | None => false end
  | TimeoutFired k => (k <? length (timeouts s))%nat
  | FrameFired _ =>
      match frames s with _ :: _ => true | [] => false end
  | EasingEvaluated t =>
      match transitionEasing (viewState s) with
      | Some _ => Qle_bool 0 t && Qle_bool t 1
      | None => false
      end
  end.

Definition handle (ev : event) (s : state) : state :=
  match ev with
  | ToggleClicked => toggle3DMode s
  | ViewModeClicked mode => setViewMode mode s
  | ResetViewClicked =>
      setViewMode (if is3DEnabled s then MapPage.Perspective else MapPage.TopDown) s
  | NudgeClicked n => setViewState (nudge_updater n) s
  | OrbitClicked elapsed =>
      if isAnimating s then stopOrbitalRotation s else startOrbitalRotation elapsed s
  | MapClicked e => handleMapClick e s
  | MapMoved lng lat zoom pitch bearing => onMove lng lat zoom pitch bearing s
  | PopupClosed => setPopupInfo None s
  | ReflyClicked =>
      match popupInfo s with
      | Some p => flyToMine (lng p) (lat p) (properties p) s
      | None => s
      end
  | TimeoutFired k =>
      match timeouts s !! k with
      | Some (_, cb) => run_callback cb (drop_timeout k s)
      | None => s
      end
  | FrameFired elapsed =>
      match frames s with
      | c :: _ => animate c elapsed (drop_frame s)
      | [] => s
      end
  | EasingEvaluated t =>
      match transitionEasing (viewState s) with
      | Some e => if reports_progress e then setAnimationProgress (ease e t) s else s
      | None => s
      end
  end.

(** The states the page can be in. *)
Inductive reachable : state -> Prop :=
| reachable_initial : reachable initial
| reachable_step (s : state) (ev : event) :
    reachable s -> enabled ev s = true -> reachable (handle ev s).

(** The camera part of the page, as [MapPage] has it (the cubic easing
    has no counterpart there). *)
Definition core_view (vs : view_state) : MapPage.view_state :=
  MapPage.ViewState (longitude vs) (latitude vs) (zoom vs) (pitch vs) (bearing vs)
    (transitionDuration vs)
    (match transitionEasing vs with
     | Some (Written e) => Some e
     | _ => None
     end).

Definition core (s : state) : MapPage.state :=
  MapPage.State (core_view (viewState s)) (currentViewMode s) (isAnimating s)
                (animationProgress s) (is3DEnabled s) (timeouts s).

End Page.

(** ** The [App] component as a machine

    The upload client with the requests it has in flight and with what
    the rendered page lets happen. *)

Module Session.
Import JS.

(** [interactiveLayerIds] of the [Map] element. *)
Definition interactiveLayerIds : list string := ["illegal-pits-2d"; "legal-pits-2d"].

Record session : Type := Session
  { app : App.state;
    pending : nat }.   (* requests sent and not yet settled *)

Definition initial : session := Session App.initial 0.

Definition is_fetch (c : App.call) : bool :=
  match c with
  | App.Fetch _ _ _ _ => true
  | _ => false
  end.

(** The requests a handler run sends. *)
Definition requests (cs : list App.call) : nat := length (filter is_fetch cs).

(** Whether the rendered page lets the event happen: the Analyze button
    is [disabled={isLoading}], only a request in flight can settle, and
    only an open popup can be closed. *)
Definition enabled (ev : App.event) (x : session) : bool :=
  match ev with
  | App.AnalyzeClicked _ => negb (App.isLoading (app x))
  | App.RequestSettled _ => (0 <? pending x)%nat
  | App.PopupClosed =>
      match App.popupInfo (app x) with Some _ => true | None => false end
  | App.MapMoved _ | App.MapClicked _ => true
  end.

Definition settles (ev : App.event) : nat :=
  match ev with
  | App.RequestSettled _ => 1
  | _ => 0
  end.

(** One event: the component's step, and the requests in flight
    afterwards.  [Throw] when the render that follows fails. *)
Definition next (ev : App.event) (x : session) : result session :=
  s' ← App.step ev (app x);
  Ok (Session s' (pending x + requests (fst (App.handle ev)) - settles ev)).

(** The sessions the application can be in. *)
Inductive reachable : session -> Prop :=
| reachable_initial : reachable initial
| reachable_step (x x' : session) (ev : App.event) :
    reachable x -> enabled ev x = true -> next ev x = Ok x' -> reachable x'.

End Session.

(** * Double-precision arithmetic

    JavaScript numbers are IEEE 754 binary64 values, and [+], [-] and
    [*] return the exact result rounded to the nearest such value, ties
    going to the one with an even significand.  A number is taken as
    the rational it denotes; a double is a rational that rounding
    leaves alone.  The significand has 53 bits and the exponent of the
    last place is at least -1074.  Overflow to [Infinity], [NaN] and
    the sign of zero are not modelled: the statements made with these
    operations concern numbers far below 2^1024. *)

Module Double.
Local Open Scope Q_scope.

(** Round to the nearest integer, ties to the even one. *)
Definition nearest_even (q : Q) : Z :=
  let f := Qfloor q in
  match Qcompare (q - inject_Z f) (1 # 2) with
  | Lt => f
  | Eq => if Z.even f then f else (f + 1)%Z
  | Gt => (f + 1)%Z
  end.

(** [floor (log2 q)] for a positive [q]. *)
Definition exponent (q : Q) : Z :=
  let e := (Z.log2 (Qnum q) - Z.log2 (Zpos (Qden q)))%Z in
  if Qle_bool (2 ^ e) q then e else (e - 1)%Z.

Definition ulp (q : Q) : Q := 2 ^ Z.max (exponent q - 52) (-1074).

Definition round_pos (q : Q) : Q := inject_Z (nearest_even (q / ulp q)) * ulp q.

Definition round (q : Q) : Q :=
  match Qnum q with
  | Z0 => 0
  | Zpos _ => round_pos q
  | Zneg _ => - round_pos (- q)
  end.

Definition add (x y : Q) : Q := round (x + y).
Definition sub (x y : Q) : Q := round (x - y).
Definition mul (x y : Q) : Q := round (x * y).

End Double.

(** * The camera buttons of MapPage.jsx in double precision

    The four inline updaters of [MapPage] and their easing function
    again, with each addition, subtraction and product rounded as the
    engine does.  [Math.min] and [Math.max] return one of their
    arguments and round nothing. *)

Module Nudge.
Import MapPage.
Local Open Scope Q_scope.

Definition rotate_left (prev : view_state) : view_state :=
  ViewState (longitude prev) (latitude prev) (zoom prev) (pitch prev)
            (Double.sub (bearing prev) 45) (Some 800) (Some NudgeEasing).

Definition rotate_right (prev : view_state) : view_state :=
  ViewState (longitude prev) (latitude prev) (zoom prev) (pitch prev)
            (Double.add (bearing prev) 45) (Some 800) (Some NudgeEasing).

Definition tilt_up (prev : view_state) : view_state :=
  ViewState (longitude prev) (latitude prev) (zoom prev)
            (Qmin (Double.add (pitch prev) 15) 85)
            (bearing prev) (Some 600) (Some NudgeEasing).

Definition tilt_down (prev : view_state) : view_state :=
  ViewState (longitude prev) (latitude prev) (zoom prev)
            (Qmax (Double.sub (pitch prev) 15) 0)
            (bearing prev) (Some 600) (Some NudgeEasing).

(** [t => t * (2 - t)] *)
Definition ease (t : Q) : Q := Double.mul t (Double.sub 2 t).

End Nudge.

(** * Further vocabulary

    Predicates used by the statements about the rest of the code. *)

Module Props.
Import JS.

(** [null] or [undefined]. *)
Definition nullish (v : value) : bool :=
  match v with
  | VUndef | VNull => true
  | _ => false
  end.

(** [feature.geometry.coordinates[0][0]], which may throw. *)
Definition first_coord (feature : value) : result value :=
  geometry ← get_prop feature "geometry";
  coordinates ← get_prop geometry "coordinates";
  ring ← get_index coordinates 0;
  get_index ring 0.

(** The kinds of call [handleAnalysis] makes once its request has
    settled: it sends no request, shows no alert and leaves the popup
    alone. *)
Definition settle_call (c : App.call) : Prop :=
  match c with
  | App.SetAnalysisResult _ | App.SetViewState _ | App.SetError _
  | App.ConsoleError _ _ | App.SetIsLoading _ => True
  | App.SetPopupInfo _ | App.Alert _ | App.Fetch _ _ _ _ => False
  end.

(** The members of an object or array are bound in a store. *)
Definition members_bound (h : Store.heap) (o : Store.object) : Prop :=
  match o with
  | Store.Obj props => forall k v, props !! k = Some v -> Spec.bound h v
  | Store.Arr elems => Forall (Spec.bound h) elems
  end.

Definition props_bound (h : Store.heap) (props : gmap string Store.value) : Prop :=
  forall k v, props !! k = Some v -> Spec.bound h v.

(** A computation that keeps the store well formed: started in any
    closed store that extends [h0], it ends in a closed store that
    extends the one it started in, and what it returns satisfies [B]
    there. *)
Definition safe {A} (h0 : Store.heap) (B : Store.heap -> A -> Prop) (m : Store.M A) : Prop :=
  forall h, h0 ⊆ h -> Spec.closed h ->
    Spec.closed (m h).1 /\ h ⊆ (m h).1 /\
    forall a, (m h).2 = Some a -> B (m h).1 a.

(** What holds of the map page in every state it can reach. *)
Definition pitch_within_limit (s : Page.state) : Prop :=
  (0 <= Page.pitch (Page.viewState s))%Q /\
  (Page.pitch (Page.viewState s) <= Page.maxPitch s)%Q.

Definition flat_is_top_down (s : Page.state) : Prop :=
  Page.is3DEnabled s = false -> Page.currentViewMode s = MapPage.TopDown.

Definition progress_is_fraction (s : Page.state) : Prop :=
  (0 <= Page.animationProgress s)%Q /\ (Page.animationProgress s <= 1)%Q.

Definition page_invariant (s : Page.state) : Prop :=
  pitch_within_limit s /\ flat_is_top_down s /\ progress_is_fraction s /\
  Page.frames s = [].

(** What holds of the upload client in every session it can reach. *)
Definition session_invariant (x : Session.session) : Prop :=
  (Session.pending x <= 1)%nat /\
  (App.isLoading (Session.app x) = true <-> Session.pending x = 1%nat) /\
  (App.isLoading (Session.app x) = true ->
     App.analysisResult (Session.app x) = VNull /\ App.error (Session.app x) = None).

(** A registered source with its extrusion layer and its fill layer,
    of which the fill layer alone is interactive in [App]. *)
Definition two_layers (src : Visualizer.source) : Prop :=
  exists l3 l2,
    Visualizer.source_layers src = [l3; l2] /\
    Visualizer.layer_type l3 = "fill-extrusion" /\
    Visualizer.layer_type l2 = "fill" /\
    (Visualizer.layer_id l3 ∉ Session.interactiveLayerIds) /\
    (Visualizer.layer_id l2 ∈ Session.interactiveLayerIds).

(** [q] is a double-precision number. *)
Definition is_double (q : Q) : Prop := (Double.round q == q)%Q.

End Props.

(** * Further sample inputs *)

Module Cases.
Import JS.

(** The two collections of a response body, and the body. *)
Definition geodata (illegal legal : list value) : value :=
  VObj (<["illegal_polygons" := VObj (Sample.collection illegal)]>
       (<["legal_polygons" := VObj (Sample.collection legal)]> ∅)).

Definition body (illegal legal : list value) : value :=
  VObj {["geospatial_data" := geodata illegal legal]}.

(** A feature whose polygon has an empty first ring. *)
Definition ringless : value := VObj {["geometry" := Sample.polygon []]}.

(** A camera whose pitch and bearing are the double nearest to 0.1. *)
Definition tenth : MapPage.view_state :=
  MapPage.ViewState 78.98 20.58 10 (Double.round (1 # 10)) (Double.round (1 # 10))
                    None None.

End Cases.

(** * Verification *)

(** ** Generic facts about the embedding *)

(** Case analysis on membership in an explicit list. *)
Ltac split_elem H :=
  repeat (apply elem_of_cons in H as [H | H]; [try subst|]);
  try (apply elem_of_nil in H; contradiction).

Section MapFrom.
Import JS.
Context {A B : Type} (f : A -> nat -> result B).

Lemma map_from_elements (l : list A) : forall i l',
  map_from f i l = Ok l' ->
  length l' = length l /\
  forall k x, l !! k = Some x -> exists y, l' !! k = Some y /\ f x (i + k) = Ok y.
Proof.
  induction l as [|a l IH]; intros i l' H; simpl in H.
  - injection H as <-. split; [reflexivity|]. intros k x Hk. discriminate.
  - unfold mbind, result_bind in H.
    destruct (f a i) as [y|e] eqn:Hy; [|discriminate].
    destruct (map_from f (S i) l) as [ys|e] eqn:Hys; [|discriminate].
    injection H as <-.
    destruct (IH _ _ Hys) as [Hlen Hel].
    split; [simpl; congruence|].
    intros [|k] x Hk; simpl in Hk.
    + injection Hk as <-. exists y. rewrite Nat.add_0_r. split; [reflexivity|assumption].
    + destruct (Hel k x Hk) as (z & Hz & Hf). exists z.
      rewrite Nat.add_succ_r. split; assumption.
Qed.

Lemma map_from_total (l : list A) : forall i,
  (forall k x, l !! k = Some x -> exists y, f x (i + k) = Ok y) ->
  exists l', map_from f i l = Ok l'.
Proof.
  induction l as [|a l IH]; intros i H; simpl.
  - eexists; reflexivity.
  - destruct (H 0 a eq_refl) as [y Hy]. rewrite Nat.add_0_r in Hy.
    destruct (IH (S i)) as [ys Hys].
    { intros k x Hk. destruct (H (S k) x Hk) as [z Hz].
      exists z. rewrite Nat.add_succ_r in Hz. exact Hz. }
    exists (y :: ys). unfold mbind, result_bind. rewrite Hy, Hys. reflexivity.
Qed.

End MapFrom.

(** ** The feature annotator *)

Section Annotator.
Import JS Visualizer Spec.

Lemma annotate_object data isIllegal ops fo i :
  (isIllegal = true -> operations data = Ok (VArr ops) /\ Forall is_object ops) ->
  annotate data isIllegal (VObj fo) i =
  Ok (VObj (<["properties" :=
              VObj (annotated_properties isIllegal ops i
                      (own_props (default VUndef (fo !! "properties"))))]> fo)).
Proof.
  intros Hops. unfold annotate, annotated_properties, expected_depth, expected_volume.
  destruct isIllegal; simpl.
  - destruct (Hops eq_refl) as [-> Hrec]. simpl.
    destruct (ops !! i) as [op|] eqn:Hop; simpl; [|reflexivity].
    assert (Hobj : is_object op).
    { eapply Forall_forall; [exact Hrec|]. eapply list_elem_of_lookup_2; exact Hop. }
    destruct Hobj as [r ->]. reflexivity.
  - reflexivity.
Qed.

(** The sample analysis, annotated: the first illegal pit takes the
    members of the only operation record and keeps its own [id]; the
    second has no record and gets the defaults. *)
Example annotated_sample :
  exists f1 f2 p1 p2,
    addDataToFeatures Sample.analysis (VObj (Sample.collection [Sample.pit_a; Sample.pit_b])) true
    = Ok (VObj (Sample.collection [VObj f1; VObj f2])) /\
    f1 !! "properties" = Some (VObj p1) /\
    f2 !! "properties" = Some (VObj p2) /\
    map_to_list p1 =
      [("status", VStr "illegal"); ("id", VNum 7); ("name", VStr "Illegal Pit #1");
       ("volume", VNum 3400); ("depth", VNum 12.5)] /\
    map_to_list p2 =
      [("status", VStr "illegal"); ("name", VStr "Illegal Pit #2");
       ("volume", VStr "N/A"); ("depth", VNum 50)].
Proof. do 4 eexists. repeat split; vm_compute; reflexivity. Qed.

(** C1.  A collection whose [features] is an array of feature objects is
    annotated feature by feature: the result keeps the collection's other
    members, has as many features, and the properties of the feature at
    index [i] hold [status] = the collection's tag ('illegal' or
    'legal'), [name] = 'Illegal Pit #<i+1>' or 'Legal Area #<i+1>', and
    [depth] / [volume] = the [avg_depth_m] / [volume_m3] of the operation
    record at index [i] for an illegal feature when there is one, and
    50 / "N/A" otherwise (always so for a legal feature). *)
Theorem annotator_properties (data : value) (o : gmap string value)
    (fs ops : list value) (isIllegal : bool) :
  o !! "features" = Some (VArr fs) ->
  Forall is_object fs ->
  (isIllegal = true -> operations data = Ok (VArr ops) /\ Forall is_object ops) ->
  exists fs' : list value,
    addDataToFeatures data (VObj o) isIllegal = Ok (VObj (<["features" := VArr fs']> o)) /\
    length fs' = length fs /\
    forall i, (i < length fs)%nat ->
      exists f' p' : gmap string value,
        fs' !! i = Some (VObj f') /\
        f' !! "properties" = Some (VObj p') /\
        p' !! "status" = Some (VStr (if isIllegal then "illegal" else "legal")) /\
        p' !! "depth" = Some (expected_depth isIllegal ops i) /\
        p' !! "volume" = Some (expected_volume isIllegal ops i) /\
        p' !! "name" =
          Some (VStr ((if isIllegal then "Illegal Pit #" else "Legal Area #")
                      +:+ decimal (i + 1))).
Proof.
  intros Hfs Hobj Hops.
  assert (Hall : forall k x, fs !! k = Some x ->
            exists fo, x = VObj fo /\
              annotate data isIllegal x (0 + k) =
              Ok (VObj (<["properties" :=
                   VObj (annotated_properties isIllegal ops k
                           (own_props (default VUndef (fo !! "properties"))))]> fo))).
  { intros k x Hk.
    assert (Hx : is_object x).
    { eapply Forall_forall; [exact Hobj|]. eapply list_elem_of_lookup_2; exact Hk. }
    destruct Hx as [fo ->]. exists fo. split; [reflexivity|].
    apply annotate_object; assumption. }
  destruct (map_from_total (annotate data isIllegal) fs 0) as [fs' Hmap].
  { intros k x Hk. destruct (Hall k x Hk) as (fo & _ & Ha). eexists; exact Ha. }
  destruct (map_from_elements _ _ _ _ Hmap) as [Hlen Hel].
  exists fs'. split; [|split; [exact Hlen|]].
  - unfold addDataToFeatures. simpl. rewrite Hfs. simpl.
    unfold mbind, result_bind. rewrite Hmap. reflexivity.
  - intros i Hi.
    destruct (lookup_lt_is_Some_2 fs i Hi) as [x Hx].
    destruct (Hel i x Hx) as (y & Hy & Hfy).
    destruct (Hall i x Hx) as (fo & -> & Ha).
    rewrite Ha in Hfy. injection Hfy as <-.
    eexists _, _. split; [exact Hy|]. split; [apply lookup_insert_eq|].
    unfold annotated_properties, feature_name, status_tag.
    repeat split.
    + rewrite !lookup_insert_ne by discriminate. rewrite lookup_insert_eq.
      destruct isIllegal; reflexivity.
    + rewrite !lookup_insert_ne by discriminate. apply lookup_insert_eq.
    + rewrite !lookup_insert_ne by discriminate. apply lookup_insert_eq.
    + rewrite lookup_insert_eq. destruct isIllegal; reflexivity.
Qed.

Lemma annotator_properties_witness :
  exists fs' : list value,
    addDataToFeatures Sample.analysis (VObj (Sample.collection [Sample.pit_a; Sample.pit_b])) true
    = Ok (VObj (<["features" := VArr fs']> (Sample.collection [Sample.pit_a; Sample.pit_b]))) /\
    length fs' = 2%nat /\
    forall i, (i < 2)%nat ->
      exists f' p' : gmap string value,
        fs' !! i = Some (VObj f') /\
        f' !! "properties" = Some (VObj p') /\
        p' !! "status" = Some (VStr "illegal") /\
        p' !! "depth" = Some (expected_depth true [Sample.operation_a] i) /\
        p' !! "volume" = Some (expected_volume true [Sample.operation_a] i) /\
        p' !! "name" = Some (VStr ("Illegal Pit #" +:+ decimal (i + 1))).
Proof.
  apply (annotator_properties Sample.analysis
           (Sample.collection [Sample.pit_a; Sample.pit_b])
           [Sample.pit_a; Sample.pit_b] [Sample.operation_a] true).
  - reflexivity.
  - repeat constructor; eexists; reflexivity.
  - intros _. split; [reflexivity|]. repeat constructor. eexists; reflexivity.
Defined.


Lemma disjoint_ids (b : bool) (l : list string) (id : string) :
  (l = [] \/ l = ids_for (negb b)) -> id ∈ l -> id ∉ ids_for b.
Proof.
  intros [-> | ->] Hin Hbad; [apply elem_of_nil in Hin; contradiction|].
  destruct b; unfold ids_for in *; simpl in *;
    split_elem Hin; split_elem Hbad; discriminate.
Qed.

Lemma lacks_features_null data fc isIllegal :
  lacks_features fc -> addDataToFeatures data fc isIllegal = Ok VNull.
Proof.
  intros [Hfc | (v & Hv & Hfalse)]; unfold addDataToFeatures.
  - rewrite Hfc. reflexivity.
  - destruct (truthy fc); [|reflexivity]. simpl.
    rewrite Hv. simpl. rewrite Hfalse. reflexivity.
Qed.

(** C2, as the code has it.  A collection that is absent (null,
    undefined, or otherwise falsy) or whose [features] member is absent
    (or falsy) is annotated to [null], and the renderer then registers
    exactly what the other collection gives: no source and no layer of
    the lacking collection. *)
Theorem lacking_collection_not_registered (data gd fc : value) (isIllegal : bool) :
  truthy data = true ->
  get_prop data "geospatial_data" = Ok gd ->
  truthy gd = true ->
  get_prop gd (collection_key isIllegal) = Ok fc ->
  lacks_features fc ->
  addDataToFeatures data fc isIllegal = Ok VNull /\
  (forall other annotated,
     get_prop gd (collection_key (negb isIllegal)) = Ok other ->
     addDataToFeatures data other (negb isIllegal) = Ok annotated ->
     MiningPitVisualizer data =
     Ok (if truthy annotated then [source_for (negb isIllegal) annotated] else [])) /\
  (forall sources id,
     MiningPitVisualizer data = Ok sources ->
     id ∈ registered_ids sources -> id ∉ ids_for isIllegal).
Proof.
  intros Hdata Hgd Htgd Hfc Hlack.
  pose proof (lacks_features_null data fc isIllegal Hlack) as Hnull.
  split; [exact Hnull|].
  unfold MiningPitVisualizer. rewrite Hdata. simpl. rewrite Hgd. simpl. rewrite Htgd. simpl.
  destruct isIllegal; simpl in *; split.
  - intros other annotated Ho Ha.
    repeat (first [rewrite Ho | rewrite Hfc | rewrite Ha | rewrite Hnull]; simpl).
    reflexivity.
  - intros sources id.
    destruct (get_prop gd "legal_polygons") as [lp|e]; simpl; [|discriminate].
    rewrite Hfc. simpl. rewrite Hnull. simpl.
    destruct (addDataToFeatures data lp false) as [a|e]; simpl; [|discriminate].
    intros [= <-]. destruct (truthy a); simpl; apply disjoint_ids;
      ((left; reflexivity) || (right; reflexivity)).
  - intros other annotated Ho Ha.
    repeat (first [rewrite Ho | rewrite Hfc | rewrite Ha | rewrite Hnull]; simpl).
    destruct (truthy annotated); reflexivity.
  - intros sources id. rewrite Hfc. simpl.
    destruct (get_prop gd "illegal_polygons") as [ip|e]; simpl; [|discriminate].
    destruct (addDataToFeatures data ip true) as [a|e]; simpl; [|discriminate].
    rewrite Hnull. simpl.
    intros [= <-]. destruct (truthy a); simpl; apply disjoint_ids;
      ((left; reflexivity) || (right; reflexivity)).
Qed.

Lemma lacking_collection_not_registered_witness :
  addDataToFeatures Sample.legal_only_analysis VUndef true = Ok VNull /\
  (forall other annotated,
     get_prop (VObj (<["legal_polygons" := VObj (Sample.collection [Sample.lease])]> ∅))
              "legal_polygons" = Ok other ->
     addDataToFeatures Sample.legal_only_analysis other false = Ok annotated ->
     MiningPitVisualizer Sample.legal_only_analysis =
     Ok (if truthy annotated then [source_for false annotated] else [])) /\
  (forall sources id,
     MiningPitVisualizer Sample.legal_only_analysis = Ok sources ->
     id ∈ registered_ids sources -> id ∉ ids_for true).
Proof.
  apply (lacking_collection_not_registered Sample.legal_only_analysis
           (VObj (<["legal_polygons" := VObj (Sample.collection [Sample.lease])]> ∅))
           VUndef true).
  - reflexivity.
  - reflexivity.
  - reflexivity.
  - reflexivity.
  - left. reflexivity.
Defined.

(** C2 as stated fails for a collection whose [features] array is
    empty: an empty array is truthy, so the annotator returns a
    collection (not [null]) and the renderer registers the source and
    both layers of each such collection. *)
Lemma empty_collection_is_registered :
  addDataToFeatures Sample.empty_analysis (VObj (Sample.collection [])) true
    = Ok (VObj (Sample.collection [])) /\
  addDataToFeatures Sample.empty_analysis (VObj (Sample.collection [])) true <> Ok VNull /\
  (exists sources,
     MiningPitVisualizer Sample.empty_analysis = Ok sources /\
     registered_ids sources =
       ["illegal-pits"; "illegal-pits-3d"; "illegal-pits-2d";
        "legal-pits"; "legal-pits-3d"; "legal-pits-2d"]).
Proof.
  split; [reflexivity|]. split; [discriminate|].
  eexists. split; reflexivity.
Qed.

End Annotator.

(** ** The upload / analysis client *)

Section Client.
Import JS App Spec.

Lemma reduce_app (cs cs' : list call) (s : state) :
  reduce (cs ++ cs') s = (s1 ← reduce cs s; reduce cs' s1).
Proof.
  revert s. induction cs as [|c cs IH]; intros s; simpl; [reflexivity|].
  destruct (apply c s) as [s1|e]; simpl; [apply IH|reflexivity].
Qed.

(** What the [catch] and [finally] blocks add to a failed [try] block. *)
Lemma resume_calls_failed (o : fetch_outcome) (cs : list call) (e : exn) :
  after_fetch o = (cs, Throw e) ->
  handleAnalysis_resume o =
  (cs ++ [SetError (Some (exn_message e)); ConsoleError "Analysis failed:" e;
          SetIsLoading false], Ok tt).
Proof.
  intros H. unfold handleAnalysis_resume, try_catch_finally. rewrite H. simpl.
  rewrite <- app_assoc. reflexivity.
Qed.

Lemma resume_calls_done (o : fetch_outcome) (cs : list call) :
  after_fetch o = (cs, Ok tt) ->
  handleAnalysis_resume o = (cs ++ [SetIsLoading false], Ok tt).
Proof.
  intros H. unfold handleAnalysis_resume, try_catch_finally. rewrite H. reflexivity.
Qed.

(** A response that is not ok makes the [try] block throw before any
    setter is called. *)
Lemma after_fetch_not_ok (status : nat) (b : body) :
  ok status = false ->
  after_fetch (Response status b) =
  ([], Throw match b with
             | Unparsable text => Rejection text
             | Json v =>
                 match get_prop v "details" with
                 | Ok d => Error (or_else d (VStr "Backend analysis failed"))
                 | Throw e => e
                 end
             end).
Proof.
  intros Hok. unfold after_fetch. rewrite Hok. simpl.
  destruct b as [text|v]; simpl; [reflexivity|].
  destruct (get_prop v "details") as [d|e]; reflexivity.
Qed.




(** C4, as the code has it.  After an upload whose response is not ok
    the analysis result is unset, the loading flag is cleared, the
    camera is untouched and the error state is set, in every case to
    one message:
      - the parser's own message when the body is not JSON;
      - the engine's message for reading [details] of [null] when the
        body is the JSON value [null];
      - for any other JSON body, the message of [new Error(details)]
        when [details] is truthy, which is exactly [details] when that
        is a (non-empty) string, and the fallback 'Backend analysis
        failed' when [details] is absent or falsy. *)
Theorem failed_response_error (s : state) (f : file) (files : list file)
    (status : nat) (b : body) :
  ok status = false ->
  exists s',
    upload (f :: files) (Response status b) s = Ok s' /\
    analysisResult s' = VNull /\
    isLoading s' = false /\
    viewState s' = viewState s /\
    (forall text, b = Unparsable text -> error s' = Some (Text text)) /\
    (forall v, b = Json v -> Props.nullish v = true ->
       error s' = Some (TypeErrorText (CannotRead v "details"))) /\
    (forall v, b = Json v -> Props.nullish v = false ->
       exists d,
         get_prop v "details" = Ok d /\
         error s' = Some (if truthy d then exn_message (Error d)
                          else Text "Backend analysis failed")) /\
    (forall o d, b = Json (VObj o) -> o !! "details" = Some (VStr d) -> d <> EmptyString ->
       error s' = Some (Text d)) /\
    (forall o, b = Json (VObj o) -> o !! "details" = None ->
       error s' = Some (Text "Backend analysis failed")).
Proof.
  intros Hok.
  pose proof (resume_calls_failed _ _ _ (after_fetch_not_ok status b Hok)) as Hcalls.
  unfold upload, step, handle. rewrite Hcalls. simpl.
  eexists. split; [reflexivity|]. simpl.
  repeat split.
  - intros text ->. reflexivity.
  - intros v -> Hv. destruct v; try discriminate Hv; reflexivity.
  - intros v -> Hv.
    destruct (get_prop v "details") as [d|e] eqn:Hd.
    + exists d. split; [reflexivity|]. unfold or_else.
      destruct (truthy d); reflexivity.
    + destruct v; simpl in Hv, Hd; discriminate.
  - intros o d -> Hd Hne. simpl. rewrite Hd. simpl.
    unfold or_else. simpl.
    destruct (String.eqb_spec d EmptyString); [contradiction|]. reflexivity.
  - intros o -> Hd. simpl. rewrite Hd. reflexivity.
Qed.

Lemma failed_response_error_witness :
  exists s',
    upload ["boundary.zip"] (Response 422 (Json (VObj {["details" := VStr "invalid shapefile"]})))
           initial = Ok s' /\
    analysisResult s' = VNull /\
    error s' = Some (Text "invalid shapefile").
Proof.
  destruct (failed_response_error initial "boundary.zip" [] 422%nat
              (Json (VObj {["details" := VStr "invalid shapefile"]})) eq_refl)
    as (s' & Hrun & Hres & _ & _ & _ & _ & _ & Hdetails & _).
  exists s'. split; [exact Hrun|]. split; [exact Hres|].
  apply (Hdetails {["details" := VStr "invalid shapefile"]} "invalid shapefile");
    [reflexivity|reflexivity|discriminate].
Defined.

(** C4 as stated fails when the error body is not JSON: the error
    state is then the parser's message, not the fallback message.  It
    fails as well when the body is the JSON value [null], which has no
    [details]: the error state is then the engine's message for the
    failed read. *)
Lemma unparsable_error_body_not_generic :
  (exists s',
     upload ["boundary.zip"]
            (Response 502 (Unparsable "Unexpected token < in JSON at position 0"))
            initial = Ok s' /\
     error s' = Some (Text "Unexpected token < in JSON at position 0") /\
     error s' <> Some (Text "Backend analysis failed")) /\
  (exists s',
     upload ["boundary.zip"] (Response 500 (Json VNull)) initial = Ok s' /\
     error s' = Some (TypeErrorText (CannotRead VNull "details")) /\
     error s' <> Some (Text "Backend analysis failed")).
Proof.
  split; eexists; (split; [reflexivity|]); (split; [reflexivity|discriminate]).
Qed.

(** The setter calls of the [try] block: the store of the analysis
    result, if any, possibly followed by one camera update. *)
Lemma after_fetch_calls (o : fetch_outcome) :
  exists r,
    after_fetch o = (option_list (SetAnalysisResult <$> stored_by o), r) \/
    exists g, after_fetch o =
              (option_list (SetAnalysisResult <$> stored_by o) ++ [SetViewState g], r).
Proof.
  destruct o as [text|status b]; [eexists; left; reflexivity|].
  unfold after_fetch, stored_by.
  destruct b as [text|v]; destruct (ok status); simpl;
    try (eexists; left; reflexivity).
  - unfold mbind, prog_bind, eval, do_call.
    repeat match goal with
    | |- context [match ?r with Ok _ => _ | Throw _ => _ end] =>
        destruct r; simpl; try (eexists; left; reflexivity)
    | |- context [match ?l ++ ?l' with [] => _ | _ :: _ => _ end] =>
        destruct (l ++ l'); simpl; try (eexists; left; reflexivity)
    end.
    eexists; right; eexists; reflexivity.
  - destruct (get_prop v "details"); simpl; eexists; left; reflexivity.
Qed.

Lemma reduce_quiet (cs : list call) : forall s s',
  Forall quiet cs -> reduce cs s = Ok s' ->
  analysisResult s' = analysisResult s /\ isLoading s' = isLoading s.
Proof.
  induction cs as [|c cs IH]; intros s s' Hq H; simpl in H.
  - injection H as <-. split; reflexivity.
  - inversion Hq as [|? ? Hc Hcs]; subst.
    destruct (apply c s) as [s1|e] eqn:Hs1; simpl in H; [|discriminate].
    destruct (IH _ _ Hcs H) as [-> ->].
    destruct c; simpl in Hc; try contradiction; simpl in Hs1;
      try (injection Hs1 as <-; split; reflexivity).
    destruct (f (viewState s)); simpl in Hs1; [|discriminate].
    injection Hs1 as <-. split; reflexivity.
Qed.

(** The calls of [handleAnalysis] once the request has settled: the
    store of the result (on success), calls that leave the result and
    the loading flag alone, and at the very end [setIsLoading(false)]. *)
Lemma resume_calls (o : fetch_outcome) :
  exists mid,
    handleAnalysis_resume o =
    (option_list (SetAnalysisResult <$> stored_by o) ++ mid ++ [SetIsLoading false], Ok tt) /\
    Forall quiet mid.
Proof.
  destruct (after_fetch_calls o) as [[[]|e] [H | [g H]]].
  - exists []. rewrite (resume_calls_done _ _ H). split; [reflexivity|constructor].
  - exists [SetViewState g]. rewrite (resume_calls_done _ _ H).
    rewrite <- app_assoc. split; [reflexivity|repeat constructor].
  - exists [SetError (Some (exn_message e)); ConsoleError "Analysis failed:" e].
    rewrite (resume_calls_failed _ _ _ H). split; [reflexivity|repeat constructor].
  - exists [SetViewState g; SetError (Some (exn_message e)); ConsoleError "Analysis failed:" e].
    rewrite (resume_calls_failed _ _ _ H). rewrite <- app_assoc.
    split; [reflexivity|repeat constructor].
Qed.

Lemma settled_state (o : fetch_outcome) (s s' : state) :
  step (RequestSettled o) s = Ok s' ->
  analysisResult s' = default (analysisResult s) (stored_by o) /\ isLoading s' = false.
Proof.
  unfold step, handle.
  destruct (resume_calls o) as (mid & -> & Hq). simpl.
  rewrite reduce_app. intros H.
  destruct (reduce _ s) as [s1|] eqn:H1; simpl in H; [|discriminate].
  rewrite reduce_app in H.
  destruct (reduce mid s1) as [s2|] eqn:H2; simpl in H; [|discriminate].
  injection H as <-. simpl.
  destruct (reduce_quiet _ _ _ Hq H2) as [-> _].
  split; [|reflexivity].
  destruct (stored_by o); simpl in H1; inversion H1; reflexivity.
Qed.

Lemma failed_settles (o : fetch_outcome) (s : state) :
  failed o -> exists s', step (RequestSettled o) s = Ok s'.
Proof.
  intros Hf. unfold step, handle.
  destruct o as [text|status b]; simpl in Hf.
  - eexists. reflexivity.
  - rewrite (resume_calls_failed _ _ _ (after_fetch_not_ok status b Hf)).
    eexists. reflexivity.
Qed.

(** C8.  Whatever the outcome of the request, the last call of the
    upload flow is [setIsLoading(false)], and the loading flag is
    cleared in the state that results; a failed request (network
    failure or a response that is not ok) always leads to such a
    state. *)
Theorem loading_cleared_last (o : fetch_outcome) :
  (exists cs, fst (handleAnalysis_resume o) = cs ++ [SetIsLoading false]) /\
  (forall s s', step (RequestSettled o) s = Ok s' -> isLoading s' = false) /\
  (forall f files s s', upload (f :: files) o s = Ok s' -> isLoading s' = false) /\
  (failed o -> forall f files s, exists s',
     upload (f :: files) o s = Ok s' /\ isLoading s' = false).
Proof.
  split; [|split; [|split]].
  - destruct (resume_calls o) as (mid & -> & _). simpl.
    eexists. rewrite app_assoc. reflexivity.
  - intros s s' H. apply (settled_state _ _ _ H).
  - intros f files s s' H. unfold upload in H. simpl in H.
    apply (settled_state _ _ _ H).
  - intros Hf f files s. unfold upload. simpl.
    match goal with
    | |- context [step (RequestSettled o) ?s1] =>
        destruct (failed_settles o s1 Hf) as [s' Hs']
    end.
    exists s'.
    split; [exact Hs'|]. apply (settled_state _ _ _ Hs').
Qed.

(** C7, as the code has it.  Pressing Analyze with a file selected
    resets the stored analysis result to [null]; a settling request
    stores the parsed body of a successful response and otherwise
    leaves the stored result alone; no other operation (Analyze with
    no file, map move, map click, popup close) modifies it. *)
Theorem analysis_result_frame (ev : event) (s s' : state) :
  step ev s = Ok s' ->
  analysisResult s' =
  match ev with
  | AnalyzeClicked (_ :: _) => VNull
  | RequestSettled o => default (analysisResult s) (stored_by o)
  | AnalyzeClicked [] | MapMoved _ | MapClicked _ | PopupClosed => analysisResult s
  end.
Proof.
  destruct ev as [[|f files]|o|vs|e|]; intros H.
  - injection H as <-. reflexivity.
  - injection H as <-. reflexivity.
  - apply (settled_state _ _ _ H).
  - injection H as <-. reflexivity.
  - unfold step, handle, handleMapClick in H.
    destruct (features e) as [[|feature l]|]; simpl in H;
      try (injection H as <-; reflexivity).
    destruct (get_prop feature "properties"); simpl in H;
      injection H as <-; reflexivity.
  - injection H as <-. reflexivity.
Qed.

Lemma analysis_result_frame_witness :
  exists s',
    step (RequestSettled (Response 200 (Json Sample.analysis))) initial = Ok s' /\
    analysisResult s' = Sample.analysis.
Proof.
  eexists. split; [reflexivity|].
  exact (analysis_result_frame
           (RequestSettled (Response 200 (Json Sample.analysis))) initial _ eq_refl).
Defined.

(** C7 as stated fails: pressing Analyze discards the stored result
    before the request is even sent, and a request that then fails
    leaves it discarded, although no analysis completed. *)
Lemma failed_upload_discards_result :
  analysisResult Sample.loaded = Sample.analysis /\
  exists s1 s2,
    step (AnalyzeClicked ["boundary.zip"]) Sample.loaded = Ok s1 /\
    analysisResult s1 = VNull /\
    step (RequestSettled (NetworkFailure "Failed to fetch")) s1 = Ok s2 /\
    analysisResult s2 = VNull /\
    analysisResult s2 <> analysisResult Sample.loaded.
Proof.
  split; [reflexivity|]. do 2 eexists.
  split; [reflexivity|]. split; [reflexivity|].
  split; [reflexivity|]. split; [reflexivity|]. discriminate.
Qed.

End Client.

(** ** The view-state controller *)

Section Controller.
Import MapPage Spec.
Local Open Scope Q_scope.

(** In 3D mode [setViewMode] does apply the preset of the requested
    mode (so that [preset_applied] is the property that the 2D case
    lacks). *)
Lemma setViewMode_in_3D (mode : view_mode) (s : state) :
  is3DEnabled s = true ->
  currentViewMode (setViewMode mode s) = mode /\
  preset_applied (presets mode) (viewState (setViewMode mode s)).
Proof.
  intros H. unfold setViewMode. rewrite H. simpl.
  split; [reflexivity|]. unfold preset_applied. simpl.
  repeat split; try reflexivity. eexists; split; reflexivity.
Qed.

(** C5.  Called in 2D mode, [setViewMode] does what the 2D/3D toggle
    does and nothing else: 3D is enabled, the outcome does not depend
    on the requested mode, the camera takes the toggle's values (pitch
    45, bearing -30, zoom 11.2, 1500 ms) and the preset of the
    requested mode is not applied. *)
Theorem setViewMode_in_2D (mode : view_mode) (s : state) :
  is3DEnabled s = false ->
  is3DEnabled (setViewMode mode s) = true /\
  setViewMode mode s = toggle3DMode s /\
  (forall mode', setViewMode mode' s = setViewMode mode s) /\
  currentViewMode (setViewMode mode s) = Perspective /\
  pitch (viewState (setViewMode mode s)) = 45 /\
  bearing (viewState (setViewMode mode s)) = -30 /\
  zoom (viewState (setViewMode mode s)) = 11.2 /\
  transitionDuration (viewState (setViewMode mode s)) = Some 1500 /\
  ~ preset_applied (presets mode) (viewState (setViewMode mode s)).
Proof.
  intros H. unfold setViewMode, toggle3DMode. rewrite H. simpl.
  repeat split; try reflexivity.
  intros (Hp & _). simpl in Hp. destruct mode; discriminate Hp.
Qed.

Lemma setViewMode_in_2D_witness :
  is3DEnabled (setViewMode Perspective Sample.flat) = true /\
  setViewMode Perspective Sample.flat = toggle3DMode Sample.flat /\
  (forall mode', setViewMode mode' Sample.flat = setViewMode Perspective Sample.flat) /\
  currentViewMode (setViewMode Perspective Sample.flat) = Perspective /\
  pitch (viewState (setViewMode Perspective Sample.flat)) = 45 /\
  bearing (viewState (setViewMode Perspective Sample.flat)) = -30 /\
  zoom (viewState (setViewMode Perspective Sample.flat)) = 11.2 /\
  transitionDuration (viewState (setViewMode Perspective Sample.flat)) = Some 1500 /\
  ~ preset_applied (presets Perspective) (viewState (setViewMode Perspective Sample.flat)).
Proof.
  apply (setViewMode_in_2D Perspective Sample.flat). reflexivity.
Defined.

(** C6, as the code has it.  From 3D mode the toggle leads to 2D with
    the view mode 'top-down'; the next toggle leads back to 3D and
    itself sets the view mode to 'perspective', with the camera at
    pitch 45, bearing -30 and zoom 11.2. *)
Theorem toggle_round_trip (s : state) :
  is3DEnabled s = true ->
  is3DEnabled (toggle3DMode s) = false /\
  currentViewMode (toggle3DMode s) = TopDown /\
  is3DEnabled (toggle3DMode (toggle3DMode s)) = true /\
  currentViewMode (toggle3DMode (toggle3DMode s)) = Perspective /\
  pitch (viewState (toggle3DMode (toggle3DMode s))) = 45 /\
  bearing (viewState (toggle3DMode (toggle3DMode s))) = -30 /\
  zoom (viewState (toggle3DMode (toggle3DMode s))) = 11.2.
Proof.
  intros H. unfold toggle3DMode. simpl. rewrite H. simpl. repeat split; reflexivity.
Qed.

Lemma toggle_round_trip_witness :
  is3DEnabled (toggle3DMode initial) = false /\
  currentViewMode (toggle3DMode initial) = TopDown /\
  is3DEnabled (toggle3DMode (toggle3DMode initial)) = true /\
  currentViewMode (toggle3DMode (toggle3DMode initial)) = Perspective /\
  pitch (viewState (toggle3DMode (toggle3DMode initial))) = 45 /\
  bearing (viewState (toggle3DMode (toggle3DMode initial))) = -30 /\
  zoom (viewState (toggle3DMode (toggle3DMode initial))) = 11.2.
Proof.
  apply (toggle_round_trip initial). reflexivity.
Defined.

(** C6 as stated fails: the toggle back to 3D does not leave the view
    mode as the toggle to 2D set it, it writes 'perspective'. *)
Lemma toggle_back_sets_perspective :
  is3DEnabled initial = true /\
  currentViewMode (toggle3DMode initial) = TopDown /\
  currentViewMode (toggle3DMode (toggle3DMode initial)) = Perspective /\
  currentViewMode (toggle3DMode (toggle3DMode initial))
    <> currentViewMode (toggle3DMode initial).
Proof.
  repeat split; try reflexivity. discriminate.
Qed.

Lemma nudge_easing_is_toggle_easing (t : Q) : ease NudgeEasing t == ease ToggleEasing t.
Proof. unfold ease. simpl. ring. Qed.

Lemma nudge_easing_ease_out : ease_out_only (ease NudgeEasing).
Proof. intros t H0 H1. unfold ease. nra. Qed.




End Controller.

(** ** The annotator at the level of references *)

Section References.
Import Store Spec.

Lemma bind_run {A B} (m : M A) (k : A -> M B) (h h1 : heap) (a : A) :
  m h = (h1, Some a) -> (m ≫= k) h = k a h1.
Proof. intros H. unfold mbind, M_bind. rewrite H. reflexivity. Qed.

Lemma alloc_run (o : object) (h : heap) :
  exists l, alloc o h = (<[l := o]> h, Some (VRef l)) /\ h !! l = None.
Proof.
  exists (fresh (dom h)). split; [reflexivity|].
  apply not_elem_of_dom. apply is_fresh.
Qed.

Lemma alloc_grows (o : object) (h : heap) (l : loc) :
  h !! l = None -> h ⊆ <[l := o]> h.
Proof. intros H. apply insert_subseteq. exact H. Qed.

Lemma lookup_grows (h h' : heap) (l : loc) (o : object) :
  h ⊆ h' -> h !! l = Some o -> h' !! l = Some o.
Proof. intros Hsub H. eapply lookup_weaken; eassumption. Qed.

Lemma fresh_shrinks (h h' : heap) (l : loc) :
  h ⊆ h' -> h' !! l = None -> h !! l = None.
Proof.
  intros Hsub H. destruct (h !! l) as [o|] eqn:Ho; [|reflexivity].
  rewrite (lookup_grows _ _ _ _ Hsub Ho) in H. discriminate.
Qed.

(** Reads through bound values succeed, see the same object in every
    larger store, and in a closed store yield bound values. *)
Lemma read_prop_bound (h0 h : heap) (v : value) (key : string) :
  closed h0 -> h0 ⊆ h -> bound h0 v -> v <> VUndef -> v <> VNull ->
  exists w, read_prop v key h = Some w /\ bound h0 w.
Proof.
  intros Hc Hsub Hb Hu Hn. destruct v; try contradiction; simpl;
    try (eexists; split; [reflexivity|]; try destruct (String.eqb _ _); exact I).
  destruct Hb as [o Ho]. rewrite (lookup_grows _ _ _ _ Hsub Ho).
  destruct o as [props|elems].
  - eexists; split; [reflexivity|].
    destruct (props !! key) as [w|] eqn:Hw; simpl; [|exact I].
    exact (Hc _ _ Ho _ _ Hw).
  - eexists; split; [reflexivity|]. destruct (String.eqb _ _); exact I.
Qed.

Lemma read_index_bound (h0 h : heap) (v : value) (i : nat) :
  closed h0 -> h0 ⊆ h -> bound h0 v -> v <> VUndef -> v <> VNull ->
  exists w, read_index v i h = Some w /\ bound h0 w.
Proof.
  intros Hc Hsub Hb Hu Hn. destruct v; try contradiction; simpl;
    try (eexists; split; [reflexivity|]; try destruct (String.get _ _); exact I).
  destruct Hb as [o Ho]. rewrite (lookup_grows _ _ _ _ Hsub Ho).
  destruct o as [props|elems].
  - eexists; split; [reflexivity|].
    destruct (props !! JS.decimal i) as [w|] eqn:Hw; simpl; [|exact I].
    exact (Hc _ _ Ho _ _ Hw).
  - eexists; split; [reflexivity|].
    destruct (elems !! i) as [w|] eqn:Hw; simpl; [|exact I].
    pose proof (Hc _ _ Ho) as Hall. simpl in Hall.
    eapply Forall_forall; [exact Hall|]. eapply list_elem_of_lookup_2; exact Hw.
Qed.

Lemma read_props_bound (h0 h : heap) (v : value) :
  h0 ⊆ h -> bound h0 v ->
  exists old, read_props v h0 = Some old /\ read_props v h = Some old.
Proof.
  intros Hsub Hb. destruct v; simpl; try (eexists; split; reflexivity).
  destruct Hb as [o Ho]. rewrite Ho, (lookup_grows _ _ _ _ Hsub Ho).
  destruct o; eexists; split; reflexivity.
Qed.

Lemma truthy_not_nullish (v : value) : truthy v = true -> v <> VUndef /\ v <> VNull.
Proof. destruct v; simpl; intros H; split; congruence. Qed.

(** *** No write to an existing object, on any input *)

Lemma grows_ret {A} (a : A) : grows (mret a : M A).
Proof. intros h. reflexivity. Qed.

Lemma grows_read {A} (f : heap -> option A) : grows (read f).
Proof. intros h. reflexivity. Qed.

Lemma grows_alloc (o : object) : grows (alloc o).
Proof.
  intros h. destruct (alloc_run o h) as (l & -> & Hl). apply alloc_grows. exact Hl.
Qed.

Lemma grows_bind {A B} (m : M A) (k : A -> M B) :
  grows m -> (forall a, grows (k a)) -> grows (m ≫= k).
Proof.
  intros Hm Hk h. specialize (Hm h). unfold mbind, M_bind.
  destruct (m h) as [h1 [a|]]; simpl in *; [|exact Hm].
  etrans; [exact Hm|apply Hk].
Qed.

Lemma grows_if {A} (b : bool) (m1 m2 : M A) :
  grows m1 -> grows m2 -> grows (if b then m1 else m2).
Proof. destruct b; auto. Qed.

Lemma grows_map_from {A B} (f : A -> nat -> M B) (l : list A) :
  (forall x i, grows (f x i)) -> forall i, grows (map_from f i l).
Proof.
  intros Hf. induction l as [|x l IH]; intros i; simpl.
  - apply grows_ret.
  - apply grows_bind; [apply Hf|]. intros y.
    apply grows_bind; [apply IH|]. intros ys. apply grows_ret.
Qed.

Create HintDb grows.
#[local] Hint Resolve grows_ret grows_read grows_alloc grows_if : grows.

Lemma annotate_grows data isIllegal feature index :
  grows (annotate data isIllegal feature index).
Proof.
  unfold annotate, operations, get_prop, get_index, own_props.
  repeat (apply grows_bind; [|intros ?]); auto with grows.
  apply grows_if; [|auto with grows].
  repeat (apply grows_bind; [|intros ?]); auto with grows.
Qed.

Lemma addDataToFeatures_grows data featureCollection isIllegal :
  grows (addDataToFeatures data featureCollection isIllegal).
Proof.
  unfold addDataToFeatures, array_map, get_prop, own_props, elements.
  apply grows_if; [auto with grows|].
  apply grows_bind; [auto with grows|]. intros features.
  apply grows_if; [auto with grows|].
  repeat (apply grows_bind; [|intros ?]); auto with grows.
  apply grows_map_from. intros x i. apply annotate_grows.
Qed.

(** *** The annotated copies *)

(** The operation record paired with a feature. *)
Lemma operation_run (h0 h : heap) (data : value) (isIllegal : bool) (i : nat) :
  closed h0 -> h0 ⊆ h ->
  (isIllegal = true -> bound h0 data /\ data <> VUndef /\ data <> VNull) ->
  exists h1 op,
    (if isIllegal then ops ← operations data; get_index ops i else mret VNull) h
      = (h1, Some op) /\
    h ⊆ h1 /\ bound h0 op.
Proof.
  intros Hc Hsub Hdata. destruct isIllegal.
  - destruct (Hdata eq_refl) as (Hb & Hu & Hn).
    destruct (read_prop_bound h0 h data "illegal_operations" Hc Hsub Hb Hu Hn)
      as (ops & Hops & Hbops).
    unfold operations, get_prop, get_index, read, mbind, M_bind. rewrite Hops.
    destruct (truthy ops) eqn:Ht.
    + destruct (truthy_not_nullish _ Ht) as [Hu' Hn'].
      destruct (read_index_bound h0 h ops i Hc Hsub Hbops Hu' Hn') as (op & Hop & Hbop).
      exists h, op. unfold mret, M_ret. rewrite Hop.
      split; [reflexivity|]. split; [reflexivity|exact Hbop].
    + destruct (alloc_run (Arr []) h) as (l & -> & Hl).
      eexists _, VUndef. simpl. rewrite lookup_insert_eq. simpl.
      split; [reflexivity|]. split; [apply alloc_grows; exact Hl|exact I].
  - exists h, VNull. split; [reflexivity|]. split; [reflexivity|exact I].
Qed.

(** A member of a record that was paired with a feature. *)
Lemma member_run (h0 h : heap) (op : value) (key : string) (fallback : value) :
  closed h0 -> h0 ⊆ h -> bound h0 op ->
  exists w,
    (if truthy op then get_prop op key else mret fallback) h = (h, Some w).
Proof.
  intros Hc Hsub Hb. destruct (truthy op) eqn:Ht.
  - destruct (truthy_not_nullish _ Ht) as [Hu Hn].
    destruct (read_prop_bound h0 h op key Hc Hsub Hb Hu Hn) as (w & Hw & _).
    exists w. unfold get_prop, read. rewrite Hw. reflexivity.
  - exists fallback. reflexivity.
Qed.

Lemma annotate_feature (h0 h : heap) (data : value) (isIllegal : bool)
    (lf : loc) (feature : gmap string value) (i : nat) :
  closed h0 -> h0 ⊆ h ->
  (isIllegal = true -> bound h0 data /\ data <> VUndef /\ data <> VNull) ->
  h0 !! lf = Some (Obj feature) ->
  exists h' v',
    annotate data isIllegal (VRef lf) i h = (h', Some v') /\
    h ⊆ h' /\
    annotated_copy h0 h' isIllegal i feature v'.
Proof.
  intros Hc Hsub Hdata Hlf.
  destruct (operation_run h0 h data isIllegal i Hc Hsub Hdata) as (h1 & op & Hop & Hsub1 & Hbop).
  assert (Hsub01 : h0 ⊆ h1) by (etrans; eassumption).
  pose proof (lookup_grows _ _ _ _ Hsub01 Hlf) as Hlf1.
  assert (Hbp : bound h0 (default VUndef (feature !! "properties"))).
  { destruct (feature !! "properties") as [pv|] eqn:Hpv; simpl; [|exact I].
    exact (Hc _ _ Hlf _ _ Hpv). }
  destruct (read_props_bound h0 h1 _ Hsub01 Hbp) as (old & Hold0 & Hold1).
  destruct (member_run h0 h1 op "avg_depth_m" (VNum 50) Hc Hsub01 Hbop) as (depth & Hdepth).
  destruct (member_run h0 h1 op "volume_m3" (VStr "N/A") Hc Hsub01 Hbop) as (volume & Hvolume).
  unfold annotate.
  rewrite (bind_run _ _ _ _ _ Hop).
  unfold own_props at 1, get_prop at 1, own_props at 1, read, mbind at 1 2 3, M_bind.
  simpl. rewrite Hlf1. simpl. rewrite Hold1.
  rewrite (bind_run _ _ _ _ _ Hdepth).
  rewrite (bind_run _ _ _ _ _ Hvolume).
  match goal with
  | |- context [alloc ?o] => destruct (alloc_run o h1) as (lp' & Hp' & Hfreshp)
  end.
  rewrite (bind_run _ _ _ _ _ Hp').
  match goal with
  | |- context [alloc ?o ?hh] => destruct (alloc_run o hh) as (lf' & Hf' & Hfreshf)
  end.
  rewrite Hf'.
  assert (Hne : lf' <> lp').
  { intros ->. rewrite lookup_insert_eq in Hfreshf. discriminate. }
  assert (Hfreshf1 : h1 !! lf' = None).
  { rewrite lookup_insert_ne in Hfreshf by congruence. exact Hfreshf. }
  assert (Hsub' : h1 ⊆ <[lf' := Obj (<["properties" := VRef lp']> feature)]>
                        (<[lp' := Obj (<["name" := VStr (Visualizer.feature_name isIllegal i)]>
                                      (<["volume" := volume]>
                                      (<["depth" := depth]>
                                      (<["status" := VStr (Visualizer.status_tag isIllegal)]>
                                       old))))]> h1)).
  { etrans; [|apply alloc_grows; exact Hfreshf]. apply alloc_grows. exact Hfreshp. }
  eexists _, _. split; [reflexivity|]. split; [etrans; eassumption|].
  assert (Hkeep : forall k, k ∉ annotation_keys ->
            (<["name" := VStr (Visualizer.feature_name isIllegal i)]>
             (<["volume" := volume]>
             (<["depth" := depth]>
             (<["status" := VStr (Visualizer.status_tag isIllegal)]> old)))) !! k = old !! k).
  { intros k Hk. unfold annotation_keys in Hk.
    rewrite !lookup_insert_ne; [reflexivity|..]; intros <-; apply Hk;
      repeat ((left; fail) || right); try left. }
  exists lf', lp'. eexists. exists old. split; [reflexivity|].
  split; [exact (fresh_shrinks _ _ _ Hsub01 Hfreshf1)|].
  split; [apply lookup_insert_eq|].
  split; [exact (fresh_shrinks _ _ _ Hsub01 Hfreshp)|].
  split; [rewrite lookup_insert_ne by exact Hne; apply lookup_insert_eq|].
  split; [exact Hold0|]. split; [exact Hkeep|].
  split; [rewrite !lookup_insert_ne by discriminate; apply lookup_insert_eq|].
  split; [apply lookup_insert_eq|].
  split; rewrite !lookup_insert_ne by discriminate; rewrite lookup_insert_eq;
    eexists; reflexivity.
Qed.

Lemma annotated_copy_grows (h0 h1 h2 : heap) (isIllegal : bool) (i : nat)
    (feature : gmap string value) (v : value) :
  annotated_copy h0 h1 isIllegal i feature v -> h1 ⊆ h2 ->
  annotated_copy h0 h2 isIllegal i feature v.
Proof.
  intros (lf' & lp' & p' & old & Hv & Hf0 & Hf1 & Hp0 & Hp1 & Hrest) Hsub.
  exists lf', lp', p', old.
  split; [exact Hv|]. split; [exact Hf0|].
  split; [eapply lookup_grows; eassumption|]. split; [exact Hp0|].
  split; [eapply lookup_grows; eassumption|]. exact Hrest.
Qed.

Lemma map_annotate (h0 : heap) (data : value) (isIllegal : bool) :
  closed h0 ->
  (isIllegal = true -> bound h0 data /\ data <> VUndef /\ data <> VNull) ->
  forall (l : list value) (i : nat) (h : heap),
    h0 ⊆ h -> Forall (is_feature h0) l ->
    exists h' l',
      map_from (annotate data isIllegal) i l h = (h', Some l') /\
      h ⊆ h' /\
      length l' = length l /\
      forall k lf feature,
        l !! k = Some (VRef lf) -> h0 !! lf = Some (Obj feature) ->
        exists v', l' !! k = Some v' /\ annotated_copy h0 h' isIllegal (i + k) feature v'.
Proof.
  intros Hc Hdata. induction l as [|x l IH]; intros i h Hsub Hall.
  - exists h, []. split; [reflexivity|]. split; [reflexivity|]. split; [reflexivity|].
    intros k lf feature Hk. discriminate.
  - inversion Hall as [|? ? Hx Hl]; subst.
    destruct Hx as (lf0 & feature0 & -> & Hlf0).
    destruct (annotate_feature h0 h data isIllegal lf0 feature0 i Hc Hsub Hdata Hlf0)
      as (h1 & v1 & Hrun1 & Hsub1 & Hcopy1).
    assert (Hsub01 : h0 ⊆ h1) by (etrans; eassumption).
    destruct (IH (S i) h1 Hsub01 Hl) as (h' & l' & Hrun & Hsub' & Hlen & Hel).
    exists h', (v1 :: l'). simpl.
    rewrite (bind_run _ _ _ _ _ Hrun1). rewrite (bind_run _ _ _ _ _ Hrun).
    split; [reflexivity|]. split; [etrans; eassumption|]. split; [simpl; congruence|].
    intros [|k] lf feature Hk Hlf; simpl in Hk.
    + injection Hk as <-. rewrite Hlf0 in Hlf. injection Hlf as <-.
      exists v1. split; [reflexivity|]. rewrite Nat.add_0_r.
      eapply annotated_copy_grows; eassumption.
    + rewrite Nat.add_succ_r. exact (Hel k lf feature Hk Hlf).
Qed.

(** The sample store, annotated: four new objects (10 to 13) and the
    old ones untouched; the new feature (11) shares the geometry (4)
    of the old one (3). *)
Example annotated_sample_store :
  exists h',
    addDataToFeatures (VRef 7%positive) (VRef 1%positive) true Sample.store
      = (h', Some (VRef 13%positive)) /\
    h' !! 13%positive = Some (Obj (<["type" := VStr "FeatureCollection"]>
                                   (<["features" := VRef 12%positive]> ∅))) /\
    h' !! 12%positive = Some (Arr [VRef 11%positive]) /\
    h' !! 11%positive = Some (Obj (<["type" := VStr "Feature"]>
                                   (<["geometry" := VRef 4%positive]>
                                   (<["properties" := VRef 10%positive]> ∅)))) /\
    h' !! 10%positive = Some (Obj (<["id" := VNum 7]>
                                   (<["name" := VStr "Illegal Pit #1"]>
                                   (<["status" := VStr "illegal"]>
                                   (<["depth" := VNum 12.5]>
                                   (<["volume" := VNum 3400]> ∅)))))) /\
    h' !! 3%positive = Sample.store !! 3%positive /\
    h' !! 5%positive = Sample.store !! 5%positive.
Proof. eexists. repeat split; vm_compute; reflexivity. Qed.


Lemma sample_store_closed : closed Sample.store.
Proof.
  intros l o H. apply elem_of_list_to_map_2 in H.
  unfold Sample.store_objects in H. split_elem H; injection H as -> ->.
  all: try (intros k v Hk;
            apply lookup_insert_Some in Hk as [[<- <-]|[_ Hk]];
            [try exact I; eexists; reflexivity|];
            try (apply lookup_insert_Some in Hk as [[<- <-]|[_ Hk]];
                 [try exact I; eexists; reflexivity|]);
            try (apply lookup_insert_Some in Hk as [[<- <-]|[_ Hk]];
                 [try exact I; eexists; reflexivity|]);
            rewrite lookup_empty in Hk; discriminate).
  all: repeat constructor; eexists; reflexivity.
Qed.


End References.

(** * Verification of the rest of the code *)

(** ** The annotator on arbitrary input *)

Section AnnotatorEdges.
Import JS Visualizer Spec Props.

Lemma get_prop_truthy (v : value) (key : string) :
  truthy v = true -> exists w, get_prop v key = Ok w.
Proof. destruct v; simpl; intros H; try discriminate; eexists; reflexivity. Qed.

Lemma get_prop_not_nullish (v : value) (key : string) :
  nullish v = false -> exists w, get_prop v key = Ok w.
Proof. destruct v; simpl; intros H; try discriminate; eexists; reflexivity. Qed.

Lemma get_index_not_nullish (v : value) (i : nat) :
  nullish v = false -> exists w, get_index v i = Ok w.
Proof. destruct v; simpl; intros H; try discriminate; eexists; reflexivity. Qed.

Lemma get_prop_nullish (v : value) (key : string) :
  nullish v = true -> get_prop v key = Throw (TypeError (CannotRead v key)).
Proof. destruct v; simpl; intros H; try discriminate; reflexivity. Qed.

Lemma truthy_or_else (a b : value) : truthy b = true -> truthy (or_else a b) = true.
Proof. intros Hb. unfold or_else. destruct (truthy a) eqn:Ha; assumption. Qed.

Lemma truthy_nullish (v : value) : truthy v = true -> nullish v = false.
Proof. destruct v; simpl; intros H; try discriminate; reflexivity. Qed.

(** The operation paired with a feature can always be read once the
    analysis itself is not null or undefined. *)
Lemma operation_readable (data : value) (isIllegal : bool) (index : nat) :
  nullish data = false ->
  exists op, (if isIllegal then ops ← operations data; get_index ops index else Ok VNull)
             = Ok op.
Proof.
  intros Hd. destruct isIllegal; [|eexists; reflexivity].
  unfold operations. destruct (get_prop_not_nullish data "illegal_operations" Hd) as [ops ->].
  simpl. apply get_index_not_nullish. apply truthy_nullish. apply truthy_or_else. reflexivity.
Qed.

Lemma member_readable (op : value) (key : string) (fallback : value) :
  exists w, (if truthy op then get_prop op key else Ok fallback) = Ok w.
Proof.
  destruct (truthy op) eqn:Ht; [apply get_prop_truthy; exact Ht|eexists; reflexivity].
Qed.

(** [annotate] succeeds on every feature that is not null or undefined,
    and throws on the others. *)
Lemma annotate_succeeds (data : value) (isIllegal : bool) (feature : value) (index : nat) :
  nullish data = false -> nullish feature = false ->
  exists y, annotate data isIllegal feature index = Ok y.
Proof.
  intros Hd Hf. unfold annotate.
  destruct (operation_readable data isIllegal index Hd) as [op ->]. simpl.
  destruct (get_prop_not_nullish feature "properties" Hf) as [p ->]. simpl.
  destruct (member_readable op "avg_depth_m" (VNum 50)) as [d ->]. simpl.
  destruct (member_readable op "volume_m3" (VStr "N/A")) as [v ->]. simpl.
  eexists; reflexivity.
Qed.

Lemma annotate_throws (data : value) (isIllegal : bool) (feature : value) (index : nat) :
  nullish data = false -> nullish feature = true ->
  annotate data isIllegal feature index = Throw (TypeError (CannotRead feature "properties")).
Proof.
  intros Hd Hf. unfold annotate.
  destruct (operation_readable data isIllegal index Hd) as [op ->]. simpl.
  rewrite (get_prop_nullish feature "properties" Hf). reflexivity.
Qed.

Lemma map_from_throws {A B} (f : A -> nat -> result B) (l : list A) : forall i,
  (exists e, map_from f i l = Throw e) <->
  (exists k x e, l !! k = Some x /\ f x (i + k) = Throw e).
Proof.
  induction l as [|a l IH]; intros i; simpl.
  - split; [intros [e H]; discriminate|intros (k & x & e & H & _); discriminate].
  - destruct (f a i) as [y|e0] eqn:Hy; simpl.
    + destruct (map_from f (S i) l) as [ys|e1] eqn:Hys; simpl.
      * split; [intros [e H]; discriminate|].
        intros ([|k] & x & e & Hk & Hf); simpl in Hk.
        -- injection Hk as <-. rewrite Nat.add_0_r in Hf. congruence.
        -- assert (Hex : exists e, map_from f (S i) l = Throw e).
           { apply IH. exists k, x, e. rewrite Nat.add_succ_r in Hf. split; assumption. }
           destruct Hex as [e' He']. congruence.
      * split; [|intros _; eexists; reflexivity].
        intros _. destruct (proj1 (IH (S i))) as (k & x & e & Hk & Hf); [eexists; exact Hys|].
        exists (S k), x, e. rewrite Nat.add_succ_r. split; assumption.
    + split; [|intros _; eexists; reflexivity].
      intros _. exists 0%nat, a, e0. rewrite Nat.add_0_r. split; [reflexivity|assumption].
Qed.

(** X1.  With an analysis that is not null or undefined, the annotator
    throws exactly when the collection's [features] is truthy and
    either is not an array (it then has no [map] method) or is an array
    that holds a null or undefined feature; in every other case it
    returns. *)
Theorem annotator_throws_iff (data fc : value) (isIllegal : bool) :
  nullish data = false ->
  ((exists e, addDataToFeatures data fc isIllegal = Throw e) <->
   (truthy fc = true /\
    exists fs, get_prop fc "features" = Ok fs /\ truthy fs = true /\
      match fs with
      | VArr l => exists f, f ∈ l /\ nullish f = true
      | _ => True
      end)) /\
  (forall fs, truthy fc = true -> get_prop fc "features" = Ok fs -> truthy fs = true ->
     (forall l, fs <> VArr l) ->
     addDataToFeatures data fc isIllegal = Throw (TypeError (NotAFunction "map"))).
Proof.
  intros Hd. split.
  - unfold addDataToFeatures. destruct (truthy fc) eqn:Hfc; simpl.
    + destruct (get_prop_truthy fc "features" Hfc) as [fs Hfs]. rewrite Hfs. simpl.
      destruct (truthy fs) eqn:Ht; simpl.
      * destruct fs; simpl in Ht; try discriminate; simpl.
        -- split; [intros _|intros _; eexists; reflexivity].
           split; [reflexivity|]. eexists. split; [reflexivity|]. split; [assumption|exact I].
        -- split; [intros _|intros _; eexists; reflexivity].
           split; [reflexivity|]. eexists. split; [reflexivity|]. split; [assumption|exact I].
        -- split; [intros _|intros _; eexists; reflexivity].
           split; [reflexivity|]. eexists. split; [reflexivity|]. split; [assumption|exact I].
        -- destruct (map_from (annotate data isIllegal) 0 l) as [l'|e] eqn:Hmap; simpl.
           ++ split; [intros [e H]; discriminate|].
              intros (_ & fs' & [= <-] & _ & f & Hin & Hnull).
              apply list_elem_of_lookup in Hin as [k Hk].
              assert (Hex : exists e, map_from (annotate data isIllegal) 0 l = Throw e).
              { apply map_from_throws. exists k, f. eexists. split; [exact Hk|].
                apply annotate_throws; assumption. }
              destruct Hex as [e He]. congruence.
           ++ split; [intros _|intros _; eexists; reflexivity].
              split; [reflexivity|]. eexists. split; [reflexivity|]. split; [reflexivity|].
              destruct (proj1 (map_from_throws (annotate data isIllegal) l 0))
                as (k & x & e' & Hk & Hx); [eexists; exact Hmap|].
              exists x. split; [eapply list_elem_of_lookup_2; exact Hk|].
              destruct (nullish x) eqn:Hn; [reflexivity|].
              destruct (annotate_succeeds data isIllegal x (0 + k) Hd Hn) as [y Hy]. congruence.
        -- split; [intros _|intros _; eexists; reflexivity].
           split; [reflexivity|]. eexists. split; [reflexivity|]. split; [assumption|exact I].
      * split; [intros [e H]; discriminate|].
        intros (_ & fs' & [= <-] & Ht' & _). congruence.
    + split; [intros [e H]; discriminate|intros [H _]; discriminate].
  - intros fs Hfc Hfs Ht Hna. unfold addDataToFeatures. rewrite Hfc. simpl.
    rewrite Hfs. simpl. rewrite Ht. simpl.
    destruct fs; simpl in Ht; try discriminate; try reflexivity.
    exfalso. eapply Hna. reflexivity.
Qed.

Lemma annotator_throws_iff_witness :
  addDataToFeatures Sample.analysis
    (VObj (Sample.collection [Sample.pit_a; VNull])) true
  = Throw (TypeError (CannotRead VNull "properties")) /\
  addDataToFeatures Sample.analysis
    (VObj {["features" := VObj {["0" := Sample.pit_a]}]}) true
  = Throw (TypeError (NotAFunction "map")).
Proof.
  destruct (annotator_throws_iff Sample.analysis
              (VObj {["features" := VObj {["0" := Sample.pit_a]}]}) true eq_refl)
    as [_ H].
  split; [reflexivity|].
  apply (H (VObj {["0" := Sample.pit_a]})); [reflexivity|reflexivity|reflexivity|discriminate].
Defined.

Lemma map_from_fixed {A} (f : A -> nat -> result A) (l : list A) : forall i,
  (forall k y, l !! k = Some y -> f y (i + k) = Ok y) -> map_from f i l = Ok l.
Proof.
  induction l as [|a l IH]; intros i H; simpl; [reflexivity|].
  pose proof (H 0%nat a eq_refl) as Ha. rewrite Nat.add_0_r in Ha. rewrite Ha. simpl.
  rewrite IH; [reflexivity|].
  intros k y Hk. specialize (H (S k) y Hk). rewrite Nat.add_succ_r in H. exact H.
Qed.

(** Writing the four annotations over themselves changes nothing. *)
Lemma annotations_absorb (name volume depth status : value) (old : gmap string value) :
  let p := <["name" := name]> (<["volume" := volume]>
           (<["depth" := depth]> (<["status" := status]> old))) in
  <["name" := name]> (<["volume" := volume]> (<["depth" := depth]> (<["status" := status]> p)))
  = p.
Proof.
  intros p. subst p.
  rewrite (insert_id _ "status" status)
    by (rewrite !lookup_insert_ne by discriminate; apply lookup_insert_eq).
  rewrite (insert_id _ "depth" depth)
    by (rewrite !lookup_insert_ne by discriminate; apply lookup_insert_eq).
  rewrite (insert_id _ "volume" volume)
    by (rewrite !lookup_insert_ne by discriminate; apply lookup_insert_eq).
  apply insert_id. apply lookup_insert_eq.
Qed.

Lemma annotate_fixed (data : value) (isIllegal : bool) (x y : value) (i : nat) :
  annotate data isIllegal x i = Ok y -> annotate data isIllegal y i = Ok y.
Proof.
  unfold annotate.
  destruct (if isIllegal then _ else _) as [op|e]; simpl; [|discriminate].
  destruct (get_prop x "properties") as [p|e]; simpl; [|discriminate].
  destruct (if truthy op then get_prop op "avg_depth_m" else _) as [d|e]; simpl; [|discriminate].
  destruct (if truthy op then get_prop op "volume_m3" else _) as [v|e]; simpl; [|discriminate].
  intros [= <-]. simpl. rewrite lookup_insert_eq. simpl.
  rewrite annotations_absorb. rewrite insert_insert_eq. reflexivity.
Qed.

(** X2.  Annotation is idempotent: annotating the annotator's own
    result again, with the same analysis and the same tag, returns
    that result unchanged. *)
Theorem annotator_idempotent (data fc r : value) (isIllegal : bool) :
  addDataToFeatures data fc isIllegal = Ok r ->
  addDataToFeatures data r isIllegal = Ok r.
Proof.
  unfold addDataToFeatures at 1.
  destruct (truthy fc); simpl; [|intros [= <-]; reflexivity].
  destruct (get_prop fc "features") as [fs|e]; simpl; [|discriminate].
  destruct (truthy fs); simpl; [|intros [= <-]; reflexivity].
  destruct fs; simpl; try discriminate.
  destruct (map_from (annotate data isIllegal) 0 l) as [l'|e] eqn:Hmap; simpl; [|discriminate].
  intros [= <-]. unfold addDataToFeatures. simpl. rewrite lookup_insert_eq. simpl.
  destruct (map_from_elements _ _ _ _ Hmap) as [_ Hel].
  rewrite (map_from_fixed (annotate data isIllegal) l' 0).
  - simpl. rewrite insert_insert_eq. reflexivity.
  - intros k y Hk.
    assert (Hlt : (k < length l)%nat).
    { destruct (map_from_elements _ _ _ _ Hmap) as [Hlen _].
      rewrite <- Hlen. eapply lookup_lt_Some; exact Hk. }
    destruct (lookup_lt_is_Some_2 l k Hlt) as [x Hx].
    destruct (Hel k x Hx) as (y' & Hy' & Hxy).
    rewrite Hk in Hy'. injection Hy' as <-.
    eapply annotate_fixed; exact Hxy.
Qed.

Lemma annotator_idempotent_witness :
  exists r,
    addDataToFeatures Sample.analysis (VObj (Sample.collection [Sample.pit_a; Sample.pit_b])) true
      = Ok r /\
    addDataToFeatures Sample.analysis r true = Ok r.
Proof.
  eexists. split; [reflexivity|].
  apply (annotator_idempotent Sample.analysis
           (VObj (Sample.collection [Sample.pit_a; Sample.pit_b]))).
  reflexivity.
Defined.

Lemma annotate_object_any (data : value) (ops : list value) (fo : gmap string value) (i : nat) :
  operations data = Ok (VArr ops) ->
  annotate data true (VObj fo) i =
  Ok (VObj (<["properties" :=
     VObj (<["name" := VStr (feature_name true i)]>
          (<["volume" := if truthy (default VUndef (ops !! i))
                         then field (default VUndef (ops !! i)) "volume_m3"
                         else VStr "N/A"]>
          (<["depth" := if truthy (default VUndef (ops !! i))
                        then field (default VUndef (ops !! i)) "avg_depth_m"
                        else VNum 50]>
          (<["status" := VStr "illegal"]>
           (own_props (default VUndef (fo !! "properties")))))))]> fo)).
Proof.
  intros Hops. unfold annotate. rewrite Hops. simpl.
  destruct (default VUndef (ops !! i)) as [| |b|q|s|l|r] eqn:Hop; simpl; try reflexivity.
  - destruct b; reflexivity.
  - destruct (Qeq_bool q 0); reflexivity.
  - destruct (String.eqb s EmptyString); reflexivity.
Qed.

(** X3.  What an illegal feature gets from the entry at its index in
    [illegal_operations], whatever that entry is: the defaults 50 and
    "N/A" when the entry is missing or falsy (null, false, 0 or the
    empty string), the entry's two members when it is an object, and
    [undefined] for both when it is any other truthy value. *)
Theorem operation_entry_kinds (data : value) (o : gmap string value)
    (fs ops : list value) (i : nat) :
  o !! "features" = Some (VArr fs) ->
  Forall is_object fs ->
  operations data = Ok (VArr ops) ->
  (i < length fs)%nat ->
  exists (fs' : list value) (f' p' : gmap string value),
    addDataToFeatures data (VObj o) true = Ok (VObj (<["features" := VArr fs']> o)) /\
    fs' !! i = Some (VObj f') /\
    f' !! "properties" = Some (VObj p') /\
    ((ops !! i = None \/ (exists op, ops !! i = Some op /\ truthy op = false)) ->
       p' !! "depth" = Some (VNum 50) /\ p' !! "volume" = Some (VStr "N/A")) /\
    (forall r, ops !! i = Some (VObj r) ->
       p' !! "depth" = Some (default VUndef (r !! "avg_depth_m")) /\
       p' !! "volume" = Some (default VUndef (r !! "volume_m3"))) /\
    (forall op, ops !! i = Some op -> truthy op = true -> ~ is_object op ->
       p' !! "depth" = Some VUndef /\ p' !! "volume" = Some VUndef).
Proof.
  intros Hfs Hobj Hops Hi.
  assert (Hall : forall k x, fs !! k = Some x ->
            exists fo, x = VObj fo /\
              annotate data true x (0 + k) = annotate data true (VObj fo) k).
  { intros k x Hk.
    assert (Hx : is_object x).
    { eapply Forall_forall; [exact Hobj|]. eapply list_elem_of_lookup_2; exact Hk. }
    destruct Hx as [fo ->]. exists fo. split; reflexivity. }
  destruct (map_from_total (annotate data true) fs 0) as [fs' Hmap].
  { intros k x Hk. destruct (Hall k x Hk) as (fo & -> & ->).
    rewrite (annotate_object_any data ops fo k Hops). eexists; reflexivity. }
  destruct (map_from_elements _ _ _ _ Hmap) as [Hlen Hel].
  destruct (lookup_lt_is_Some_2 fs i Hi) as [x Hx].
  destruct (Hel i x Hx) as (y & Hy & Hfy).
  destruct (Hall i x Hx) as (fo & -> & Ha).
  rewrite Ha, (annotate_object_any data ops fo i Hops) in Hfy. injection Hfy as <-.
  exists fs'. eexists _, _. split.
  { unfold addDataToFeatures. simpl. rewrite Hfs. simpl. rewrite Hmap. reflexivity. }
  split; [exact Hy|]. split; [apply lookup_insert_eq|].
  rewrite !(lookup_insert_ne _ "name") by discriminate.
  rewrite (lookup_insert_ne _ "volume" "depth") by discriminate.
  rewrite !lookup_insert_eq.
  split; [|split].
  - intros [Hnone | (op & Hop & Hfalse)].
    + rewrite Hnone. simpl. split; reflexivity.
    + rewrite Hop. simpl. rewrite Hfalse. split; reflexivity.
  - intros r Hr. rewrite Hr. simpl. split; reflexivity.
  - intros op Hop Ht Hno. rewrite Hop. simpl. rewrite Ht.
    destruct op; simpl; try (split; reflexivity).
    exfalso. apply Hno. eexists; reflexivity.
Qed.

Lemma operation_entry_kinds_witness :
  exists (fs' : list value) (f' p' : gmap string value),
    addDataToFeatures (VObj {["illegal_operations" := VArr [VNull; VNum 7] ]})
                      (VObj (Sample.collection [Sample.pit_a; Sample.pit_b])) true
      = Ok (VObj (<["features" := VArr fs']> (Sample.collection [Sample.pit_a; Sample.pit_b]))) /\
    fs' !! 1%nat = Some (VObj f') /\
    f' !! "properties" = Some (VObj p') /\
    p' !! "depth" = Some VUndef /\ p' !! "volume" = Some VUndef.
Proof.
  destruct (operation_entry_kinds (VObj {["illegal_operations" := VArr [VNull; VNum 7] ]})
              (Sample.collection [Sample.pit_a; Sample.pit_b])
              [Sample.pit_a; Sample.pit_b] [VNull; VNum 7] 1%nat)
    as (fs' & f' & p' & Hrun & Hf' & Hp' & _ & _ & Hother).
  - reflexivity.
  - repeat constructor; eexists; reflexivity.
  - reflexivity.
  - simpl. lia.
  - exists fs', f', p'. split; [exact Hrun|]. split; [exact Hf'|]. split; [exact Hp'|].
    apply (Hother (VNum 7)); [reflexivity|reflexivity|].
    intros [r Hr]. discriminate.
Defined.

(** X13.  Whatever the analysis, a render that succeeds registers at
    most the illegal source and then the legal source, each with an
    extrusion layer and a fill layer.  The fill layer of every
    registered source is one of the interactive layers of [App] and the
    extrusion layer is not; none of the identifiers registered is one
    of the interactive layers of [MapPage]. *)
Theorem registered_layers (data : value) (sources : list source) :
  MiningPitVisualizer data = Ok sources ->
  (exists bi bl : bool,
     registered_ids sources
     = (if bi then ids_for true else []) ++ (if bl then ids_for false else [])) /\
  Forall two_layers sources /\
  (forall id, id ∈ registered_ids sources -> id ∉ Page.interactiveLayerIds).
Proof.
  intros H.
  assert (Hshape : exists a b,
            sources = (if truthy a then [illegal_source a] else [])
                      ++ (if truthy b then [legal_source b] else [])).
  { unfold MiningPitVisualizer in H.
    destruct (truthy data); simpl in H; [|injection H as <-; exists VNull, VNull; reflexivity].
    destruct (get_prop data "geospatial_data") as [gd|e]; simpl in H; [|discriminate].
    destruct (truthy gd); simpl in H; [|injection H as <-; exists VNull, VNull; reflexivity].
    destruct (get_prop gd "legal_polygons") as [lp|e]; simpl in H; [|discriminate].
    destruct (get_prop gd "illegal_polygons") as [ip|e]; simpl in H; [|discriminate].
    destruct (addDataToFeatures data ip true) as [a|e]; simpl in H; [|discriminate].
    destruct (addDataToFeatures data lp false) as [b|e]; simpl in H; [|discriminate].
    injection H as <-. exists a, b. reflexivity. }
  destruct Hshape as (a & b & ->).
  assert (Hill : two_layers (illegal_source a)).
  { eexists _, _. split; [reflexivity|]. split; [reflexivity|]. split; [reflexivity|].
    split; [|unfold Session.interactiveLayerIds; simpl; left].
    intros Hbad. unfold Session.interactiveLayerIds in Hbad. simpl in Hbad.
    split_elem Hbad; discriminate. }
  assert (Hleg : two_layers (legal_source b)).
  { eexists _, _. split; [reflexivity|]. split; [reflexivity|]. split; [reflexivity|].
    split; [|unfold Session.interactiveLayerIds; simpl; right; left].
    intros Hbad. unfold Session.interactiveLayerIds in Hbad. simpl in Hbad.
    split_elem Hbad; discriminate. }
  split; [|split].
  - exists (truthy a), (truthy b). destruct (truthy a), (truthy b); reflexivity.
  - destruct (truthy a), (truthy b); simpl; repeat constructor; assumption.
  - intros id Hin Hbad. unfold Page.interactiveLayerIds in Hbad.
    destruct (truthy a), (truthy b); simpl in Hin;
      split_elem Hin; split_elem Hbad; discriminate.
Qed.

Lemma registered_layers_witness :
  exists sources,
    MiningPitVisualizer Sample.analysis = Ok sources /\
    Forall two_layers sources /\
    registered_ids sources =
      ["illegal-pits"; "illegal-pits-3d"; "illegal-pits-2d";
       "legal-pits"; "legal-pits-3d"; "legal-pits-2d"].
Proof.
  eexists. split; [reflexivity|].
  split; [|reflexivity].
  refine (proj1 (proj2 (registered_layers Sample.analysis _ _))).
  reflexivity.
Defined.

End AnnotatorEdges.

(** ** The whole map page *)

Section WholePage.
Import Page Props.
Local Open Scope Q_scope.

(** The handlers of the whole page do to its camera part what the
    handlers of [MapPage] do. *)
Lemma core_toggle3DMode (s : state) :
  core (toggle3DMode s) = MapPage.toggle3DMode (core s).
Proof.
  unfold toggle3DMode, MapPage.toggle3DMode, core. simpl.
  destruct (is3DEnabled s); reflexivity.
Qed.

Lemma core_setViewMode (mode : MapPage.view_mode) (s : state) :
  core (setViewMode mode s) = MapPage.setViewMode mode (core s).
Proof.
  unfold setViewMode, MapPage.setViewMode. simpl.
  destruct (is3DEnabled s) eqn:H; simpl; [reflexivity|].
  rewrite core_toggle3DMode. reflexivity.
Qed.

Lemma core_nudge (n : MapPage.nudge) (s : state) :
  core (setViewState (nudge_updater n) s) = MapPage.press n (core s).
Proof. destruct n; reflexivity. Qed.

Lemma ease_fraction (e : easing) (t : Q) :
  0 <= t -> t <= 1 -> 0 <= ease e t /\ ease e t <= 1.
Proof.
  intros H0 H1. destruct e as [[| |]|]; unfold ease, MapPage.ease; simpl; split; try nra.
  assert (Hsq : 0 <= (1 - t) * (1 - t)) by nra.
  assert (Hcu : 0 <= (1 - t) * ((1 - t) * (1 - t))) by nra.
  nra.
Qed.

Lemma Qle_bool_true (x y : Q) : Qle_bool x y = true -> x <= y.
Proof. apply Qle_bool_iff. Qed.

Lemma fly_keeps_invariant (mine_lng mine_lat : Q) (properties : gmap string JS.value)
    (s : state) :
  page_invariant s -> page_invariant (flyToMine mine_lng mine_lat properties s).
Proof.
  intros (_ & Hflat & _ & Hframes).
  unfold page_invariant, pitch_within_limit, flat_is_top_down, progress_is_fraction,
    flyToMine, maxPitch in *. simpl.
  split; [|split; [exact Hflat|split; [split; discriminate|exact Hframes]]].
  destruct (is3DEnabled s); [destruct (currentViewMode s)|]; split; discriminate.
Qed.

Lemma toggle_keeps_invariant (s : state) :
  page_invariant s -> page_invariant (toggle3DMode s).
Proof.
  intros (_ & _ & Hprog & Hframes).
  unfold page_invariant, pitch_within_limit, flat_is_top_down, progress_is_fraction,
    toggle3DMode, maxPitch in *.
  destruct (is3DEnabled s); simpl;
    (split; [split; discriminate|split; [|split; [exact Hprog|exact Hframes]]]).
  - intros _. reflexivity.
  - discriminate.
Qed.

Lemma view_mode_keeps_invariant (mode : MapPage.view_mode) (s : state) :
  page_invariant s -> page_invariant (setViewMode mode s).
Proof.
  intros Hinv. unfold setViewMode.
  destruct (is3DEnabled s) eqn:H3; simpl; [|apply toggle_keeps_invariant; exact Hinv].
  destruct Hinv as (_ & _ & _ & Hframes).
  unfold page_invariant, pitch_within_limit, flat_is_top_down, progress_is_fraction,
    maxPitch. simpl. rewrite H3.
  split; [destruct mode; split; discriminate|].
  split; [discriminate|]. split; [split; discriminate|exact Hframes].
Qed.

(** One enabled event keeps what holds of the page. *)
Lemma event_keeps_invariant (ev : event) (s : state) :
  page_invariant s -> enabled ev s = true -> page_invariant (handle ev s).
Proof.
  intros Hinv Hen. pose proof Hinv as (Hpitch & Hflat & Hprog & Hframes).
  destruct ev as [|mode| |n|elapsed|e|lng lat zm p b| | |k|elapsed|t]; simpl in *.
  - apply toggle_keeps_invariant; exact Hinv.
  - apply view_mode_keeps_invariant; exact Hinv.
  - apply view_mode_keeps_invariant; exact Hinv.
  - unfold page_invariant, pitch_within_limit, flat_is_top_down, progress_is_fraction,
      maxPitch in *. simpl.
    split; [|split; [exact Hflat|split; [exact Hprog|exact Hframes]]].
    destruct n; simpl; try exact Hpitch.
    + apply andb_prop in Hen as [H3 _]. rewrite H3 in *.
      split; [apply Q.min_glb; lra | apply Q.le_min_r].
    + apply andb_prop in Hen as [H3 _]. rewrite H3 in *.
      split; [apply Q.le_max_r | apply Q.max_lub; lra].
  - destruct (isAnimating s) eqn:Han.
    + exact Hinv.
    + unfold startOrbitalRotation, animate. rewrite Hen, Han. simpl. exact Hinv.
  - unfold handleMapClick. destruct (features e) as [[|f l]|]; try exact Hinv.
    apply fly_keeps_invariant. exact Hinv.
  - apply andb_prop in Hen as [Hlo Hhi].
    apply Qle_bool_true in Hlo. apply Qle_bool_true in Hhi.
    unfold page_invariant, pitch_within_limit. simpl.
    split; [split; assumption|]. split; [exact Hflat|]. split; [exact Hprog|exact Hframes].
  - exact Hinv.
  - destruct (popupInfo s) as [p|]; [|discriminate].
    apply fly_keeps_invariant. exact Hinv.
  - destruct (timeouts s !! k) as [[d cb]|]; [|exact Hinv].
    destruct cb; unfold page_invariant, pitch_within_limit, flat_is_top_down,
      progress_is_fraction, maxPitch in *; simpl.
    + split; [exact Hpitch|]. split; [exact Hflat|]. split; [exact Hprog|exact Hframes].
    + split; [exact Hpitch|]. split; [exact Hflat|]. split; [split; discriminate|exact Hframes].
  - rewrite Hframes in Hen. discriminate.
  - destruct (transitionEasing (viewState s)) as [e|]; [|exact Hinv].
    apply andb_prop in Hen as [Hlo Hhi].
    apply Qle_bool_true in Hlo. apply Qle_bool_true in Hhi.
    destruct (reports_progress e); [|exact Hinv].
    unfold page_invariant, pitch_within_limit, flat_is_top_down, progress_is_fraction,
      maxPitch in *. simpl.
    split; [exact Hpitch|]. split; [exact Hflat|].
    split; [apply ease_fraction; assumption|exact Hframes].
Qed.

Lemma reachable_invariant (s : state) : reachable s -> page_invariant s.
Proof.
  induction 1 as [|s ev Hs IH Hen].
  - unfold page_invariant, pitch_within_limit, flat_is_top_down, progress_is_fraction.
    simpl. repeat split; discriminate.
  - apply event_keeps_invariant; assumption.
Qed.

(** X5.  In every state the page can reach (given that the map library
    reports pitches within the [maxPitch] it was handed), the pitch is
    within [0, 85] in 3D mode and is 0 in 2D mode, and in 2D mode the
    view mode is 'top-down'. *)
Theorem reachable_camera_within_limit (s : state) :
  reachable s ->
  0 <= pitch (viewState s) /\
  pitch (viewState s) <= 85 /\
  (is3DEnabled s = false ->
     pitch (viewState s) == 0 /\ currentViewMode s = MapPage.TopDown).
Proof.
  intros Hr. destruct (reachable_invariant s Hr) as ((Hlo & Hhi) & Hflat & _).
  unfold maxPitch in Hhi. split; [exact Hlo|]. split.
  - destruct (is3DEnabled s); lra.
  - intros H2. rewrite H2 in Hhi. split; [lra|exact (Hflat H2)].
Qed.

Lemma reachable_camera_within_limit_witness :
  pitch (viewState (handle (NudgeClicked MapPage.TiltUp)
                      (handle (TimeoutFired 0) (handle (ViewModeClicked MapPage.CrossSection)
                         initial)))) <= 85.
Proof.
  apply (reachable_camera_within_limit
           (handle (NudgeClicked MapPage.TiltUp)
              (handle (TimeoutFired 0) (handle (ViewModeClicked MapPage.CrossSection) initial)))).
  apply reachable_step; [|reflexivity].
  apply reachable_step; [|reflexivity].
  apply reachable_step; [|reflexivity].
  apply reachable_initial.
Defined.

(** X6.  The orbital rotation never gets past its first frame: in no
    state the page can reach is an animation frame pending.  ("Auto
    Orbit" is offered as a start only while [isAnimating] is false, and
    that is the value the continuation test of [animate] has
    captured.) *)
Theorem orbit_never_continues (s : state) :
  reachable s -> frames s = [].
Proof. intros Hr. apply (reachable_invariant s Hr). Qed.

Lemma orbit_never_continues_witness :
  frames (handle (OrbitClicked 16) (handle (OrbitClicked 0) initial)) = [].
Proof.
  apply (orbit_never_continues (handle (OrbitClicked 16) (handle (OrbitClicked 0) initial))).
  apply reachable_step; [|reflexivity].
  apply reachable_step; [|reflexivity].
  apply reachable_initial.
Defined.

(** X7.  In every state the page can reach (given that the map engine
    evaluates easing functions at times within [0, 1]), the animation
    progress is within [0, 1]. *)
Theorem reachable_progress_is_fraction (s : state) :
  reachable s -> 0 <= animationProgress s /\ animationProgress s <= 1.
Proof. intros Hr. apply (reachable_invariant s Hr). Qed.

Lemma reachable_progress_is_fraction_witness :
  0 <= animationProgress (handle (EasingEvaluated 0.5)
                            (handle (ViewModeClicked MapPage.Perspective) initial)) /\
  animationProgress (handle (EasingEvaluated 0.5)
                       (handle (ViewModeClicked MapPage.Perspective) initial)) <= 1.
Proof.
  apply (reachable_progress_is_fraction
           (handle (EasingEvaluated 0.5) (handle (ViewModeClicked MapPage.Perspective) initial))).
  apply reachable_step; [|reflexivity].
  apply reachable_step; [|reflexivity].
  apply reachable_initial.
Defined.



(** X9.  The timer that clears [isAnimating] against the transition
    it stands for.  The 2D/3D toggle and the fly-to start a timer of
    exactly their transition's duration (1500 and 3000 ms).  A view
    mode change in 3D starts a timer of 2000 ms whatever the preset's
    duration, which is 2000 ms only for 'top-down'.  A camera nudge
    starts a transition but no timer, and leaves [isAnimating] as it
    is. *)
Theorem timers_against_transitions (s : state) :
  (timeouts (toggle3DMode s) = timeouts s ++ [(1500, MapPage.ClearAnimating)] /\
   transitionDuration (viewState (toggle3DMode s)) = Some 1500 /\
   isAnimating (toggle3DMode s) = true) /\
  (forall mine_lng mine_lat properties,
     timeouts (flyToMine mine_lng mine_lat properties s)
       = timeouts s ++ [(3000, MapPage.FinishAnimation)] /\
     transitionDuration (viewState (flyToMine mine_lng mine_lat properties s)) = Some 3000 /\
     isAnimating (flyToMine mine_lng mine_lat properties s) = true) /\
  (is3DEnabled s = true -> forall mode,
     timeouts (setViewMode mode s) = timeouts s ++ [(2000, MapPage.FinishAnimation)] /\
     transitionDuration (viewState (setViewMode mode s))
       = Some (MapPage.preset_transitionDuration (MapPage.presets mode)) /\
     isAnimating (setViewMode mode s) = true /\
     (MapPage.preset_transitionDuration (MapPage.presets mode) == 2000
        <-> mode = MapPage.TopDown)) /\
  (forall n,
     timeouts (handle (NudgeClicked n) s) = timeouts s /\
     isAnimating (handle (NudgeClicked n) s) = isAnimating s /\
     exists d, transitionDuration (viewState (handle (NudgeClicked n) s)) = Some d /\ 0 < d).
Proof.
  split; [|split; [|split]].
  - unfold toggle3DMode. destruct (is3DEnabled s); repeat split; reflexivity.
  - intros. repeat split; reflexivity.
  - intros H3 mode. unfold setViewMode. rewrite H3. simpl.
    split; [reflexivity|]. split; [reflexivity|]. split; [reflexivity|].
    destruct mode; simpl; split; intros H; try reflexivity; discriminate H.
  - intros n. split; [reflexivity|]. split; [reflexivity|].
    destruct n; simpl; eexists; split; reflexivity.
Qed.

Lemma timers_against_transitions_witness :
  timeouts (setViewMode MapPage.CrossSection initial) = [(2000, MapPage.FinishAnimation)] /\
  transitionDuration (viewState (setViewMode MapPage.CrossSection initial)) = Some 2200.
Proof.
  destruct (timers_against_transitions initial) as (_ & _ & H & _).
  destruct (H eq_refl MapPage.CrossSection) as (Ht & Hd & _).
  split; [exact Ht|exact Hd].
Defined.

(** X10.  The centre of the map moves only when the map reports a
    move, when a click hits a feature (to the click position) and on
    "Re-fly to Mine" (to the popup's position); no button of the
    controls, no timer, frame or easing callback changes longitude or
    latitude. *)
Theorem centre_moves_only_by_map_and_fly (ev : event) (s : state) :
  (longitude (viewState (handle ev s)), latitude (viewState (handle ev s))) =
  match ev with
  | MapMoved lng lat _ _ _ => (lng, lat)
  | MapClicked e =>
      match features e with
      | Some (_ :: _) => (click_lng e, click_lat e)
      | _ => (longitude (viewState s), latitude (viewState s))
      end
  | ReflyClicked =>
      match popupInfo s with
      | Some p => (lng p, lat p)
      | None => (longitude (viewState s), latitude (viewState s))
      end
  | _ => (longitude (viewState s), latitude (viewState s))
  end.
Proof.
  destruct ev as [|mode| |n|elapsed|e|lng lat zm p b| | |k|elapsed|t]; simpl.
  - unfold toggle3DMode. destruct (is3DEnabled s); reflexivity.
  - unfold setViewMode, toggle3DMode. destruct (is3DEnabled s); reflexivity.
  - unfold setViewMode, toggle3DMode. destruct (is3DEnabled s); reflexivity.
  - destruct n; reflexivity.
  - unfold startOrbitalRotation, animate.
    destruct (isAnimating s), (is3DEnabled s); reflexivity.
  - unfold handleMapClick. destruct (features e) as [[|f l]|]; reflexivity.
  - reflexivity.
  - reflexivity.
  - destruct (popupInfo s); reflexivity.
  - destruct (timeouts s !! k) as [[d cb]|]; [destruct cb|]; reflexivity.
  - unfold animate. destruct (frames s) as [|c l]; [reflexivity|].
    destruct (captured_isAnimating c && captured_is3DEnabled c); reflexivity.
  - destruct (transitionEasing (viewState s)) as [e|]; [|reflexivity].
    destruct (reports_progress e); reflexivity.
Qed.

End WholePage.

(** ** Rounding to a double *)

Section Rounding.
Import Double.
Local Open Scope Q_scope.

(** [round] on numbers whose nearest double is known: 0.1 and 1/3, a
    sum and a difference that the engine rounds, two ties above 2^53,
    and two ties among the smallest doubles. *)
Example round_samples :
  round (1 # 10) == 3602879701896397 # 36028797018963968 /\
  round (1 # 3) == 6004799503160661 # 18014398509481984 /\
  sub (add (round (1 # 10)) 45) 45 == 14073748835533 # 140737488355328 /\
  round (inject_Z (2 ^ 53 + 1)) == inject_Z (2 ^ 53) /\
  round (inject_Z (2 ^ 53 + 3)) == inject_Z (2 ^ 53 + 4) /\
  round (2 ^ (-1075)) == 0 /\
  round (3 * 2 ^ (-1075)) == 2 ^ (-1073).
Proof. repeat split; vm_compute; reflexivity. Qed.

(** *** Rounding to an integer *)

Lemma nearest_even_comp (x y : Q) : x == y -> nearest_even x = nearest_even y.
Proof.
  intros H. unfold nearest_even.
  rewrite (Qfloor_comp x y H).
  assert (Hc : Qcompare (x - inject_Z (Qfloor y)) (1 # 2)
               = Qcompare (y - inject_Z (Qfloor y)) (1 # 2)).
  { apply Qcompare_comp; [rewrite H; reflexivity|reflexivity]. }
  rewrite Hc. reflexivity.
Qed.

Lemma nearest_even_floor (x : Q) :
  (Qfloor x <= nearest_even x <= Qfloor x + 1)%Z.
Proof.
  unfold nearest_even.
  destruct (Qcompare (x - inject_Z (Qfloor x)) (1 # 2)); [destruct (Z.even _)| |]; lia.
Qed.

Lemma nearest_even_error (x : Q) :
  x - (1 # 2) <= inject_Z (nearest_even x) /\ inject_Z (nearest_even x) <= x + (1 # 2).
Proof.
  pose proof (Qfloor_le x) as Hlo. pose proof (Qlt_floor x) as Hhi.
  rewrite inject_Z_plus in Hhi. change (inject_Z 1) with 1 in Hhi.
  unfold nearest_even.
  destruct (Qcompare (x - inject_Z (Qfloor x)) (1 # 2)) eqn:Hc.
  - apply Qeq_alt in Hc. destruct (Z.even _).
    + split; lra.
    + rewrite inject_Z_plus. change (inject_Z 1) with 1. split; lra.
  - apply Qlt_alt in Hc. split; lra.
  - apply Qgt_alt in Hc. rewrite inject_Z_plus. change (inject_Z 1) with 1. split; lra.
Qed.

Lemma nearest_even_Z (z : Z) : nearest_even (inject_Z z) = z.
Proof.
  unfold nearest_even. rewrite Qfloor_Z.
  assert (Hc : Qcompare (inject_Z z - inject_Z z) (1 # 2) = Lt).
  { apply Qlt_alt. assert (H0 : inject_Z z - inject_Z z == 0) by ring.
    rewrite H0. reflexivity. }
  rewrite Hc. reflexivity.
Qed.

Lemma nearest_even_le (x y : Q) : x <= y -> (nearest_even x <= nearest_even y)%Z.
Proof.
  intros Hxy. pose proof (Qfloor_resp_le x y Hxy) as Hf.
  pose proof (nearest_even_floor x) as Hx. pose proof (nearest_even_floor y) as Hy.
  destruct (Z.eq_dec (Qfloor x) (Qfloor y)) as [Heq|Hne]; [|lia].
  unfold nearest_even. rewrite <- Heq.
  destruct (Qcompare (x - inject_Z (Qfloor x)) (1 # 2)) eqn:Hcx;
    destruct (Qcompare (y - inject_Z (Qfloor x)) (1 # 2)) eqn:Hcy;
    try (destruct (Z.even _)); try lia;
    repeat match goal with
    | H : Qcompare _ _ = Eq |- _ => apply Qeq_alt in H
    | H : Qcompare _ _ = Lt |- _ => apply Qlt_alt in H
    | H : Qcompare _ _ = Gt |- _ => apply Qgt_alt in H
    end; exfalso; lra.
Qed.

(** *** Powers of two and the exponent of a number *)

Lemma pow2_pos (e : Z) : 0 < 2 ^ e.
Proof. apply Qpower_0_lt. reflexivity. Qed.

Lemma pow2_succ (e : Z) : 2 ^ (e + 1) == 2 * 2 ^ e.
Proof. rewrite Qpower_plus by discriminate. change (2 ^ 1) with 2. ring. Qed.

Lemma pow2_pred (e : Z) : 2 * 2 ^ (e - 1) == 2 ^ e.
Proof. rewrite <- pow2_succ. replace (e - 1 + 1)%Z with e by lia. reflexivity. Qed.

Lemma pow2_le (e e' : Z) : (e <= e')%Z -> 2 ^ e <= 2 ^ e'.
Proof. intros H. apply Qpower_le_compat_l; [exact H|discriminate]. Qed.

Lemma pow2_log2 (n : Z) :
  (0 < n)%Z -> 2 ^ Z.log2 n <= inject_Z n /\ inject_Z n < 2 * 2 ^ Z.log2 n.
Proof.
  intros Hn. destruct (Z.log2_spec n Hn) as [Hlo Hhi].
  pose proof (Z.log2_nonneg n) as H0.
  rewrite <- pow2_succ.
  change 2 with (inject_Z 2). rewrite <- !Zpower_Qpower by lia.
  rewrite <- Zle_Qle, <- Zlt_Qlt. replace (Z.log2 n + 1)%Z with (Z.succ (Z.log2 n)) by lia.
  split; assumption.
Qed.

Lemma ratio_bounds (q N D pa pb P : Q) :
  0 < D -> 0 < pb -> 0 < P -> q * D == N -> P * pb == pa ->
  pa <= N -> N < 2 * pa -> pb <= D -> D < 2 * pb ->
  P < 2 * q /\ q < 2 * P.
Proof.
  intros HD Hpb HP Hq HPp Ha Ha' Hb Hb'. split.
  - destruct (Qlt_le_dec P (2 * q)) as [|Hc]; [assumption|exfalso].
    assert (H1 : 2 * q * D <= P * D) by (apply Qmult_le_compat_r; lra).
    assert (H2 : P * D < P * (2 * pb)) by (apply Qmult_lt_l; lra).
    nra.
  - destruct (Qlt_le_dec q (2 * P)) as [|Hc]; [assumption|exfalso].
    assert (H1 : 2 * P * D <= q * D) by (apply Qmult_le_compat_r; lra).
    assert (H2 : P * pb <= P * D) by (apply Qmult_le_l; lra).
    nra.
Qed.

Lemma exponent_spec (q : Q) :
  0 < q -> 2 ^ exponent q <= q /\ q < 2 ^ (exponent q + 1).
Proof.
  intros Hq. unfold exponent.
  assert (Hn : (0 < Qnum q)%Z).
  { destruct q as [n d]. unfold Qlt in Hq. simpl in *. lia. }
  destruct (pow2_log2 (Qnum q) Hn) as [Ha Ha'].
  destruct (pow2_log2 (Zpos (Qden q)) (Pos2Z.is_pos _)) as [Hb Hb'].
  set (e := (Z.log2 (Qnum q) - Z.log2 (Zpos (Qden q)))%Z).
  assert (HP : 2 ^ e * 2 ^ Z.log2 (Zpos (Qden q)) == 2 ^ Z.log2 (Qnum q)).
  { rewrite <- Qpower_plus by discriminate. unfold e.
    replace (Z.log2 (Qnum q) - Z.log2 (Z.pos (Qden q)) + Z.log2 (Z.pos (Qden q)))%Z
      with (Z.log2 (Qnum q)) by lia. reflexivity. }
  assert (HqD : q * inject_Z (Zpos (Qden q)) == inject_Z (Qnum q)).
  { destruct q as [n d]. simpl. unfold Qeq, Qmult, inject_Z. simpl. lia. }
  assert (HD : 0 < inject_Z (Zpos (Qden q))) by reflexivity.
  destruct (ratio_bounds _ _ _ _ _ _ HD (pow2_pos _) (pow2_pos e) HqD HP Ha Ha' Hb Hb')
    as [Hlo Hhi].
  destruct (Qle_bool (2 ^ e) q) eqn:Hle.
  - apply Qle_bool_iff in Hle. rewrite pow2_succ. split; assumption.
  - assert (Hlt : q < 2 ^ e).
    { apply Qnot_le_lt. intros Hc. apply Qle_bool_iff in Hc. congruence. }
    replace (e - 1 + 1)%Z with e by lia. split; [|exact Hlt].
    pose proof (pow2_pred e). lra.
Qed.

Lemma exponent_unique (q : Q) (e : Z) :
  0 < q -> 2 ^ e <= q -> q < 2 ^ (e + 1) -> exponent q = e.
Proof.
  intros Hq Hlo Hhi. destruct (exponent_spec q Hq) as [Hlo' Hhi'].
  destruct (Z.lt_trichotomy (exponent q) e) as [Hlt|[Heq|Hgt]]; [exfalso|exact Heq|exfalso].
  - pose proof (pow2_le (exponent q + 1) e ltac:(lia)). lra.
  - pose proof (pow2_le (e + 1) (exponent q) ltac:(lia)). lra.
Qed.

Lemma exponent_comp (x y : Q) : 0 < x -> x == y -> exponent x = exponent y.
Proof.
  intros Hx Hxy. assert (Hy : 0 < y) by (rewrite <- Hxy; exact Hx).
  destruct (exponent_spec x Hx) as [Hlo Hhi].
  symmetry. apply exponent_unique; [exact Hy|rewrite <- Hxy; exact Hlo|rewrite <- Hxy; exact Hhi].
Qed.

Lemma exponent_le (x y : Q) : 0 < x -> x <= y -> (exponent x <= exponent y)%Z.
Proof.
  intros Hx Hxy. assert (Hy : 0 < y) by lra.
  destruct (exponent_spec x Hx) as [Hlo Hhi]. destruct (exponent_spec y Hy) as [Hlo' Hhi'].
  destruct (Z_le_gt_dec (exponent x) (exponent y)) as [|Hgt]; [assumption|exfalso].
  pose proof (pow2_le (exponent y + 1) (exponent x) ltac:(lia)). lra.
Qed.

Lemma ulp_pos (q : Q) : 0 < ulp q.
Proof. apply pow2_pos. Qed.


(** *** Rounding to a double: sign, monotonicity, integers *)

Lemma round_positive (q : Q) : 0 < q -> round q = round_pos q.
Proof.
  destruct q as [[|n|n] d]; unfold Qlt; simpl; intros H; try lia. reflexivity.
Qed.

Lemma round_negative (q : Q) : q < 0 -> round q = - round_pos (- q).
Proof.
  destruct q as [[|n|n] d]; unfold Qlt; simpl; intros H; try lia. reflexivity.
Qed.

Lemma round_zero (q : Q) : q == 0 -> round q = 0.
Proof.
  destruct q as [[|n|n] d]; unfold Qeq; simpl; intros H; try lia. reflexivity.
Qed.

Lemma round_pos_comp (x y : Q) : 0 < x -> x == y -> round_pos x == round_pos y.
Proof.
  intros Hx Hxy. unfold round_pos, ulp. rewrite <- (exponent_comp x y Hx Hxy).
  set (u := 2 ^ Z.max (exponent x - 52) (-1074)).
  assert (H : x / u == y / u) by (rewrite Hxy; reflexivity).
  rewrite (nearest_even_comp _ _ H). reflexivity.
Qed.

Lemma round_comp (x y : Q) : x == y -> round x == round y.
Proof.
  intros Hxy. destruct (Q_dec x 0) as [[Hneg|Hpos]|Hz].
  - rewrite (round_negative x Hneg), (round_negative y) by (rewrite <- Hxy; exact Hneg).
    apply Qopp_comp. apply round_pos_comp; [lra|rewrite Hxy; reflexivity].
  - rewrite (round_positive x Hpos), (round_positive y) by (rewrite <- Hxy; exact Hpos).
    apply round_pos_comp; assumption.
  - rewrite (round_zero x Hz), (round_zero y) by (rewrite <- Hxy; exact Hz). reflexivity.
Qed.

Lemma round_opp (q : Q) : round (- q) == - round q.
Proof.
  destruct (Q_dec q 0) as [[Hneg|Hpos]|Hz].
  - rewrite (round_negative q Hneg), (round_positive (- q)) by lra. ring.
  - rewrite (round_positive q Hpos), (round_negative (- q)) by lra.
    apply Qopp_comp. apply round_pos_comp; [lra|ring].
  - rewrite (round_zero q Hz), (round_zero (- q)) by lra. reflexivity.
Qed.

(** Rounding at a fixed exponent. *)
Lemma scaled_le (k : Z) (x y : Q) :
  x <= y ->
  inject_Z (nearest_even (x / 2 ^ k)) * 2 ^ k <= inject_Z (nearest_even (y / 2 ^ k)) * 2 ^ k.
Proof.
  intros Hxy. pose proof (pow2_pos k) as Hk.
  apply Qmult_le_compat_r; [|lra].
  rewrite <- Zle_Qle. apply nearest_even_le.
  apply Qmult_le_compat_r; [exact Hxy|]. apply Qinv_le_0_compat. lra.
Qed.

Lemma pow2_ratio (e k : Z) : (k <= e)%Z -> 2 ^ e / 2 ^ k == inject_Z (2 ^ (e - k)).
Proof.
  intros H. rewrite <- Qpower_minus by discriminate.
  rewrite Zpower_Qpower by lia. reflexivity.
Qed.

Lemma scaled_pow2 (e k : Z) :
  (k <= e)%Z -> inject_Z (nearest_even (2 ^ e / 2 ^ k)) * 2 ^ k == 2 ^ e.
Proof.
  intros H. rewrite (nearest_even_comp _ _ (pow2_ratio e k H)), nearest_even_Z.
  rewrite <- (pow2_ratio e k H). field. pose proof (pow2_pos k). lra.
Qed.

Lemma round_pos_nonneg (q : Q) : 0 < q -> 0 <= round_pos q.
Proof.
  intros Hq. unfold round_pos. pose proof (ulp_pos q) as Hu.
  apply Qmult_le_0_compat; [|lra].
  change 0 with (inject_Z 0). rewrite <- Zle_Qle.
  rewrite <- (nearest_even_Z 0). apply nearest_even_le.
  change (inject_Z 0) with 0. apply Qle_shift_div_l; [exact Hu|lra].
Qed.

Lemma round_pos_le (x y : Q) : 0 < x -> x <= y -> round_pos x <= round_pos y.
Proof.
  intros Hx Hxy. assert (Hy : 0 < y) by lra.
  pose proof (exponent_le x y Hx Hxy) as He.
  destruct (exponent_spec x Hx) as [_ Hhi]. destruct (exponent_spec y Hy) as [Hlo _].
  unfold round_pos, ulp.
  set (kx := Z.max (exponent x - 52) (-1074)). set (ky := Z.max (exponent y - 52) (-1074)).
  destruct (Z.eq_dec kx ky) as [Heq|Hne].
  - rewrite Heq. apply scaled_le. exact Hxy.
  - assert (Hk : (kx < exponent y - 52 /\ ky = exponent y - 52 /\ exponent x < exponent y)%Z)
      by lia.
    destruct Hk as (Hk1 & Hk2 & Hk3).
    apply Qle_trans with (2 ^ exponent y).
    + rewrite <- (scaled_pow2 (exponent y) kx) by lia. apply scaled_le.
      pose proof (pow2_le (exponent x + 1) (exponent y) ltac:(lia)). lra.
    + rewrite <- (scaled_pow2 (exponent y) ky) at 1 by lia. apply scaled_le. exact Hlo.
Qed.

Lemma round_le (x y : Q) : x <= y -> round x <= round y.
Proof.
  intros Hxy.
  destruct (Q_dec x 0) as [[Hx|Hx]|Hx]; destruct (Q_dec y 0) as [[Hy|Hy]|Hy];
    try (exfalso; lra).
  - rewrite (round_negative x Hx), (round_negative y Hy).
    apply Qopp_le_compat. apply round_pos_le; lra.
  - rewrite (round_negative x Hx), (round_positive y Hy).
    pose proof (round_pos_nonneg (- x) ltac:(lra)). pose proof (round_pos_nonneg y Hy). lra.
  - rewrite (round_negative x Hx), (round_zero y Hy).
    pose proof (round_pos_nonneg (- x) ltac:(lra)). lra.
  - rewrite (round_positive x Hx), (round_positive y Hy). apply round_pos_le; assumption.
  - rewrite (round_zero x Hx), (round_positive y Hy). apply round_pos_nonneg. exact Hy.
  - rewrite (round_zero x Hx), (round_zero y Hy). lra.
Qed.

(** Integers below 2^53 are doubles. *)
Lemma round_pos_Z (n : Z) :
  (0 < n < 2 ^ 53)%Z -> round_pos (inject_Z n) == inject_Z n.
Proof.
  intros [Hn Hb]. destruct (pow2_log2 n Hn) as [Hlo Hhi].
  assert (HL : (0 <= Z.log2 n < 53)%Z).
  { split; [apply Z.log2_nonneg|]. apply Z.log2_lt_pow2; lia. }
  assert (He : exponent (inject_Z n) = Z.log2 n).
  { apply exponent_unique; [|exact Hlo|rewrite pow2_succ; exact Hhi].
    change 0 with (inject_Z 0). rewrite <- Zlt_Qlt. exact Hn. }
  unfold round_pos, ulp. rewrite He.
  replace (Z.max (Z.log2 n - 52) (-1074)) with (- (52 - Z.log2 n))%Z by lia.
  set (k := (52 - Z.log2 n)%Z). assert (Hk : (0 <= k)%Z) by lia.
  assert (Hinv : 2 ^ (- k) == / inject_Z (2 ^ k)).
  { rewrite Qpower_opp, Zpower_Qpower by lia. reflexivity. }
  assert (Hpos : 0 < inject_Z (2 ^ k)).
  { rewrite Zpower_Qpower by lia. apply pow2_pos. }
  assert (Hq : inject_Z n / 2 ^ (- k) == inject_Z (n * 2 ^ k)).
  { rewrite inject_Z_mult, Hinv. field. lra. }
  rewrite (nearest_even_comp _ _ Hq), nearest_even_Z, inject_Z_mult, Hinv.
  field. lra.
Qed.

Lemma round_Z (n : Z) : (Z.abs n < 2 ^ 53)%Z -> round (inject_Z n) == inject_Z n.
Proof.
  intros Hn. destruct (Z.lt_trichotomy n 0) as [Hneg|[->|Hpos]].
  - assert (Hq : inject_Z n < 0) by (change 0 with (inject_Z 0); rewrite <- Zlt_Qlt; exact Hneg).
    rewrite (round_negative _ Hq).
    assert (Ho : - inject_Z n == inject_Z (- n)) by (rewrite inject_Z_opp; reflexivity).
    assert (Hp : 0 < - inject_Z n) by (apply (Qopp_lt_compat _ 0); exact Hq).
    rewrite (round_pos_comp _ _ Hp Ho), round_pos_Z by lia.
    rewrite inject_Z_opp. ring.
  - reflexivity.
  - assert (Hq : 0 < inject_Z n) by (change 0 with (inject_Z 0); rewrite <- Zlt_Qlt; exact Hpos).
    rewrite (round_positive _ Hq). apply round_pos_Z. lia.
Qed.

(** Between 1 and 2 the doubles are 2^-52 apart: rounding moves a
    number by at most half of that. *)
Lemma round_unit_error (s : Q) :
  1 <= s -> s < 2 ->
  s - 2 ^ (-53) <= round s /\ round s <= s + 2 ^ (-53).
Proof.
  intros Hlo Hhi. rewrite (round_positive s) by lra.
  assert (He : exponent s = 0%Z) by (apply exponent_unique; [lra|exact Hlo|exact Hhi]).
  unfold round_pos, ulp. rewrite He.
  change (2 ^ Z.max (0 - 52) (-1074)) with (1 # 4503599627370496).
  unfold Qdiv. change (/ (1 # 4503599627370496)) with 4503599627370496.
  destruct (nearest_even_error (s * 4503599627370496)) as [H1 H2].
  set (m := inject_Z (nearest_even (s * 4503599627370496))) in *.
  change (2 ^ (-53)) with (1 # 9007199254740992).
  split; lra.
Qed.

End Rounding.

(** ** The camera buttons, as the engine computes them *)

Section Buttons.
Import MapPage Double Props.
Local Open Scope Q_scope.

Lemma round_plus_ge (c d : Z) (p : Q) :
  inject_Z c <= p -> (Z.abs (c + d) < 2 ^ 53)%Z ->
  inject_Z (c + d) <= round (p + inject_Z d).
Proof.
  intros Hp Hb. rewrite <- (round_Z (c + d) Hb). apply round_le.
  rewrite inject_Z_plus. apply Qplus_le_compat; [exact Hp|apply Qle_refl].
Qed.

Lemma round_plus_le (c d : Z) (p : Q) :
  p <= inject_Z c -> (Z.abs (c + d) < 2 ^ 53)%Z ->
  round (p + inject_Z d) <= inject_Z (c + d).
Proof.
  intros Hp Hb. rewrite <- (round_Z (c + d) Hb). apply round_le.
  rewrite inject_Z_plus. apply Qplus_le_compat; [exact Hp|apply Qle_refl].
Qed.

Lemma round_plus_Z (c d : Z) (p : Q) :
  p == inject_Z c -> (Z.abs (c + d) < 2 ^ 53)%Z ->
  round (p + inject_Z d) == inject_Z (c + d).
Proof.
  intros Hp Hb. rewrite <- (round_Z (c + d) Hb). apply round_comp.
  rewrite inject_Z_plus, Hp. reflexivity.
Qed.

Lemma rotate_right_bearing (vs : view_state) :
  bearing (Nudge.rotate_right vs) = round (bearing vs + inject_Z 45).
Proof. reflexivity. Qed.

Lemma rotate_left_bearing (vs : view_state) :
  bearing (Nudge.rotate_left vs) = round (bearing vs + inject_Z (-45)).
Proof. reflexivity. Qed.

Lemma rotations_keep_pitch (k : nat) (vs : view_state) :
  pitch (Nat.iter k Nudge.rotate_right vs) = pitch vs /\
  pitch (Nat.iter k Nudge.rotate_left vs) = pitch vs.
Proof. induction k as [|k [IH1 IH2]]; simpl; [split; reflexivity|split; assumption]. Qed.




(** A round trip of two rotations, or of two tilts, need not come back
    to where it started: from the double nearest to 0.1 it does not. *)
Lemma round_trips_are_inexact :
  is_double (bearing Cases.tenth) /\ is_double (pitch Cases.tenth) /\
  ~ bearing (Nudge.rotate_left (Nudge.rotate_right Cases.tenth)) == bearing Cases.tenth /\
  ~ pitch (Nudge.tilt_down (Nudge.tilt_up Cases.tenth)) == pitch Cases.tenth.
Proof.
  split; [vm_compute; reflexivity|]. split; [vm_compute; reflexivity|].
  split; intros H; vm_compute in H; discriminate H.
Qed.

Lemma tilt_up_pitch (vs : view_state) :
  pitch (Nudge.tilt_up vs) = Qmin (round (pitch vs + inject_Z 15)) 85.
Proof. reflexivity. Qed.

Lemma tilt_down_pitch (vs : view_state) :
  pitch (Nudge.tilt_down vs) = Qmax (round (pitch vs + inject_Z (-15))) 0.
Proof. reflexivity. Qed.

(** One press of "Tilt Up" turns a lower bound [c] of the pitch into
    the lower bound [min (c + 15) 85], and one press of "Tilt Down" an
    upper bound [c] into [max (c - 15) 0]. *)
Lemma tilt_up_ge (c : Z) (vs : view_state) :
  (0 <= c <= 85)%Z -> inject_Z c <= pitch vs ->
  inject_Z (Z.min (c + 15) 85) <= pitch (Nudge.tilt_up vs).
Proof.
  intros Hc Hp. rewrite tilt_up_pitch. apply Q.min_glb.
  - apply Qle_trans with (inject_Z (c + 15)); [rewrite <- Zle_Qle; lia|].
    apply round_plus_ge; [exact Hp|lia].
  - change 85 with (inject_Z 85). rewrite <- Zle_Qle. lia.
Qed.

Lemma tilt_down_le (c : Z) (vs : view_state) :
  (0 <= c <= 85)%Z -> pitch vs <= inject_Z c ->
  pitch (Nudge.tilt_down vs) <= inject_Z (Z.max (c + -15) 0).
Proof.
  intros Hc Hp. rewrite tilt_down_pitch. apply Q.max_lub.
  - apply Qle_trans with (inject_Z (c + -15)); [|rewrite <- Zle_Qle; lia].
    apply round_plus_le; [exact Hp|lia].
  - change 0 with (inject_Z 0). rewrite <- Zle_Qle. lia.
Qed.

(** X12.  Tilting, as the engine computes it, saturates.  From a pitch
    within [0, 85], six presses of "Tilt Up" reach exactly 85 and six
    presses of "Tilt Down" exactly 0, whatever the pitch was.  From a
    pitch above 70, "Tilt Up" followed by "Tilt Down" ends at exactly
    70.  From an integer pitch of at most 70 the pair comes back to the
    pitch it started from; from another pitch it need not, see
    [round_trips_are_inexact]. *)
Theorem tilts_on_doubles (vs : view_state) :
  0 <= pitch vs -> pitch vs <= 85 ->
  pitch (Nat.iter 6 Nudge.tilt_up vs) == 85 /\
  pitch (Nat.iter 6 Nudge.tilt_down vs) == 0 /\
  (70 < pitch vs -> pitch (Nudge.tilt_down (Nudge.tilt_up vs)) == 70) /\
  (forall n : Z, pitch vs == inject_Z n -> (n <= 70)%Z ->
     pitch (Nudge.tilt_down (Nudge.tilt_up vs)) == pitch vs).
Proof.
  intros Hlo Hhi. split; [|split; [|split]].
  - apply Qle_antisym.
    + simpl Nat.iter. rewrite tilt_up_pitch. apply Q.le_min_r.
    + simpl Nat.iter.
      apply (tilt_up_ge 75); [lia|]. apply (tilt_up_ge 60); [lia|].
      apply (tilt_up_ge 45); [lia|]. apply (tilt_up_ge 30); [lia|].
      apply (tilt_up_ge 15); [lia|]. apply (tilt_up_ge 0); [lia|exact Hlo].
  - apply Qle_antisym.
    + simpl Nat.iter.
      apply (tilt_down_le 10); [lia|]. apply (tilt_down_le 25); [lia|].
      apply (tilt_down_le 40); [lia|]. apply (tilt_down_le 55); [lia|].
      apply (tilt_down_le 70); [lia|]. apply (tilt_down_le 85); [lia|exact Hhi].
    + simpl Nat.iter. rewrite tilt_down_pitch. apply Q.le_max_r.
  - intros H70.
    assert (Hup : pitch (Nudge.tilt_up vs) == inject_Z 85).
    { rewrite tilt_up_pitch. apply Q.min_r.
      apply (round_plus_ge 70 15); [apply Qlt_le_weak; exact H70|reflexivity]. }
    rewrite tilt_down_pitch.
    assert (Hr : round (pitch (Nudge.tilt_up vs) + inject_Z (-15)) == 70)
      by (apply (round_plus_Z 85 (-15)); [exact Hup|reflexivity]).
    rewrite Q.max_l; [exact Hr|]. rewrite Hr. discriminate.
  - intros n Hn H70.
    assert (H0 : (0 <= n)%Z) by (rewrite Zle_Qle, <- Hn; exact Hlo).
    assert (Hr : round (pitch vs + inject_Z 15) == inject_Z (n + 15))
      by (apply round_plus_Z; [exact Hn|lia]).
    assert (Hup : pitch (Nudge.tilt_up vs) == inject_Z (n + 15)).
    { rewrite tilt_up_pitch, Q.min_l; [exact Hr|].
      rewrite Hr. change 85 with (inject_Z 85). rewrite <- Zle_Qle. lia. }
    assert (Hd : round (pitch (Nudge.tilt_up vs) + inject_Z (-15)) == inject_Z n).
    { rewrite (round_plus_Z (n + 15) (-15)); [|exact Hup|lia].
      replace (n + 15 + -15)%Z with n by lia. reflexivity. }
    rewrite tilt_down_pitch, Q.max_l; [rewrite Hd, Hn; reflexivity|].
    rewrite Hd, <- Hn. exact Hlo.
Qed.

Lemma tilts_on_doubles_witness :
  pitch (Nat.iter 6 Nudge.tilt_up Cases.tenth) == 85 /\
  pitch (Nat.iter 6 Nudge.tilt_down Cases.tenth) == 0.
Proof.
  destruct (tilts_on_doubles Cases.tenth) as (H1 & H2 & _).
  - vm_compute. discriminate.
  - vm_compute. discriminate.
  - split; assumption.
Defined.

(** X4.  The easing function of the camera buttons, [t * (2 - t)] as
    the engine computes it, is 0 at 0 and 1 at 1 and stays within
    [0, 1] for every [t] in [0, 1]; but it is not monotone: just below
    1 there are doubles [t < u] with a smaller value at [u] than at [t]
    (the value at 1 - 2^-52 is 1, that at 1 - 2^-53 is below 1). *)
Theorem nudge_easing_on_doubles :
  Nudge.ease 0 == 0 /\
  Nudge.ease 1 == 1 /\
  (forall t, 0 <= t -> t <= 1 -> 0 <= Nudge.ease t /\ Nudge.ease t <= 1) /\
  (exists t u, is_double t /\ is_double u /\
     0 <= t /\ t < u /\ u <= 1 /\ Nudge.ease u < Nudge.ease t).
Proof.
  split; [vm_compute; reflexivity|]. split; [vm_compute; reflexivity|]. split.
  - intros t H0 H1. unfold Nudge.ease, mul, sub.
    assert (Hz : round 0 == 0) by reflexivity.
    assert (H1' : round 1 == 1) by (vm_compute; reflexivity).
    assert (Hr : 1 <= round (2 - t) /\ round (2 - t) <= 2 - t + (1 # 9007199254740992)).
    { destruct (Qlt_le_dec (2 - t) 2) as [Hlt|Hge].
      - destruct (round_unit_error (2 - t)) as [_ Hu]; [lra|exact Hlt|].
        change (2 ^ (-53)) with (1 # 9007199254740992) in Hu.
        split; [|exact Hu]. rewrite <- H1'. apply round_le. lra.
      - assert (H2 : 2 - t == 2) by lra.
        rewrite (round_comp _ _ H2).
        assert (H2' : round 2 == 2) by (vm_compute; reflexivity).
        rewrite H2'. lra. }
    destruct Hr as [Hr1 Hr2]. set (u := round (2 - t)) in *.
    split.
    + rewrite <- Hz. apply round_le. apply Qmult_le_0_compat; lra.
    + assert (Htop : round (1 + (1 # 9007199254740992)) == 1) by (vm_compute; reflexivity).
      rewrite <- Htop. apply round_le.
      assert (Hm : t * u <= t * (2 - t + (1 # 9007199254740992))).
      { rewrite !(Qmult_comm t). apply Qmult_le_compat_r; [exact Hr2|exact H0]. }
      assert (Hsq : 0 <= (1 - t) * (1 - t)) by (apply Qmult_le_0_compat; lra).
      nra.
  - exists (1 - (1 # 4503599627370496)), (1 - (1 # 9007199254740992)).
    split; [vm_compute; reflexivity|]. split; [vm_compute; reflexivity|].
    split; [vm_compute; discriminate|]. split; [vm_compute; reflexivity|].
    split; [vm_compute; discriminate|]. vm_compute. reflexivity.
Qed.

End Buttons.

(** ** The upload client on the other outcomes *)

Section ClientEdges.
Import JS App Spec Props.

(** The [try] block on a successful response whose two collections can
    be read: the body is stored, and the camera update is queued when
    there is a first feature whose first coordinate can be read. *)
Lemma after_fetch_success (status : nat) (results gd ip lp : value) (il ll : list value) :
  ok status = true ->
  get_prop results "geospatial_data" = Ok gd ->
  get_prop gd "illegal_polygons" = Ok ip ->
  get_prop gd "legal_polygons" = Ok lp ->
  features_of ip il ->
  features_of lp ll ->
  after_fetch (Response status (Json results)) =
  match il ++ ll with
  | [] => ([SetAnalysisResult results], Ok tt)
  | first :: _ =>
      match first_coord first with
      | Ok c => ([SetAnalysisResult results; SetViewState (recenter c)], Ok tt)
      | Throw e => ([SetAnalysisResult results], Throw e)
      end
  end.
Proof.
  intros Hok Hgd Hip Hlp (ifs & Hifs & Hil) (lfs & Hlfs & Hll).
  unfold after_fetch. rewrite Hok. simpl.
  rewrite Hgd. simpl. rewrite Hip. simpl. rewrite Hifs. simpl. rewrite Hil. simpl.
  rewrite Hlp. simpl. rewrite Hlfs. simpl. rewrite Hll. simpl.
  destruct (il ++ ll) as [|first rest]; [reflexivity|].
  unfold first_coord.
  destruct (get_prop first "geometry") as [g|e]; simpl; [|reflexivity].
  destruct (get_prop g "coordinates") as [c|e]; simpl; [|reflexivity].
  destruct (get_index c 0) as [r|e]; simpl; [|reflexivity].
  destruct (get_index r 0) as [fc|e]; simpl; reflexivity.
Qed.

(** X14.  An upload whose request fails on the network ends with the
    rejection's message as the error state, no analysis result, the
    loading flag cleared, and the camera and the popup as they were. *)
Theorem network_failure_surfaced (s : state) (f : file) (files : list file) (text : string) :
  exists s',
    upload (f :: files) (NetworkFailure text) s = Ok s' /\
    error s' = Some (Text text) /\
    analysisResult s' = VNull /\
    isLoading s' = false /\
    viewState s' = viewState s /\
    popupInfo s' = popupInfo s.
Proof. eexists. repeat split; reflexivity. Qed.

(** X15.  The camera target is the first feature of the illegal
    features followed by the legal ones: when the response is
    successful, both collections can be read and there is a first
    feature whose first coordinate has two members, the camera is
    centred on them at zoom 12.  In particular, with no illegal
    feature the first legal feature is the target. *)
Theorem recenter_on_first_feature (s : state)
    (results gd ip lp first c lon lat : value) (il ll rest : list value) (status : nat) :
  ok status = true ->
  get_prop results "geospatial_data" = Ok gd ->
  get_prop gd "illegal_polygons" = Ok ip ->
  get_prop gd "legal_polygons" = Ok lp ->
  features_of ip il ->
  features_of lp ll ->
  il ++ ll = first :: rest ->
  first_coord first = Ok c ->
  get_index c 0 = Ok lon ->
  get_index c 1 = Ok lat ->
  exists s',
    step (RequestSettled (Response status (Json results))) s = Ok s' /\
    viewState s' = <["transitionDuration" := VNum 2000]>
                   (<["zoom" := VNum 12]>
                   (<["latitude" := lat]>
                   (<["longitude" := lon]> (viewState s)))) /\
    analysisResult s' = results /\
    isLoading s' = false /\
    error s' = error s.
Proof.
  intros Hok Hgd Hip Hlp Hil Hll Hfirst Hc Hlon Hlat.
  pose proof (after_fetch_success status results gd ip lp il ll Hok Hgd Hip Hlp Hil Hll) as Ha.
  rewrite Hfirst, Hc in Ha.
  unfold step, handle. rewrite (resume_calls_done _ _ Ha). simpl.
  unfold recenter. rewrite Hlon. simpl. rewrite Hlat. simpl.
  eexists. repeat split; reflexivity.
Qed.

Lemma recenter_on_first_feature_witness :
  exists s',
    step (RequestSettled
            (Response 200
               (Json (Cases.body [] [Sample.lease]))))
         initial = Ok s' /\
    viewState s' !! "longitude" = Some (VNum 86.3) /\
    viewState s' !! "latitude" = Some (VNum 23.7) /\
    viewState s' !! "zoom" = Some (VNum 12).
Proof.
  destruct (recenter_on_first_feature initial
              (Cases.body [] [Sample.lease]) (Cases.geodata [] [Sample.lease])
              (VObj (Sample.collection []))
              (VObj (Sample.collection [Sample.lease]))
              Sample.lease (Sample.point 86.3 23.7) (VNum 86.3) (VNum 23.7)
              [] [Sample.lease] [] 200%nat)
    as (s' & Hrun & Hvs & _); try reflexivity.
  - eexists. split; reflexivity.
  - eexists. split; reflexivity.
  - exists s'. split; [exact Hrun|]. rewrite Hvs. repeat split; reflexivity.
Defined.

(** X16.  A successful response whose collections hold no feature at
    all leaves the camera where it is: the body is stored, the loading
    flag is cleared and the error state is not touched. *)
Theorem no_feature_no_camera_move (s : state) (results gd ip lp : value) (status : nat) :
  ok status = true ->
  get_prop results "geospatial_data" = Ok gd ->
  get_prop gd "illegal_polygons" = Ok ip ->
  get_prop gd "legal_polygons" = Ok lp ->
  features_of ip [] ->
  features_of lp [] ->
  exists s',
    step (RequestSettled (Response status (Json results))) s = Ok s' /\
    viewState s' = viewState s /\
    analysisResult s' = results /\
    isLoading s' = false /\
    error s' = error s.
Proof.
  intros Hok Hgd Hip Hlp Hil Hll.
  pose proof (after_fetch_success status results gd ip lp [] [] Hok Hgd Hip Hlp Hil Hll) as Ha.
  change (after_fetch (Response status (Json results)) = ([SetAnalysisResult results], Ok tt))
    in Ha.
  unfold step, handle. rewrite (resume_calls_done _ _ Ha). simpl.
  eexists. repeat split; reflexivity.
Qed.

Lemma no_feature_no_camera_move_witness :
  exists s',
    step (RequestSettled (Response 200 (Json Sample.empty_analysis))) initial = Ok s' /\
    viewState s' = viewState initial /\
    analysisResult s' = Sample.empty_analysis.
Proof.
  destruct (no_feature_no_camera_move initial Sample.empty_analysis
              (VObj (<["illegal_polygons" := VObj (Sample.collection [])]>
                    (<["legal_polygons" := VObj (Sample.collection [])]> ∅)))
              (VObj (Sample.collection [])) (VObj (Sample.collection [])) 200%nat)
    as (s' & Hrun & Hvs & Hres & _); try reflexivity.
  - eexists. split; reflexivity.
  - eexists. split; reflexivity.
  - exists s'. repeat split; assumption.
Defined.

(** X17.  When reading the first coordinate of the first feature
    throws (no geometry, say), the exception is caught after the body
    was stored: the analysis result is the body and the error state is
    the exception's message at the same time; the camera is not moved
    and the loading flag is cleared. *)
Theorem unreadable_geometry_keeps_result (s : state)
    (results gd ip lp first : value) (il ll rest : list value) (status : nat) (e : exn) :
  ok status = true ->
  get_prop results "geospatial_data" = Ok gd ->
  get_prop gd "illegal_polygons" = Ok ip ->
  get_prop gd "legal_polygons" = Ok lp ->
  features_of ip il ->
  features_of lp ll ->
  il ++ ll = first :: rest ->
  first_coord first = Throw e ->
  exists s',
    step (RequestSettled (Response status (Json results))) s = Ok s' /\
    analysisResult s' = results /\
    error s' = Some (exn_message e) /\
    viewState s' = viewState s /\
    isLoading s' = false.
Proof.
  intros Hok Hgd Hip Hlp Hil Hll Hfirst Hc.
  pose proof (after_fetch_success status results gd ip lp il ll Hok Hgd Hip Hlp Hil Hll) as Ha.
  rewrite Hfirst, Hc in Ha.
  unfold step, handle. rewrite (resume_calls_failed _ _ _ Ha). simpl.
  eexists. repeat split; reflexivity.
Qed.

Lemma unreadable_geometry_keeps_result_witness :
  exists s',
    step (RequestSettled
            (Response 200
               (Json (Cases.body [VObj ∅] []))))
         initial = Ok s' /\
    truthy (analysisResult s') = true /\
    error s' = Some (TypeErrorText (CannotRead VUndef "coordinates")).
Proof.
  destruct (unreadable_geometry_keeps_result initial
              (Cases.body [VObj ∅] []) (Cases.geodata [VObj ∅] [])
              (VObj (Sample.collection [VObj ∅])) (VObj (Sample.collection []))
              (VObj ∅) [VObj ∅] [] [] 200%nat
              (TypeError (CannotRead VUndef "coordinates")))
    as (s' & Hrun & Hres & Herr & _); try reflexivity.
  - eexists. split; reflexivity.
  - eexists. split; reflexivity.
  - exists s'. split; [exact Hrun|]. split; [rewrite Hres; reflexivity|exact Herr].
Defined.

(** X18.  When the first coordinate of the first feature is itself
    null or undefined (an empty ring, say), nothing throws inside the
    [try] block: the handler stores the body, queues the camera update
    and clears the loading flag without setting an error.  The queued
    updater reads [firstCoord[0]] only when React processes it, and
    throws there. *)
Theorem empty_ring_fails_in_the_updater (s : state)
    (results gd ip lp first c : value) (il ll rest : list value) (status : nat) :
  ok status = true ->
  get_prop results "geospatial_data" = Ok gd ->
  get_prop gd "illegal_polygons" = Ok ip ->
  get_prop gd "legal_polygons" = Ok lp ->
  features_of ip il ->
  features_of lp ll ->
  il ++ ll = first :: rest ->
  first_coord first = Ok c ->
  nullish c = true ->
  handleAnalysis_resume (Response status (Json results)) =
    ([SetAnalysisResult results; SetViewState (recenter c); SetIsLoading false], Ok tt) /\
  step (RequestSettled (Response status (Json results))) s
    = Throw (TypeError (CannotReadIndex c 0)).
Proof.
  intros Hok Hgd Hip Hlp Hil Hll Hfirst Hc Hnull.
  pose proof (after_fetch_success status results gd ip lp il ll Hok Hgd Hip Hlp Hil Hll) as Ha.
  rewrite Hfirst, Hc in Ha.
  pose proof (resume_calls_done _ _ Ha) as Hr. simpl in Hr.
  split; [exact Hr|].
  unfold step, handle. rewrite Hr. simpl. unfold recenter.
  destruct c; simpl in Hnull; try discriminate; reflexivity.
Qed.

Lemma empty_ring_fails_in_the_updater_witness :
  step (RequestSettled (Response 200 (Json (Cases.body [Cases.ringless] [])))) initial
  = Throw (TypeError (CannotReadIndex VUndef 0)).
Proof.
  destruct (empty_ring_fails_in_the_updater initial
              (Cases.body [Cases.ringless] []) (Cases.geodata [Cases.ringless] [])
              (VObj (Sample.collection [Cases.ringless])) (VObj (Sample.collection []))
              Cases.ringless VUndef [Cases.ringless] [] [] 200%nat)
    as [_ H]; try reflexivity.
  - eexists. split; reflexivity.
  - eexists. split; reflexivity.
Defined.

Lemma resume_calls_kinds (o : fetch_outcome) :
  Forall settle_call (fst (handleAnalysis_resume o)).
Proof.
  destruct (after_fetch_calls o) as [[[]|e] [H | [g H]]].
  - rewrite (resume_calls_done _ _ H). simpl.
    destruct (stored_by o); repeat constructor.
  - rewrite (resume_calls_done _ _ H). simpl.
    destruct (stored_by o); repeat constructor.
  - rewrite (resume_calls_failed _ _ _ H). simpl.
    destruct (stored_by o); repeat constructor.
  - rewrite (resume_calls_failed _ _ _ H). simpl.
    destruct (stored_by o); repeat constructor.
Qed.

Lemma reduce_settle_calls (cs : list call) : forall s s',
  Forall settle_call cs -> reduce cs s = Ok s' -> popupInfo s' = popupInfo s.
Proof.
  induction cs as [|c cs IH]; intros s s' Hq H; simpl in H.
  - injection H as <-. reflexivity.
  - inversion Hq as [|? ? Hc Hcs]; subst.
    destruct (apply c s) as [s1|e] eqn:Hs1; simpl in H; [|discriminate].
    rewrite (IH _ _ Hcs H).
    destruct c; simpl in Hc; try contradiction; simpl in Hs1;
      try (injection Hs1 as <-; reflexivity).
    destruct (f (viewState s)); simpl in Hs1; [|discriminate].
    injection Hs1 as <-. reflexivity.
Qed.

Lemma settle_sends_nothing (o : fetch_outcome) :
  Session.requests (fst (handleAnalysis_resume o)) = 0%nat.
Proof.
  unfold Session.requests.
  pose proof (resume_calls_kinds o) as H.
  induction (fst (handleAnalysis_resume o)) as [|c cs IH]; [reflexivity|].
  inversion H as [|? ? Hc Hcs]; subst.
  destruct c; simpl in Hc; try contradiction; simpl; apply IH; exact Hcs.
Qed.

(** X19.  Only a map click that hits a feature and the popup's close
    button change the popup.  No step of an upload (the Analyze button,
    the request settling with whatever outcome) and no map move touches
    it, so a popup opened on a feature of an earlier analysis stays
    open while that analysis is discarded and replaced. *)
Theorem popup_changes_only_by_click_and_close (ev : event) (s s' : state) :
  step ev s = Ok s' ->
  popupInfo s' =
  match ev with
  | MapClicked e =>
      match features e with
      | Some (feature :: _) =>
          match get_prop feature "properties" with
          | Ok p => Some (Popup (click_lngLat e) p)
          | Throw _ => popupInfo s
          end
      | _ => popupInfo s
      end
  | PopupClosed => None
  | AnalyzeClicked _ | RequestSettled _ | MapMoved _ => popupInfo s
  end.
Proof.
  destruct ev as [[|f files]|o|vs|e|]; intros H.
  - injection H as <-. reflexivity.
  - injection H as <-. reflexivity.
  - unfold step, handle in H. exact (reduce_settle_calls _ _ _ (resume_calls_kinds o) H).
  - injection H as <-. reflexivity.
  - unfold step, handle, handleMapClick in H.
    destruct (features e) as [[|feature l]|]; simpl in H;
      try (injection H as <-; reflexivity).
    destruct (get_prop feature "properties"); simpl in H;
      injection H as <-; reflexivity.
  - injection H as <-. reflexivity.
Qed.

Lemma popup_changes_only_by_click_and_close_witness :
  exists s1 s2,
    step (MapClicked (ClickEvent (Some [Sample.pit_a]) (Sample.point 86.5 23.8))) Sample.loaded
      = Ok s1 /\
    step (AnalyzeClicked ["boundary.zip"]) s1 = Ok s2 /\
    analysisResult s2 = VNull /\
    popupInfo s2 = popupInfo s1 /\
    popupInfo s2 <> None.
Proof.
  eexists _, _. split; [reflexivity|]. split; [reflexivity|]. split; [reflexivity|].
  split; [|discriminate].
  refine (popup_changes_only_by_click_and_close (AnalyzeClicked ["boundary.zip"]) _ _ eq_refl).
Defined.

End ClientEdges.

(** ** The upload client as a machine *)

Section Sessions.
Import JS App Spec Props Session.

Lemma step_keeps_upload_slots (ev : event) (s s' : state) :
  (forall files, ev <> AnalyzeClicked files) -> (forall o, ev <> RequestSettled o) ->
  step ev s = Ok s' ->
  isLoading s' = isLoading s /\ analysisResult s' = analysisResult s /\ error s' = error s.
Proof.
  intros Hna Hns H. destruct ev as [files|o|vs|e|].
  - exfalso. eapply Hna. reflexivity.
  - exfalso. eapply Hns. reflexivity.
  - injection H as <-. repeat split; reflexivity.
  - unfold step, handle, handleMapClick in H.
    destruct (features e) as [[|feature l]|]; simpl in H;
      try (injection H as <-; repeat split; reflexivity).
    destruct (get_prop feature "properties"); simpl in H;
      injection H as <-; repeat split; reflexivity.
  - injection H as <-. repeat split; reflexivity.
Qed.

Lemma next_keeps_invariant (ev : event) (x x' : session) :
  session_invariant x -> enabled ev x = true -> next ev x = Ok x' -> session_invariant x'.
Proof.
  intros (Hle & Hiff & Hload) Hen Hnext. unfold next in Hnext.
  destruct (step ev (app x)) as [s'|e] eqn:Hstep; simpl in Hnext; [|discriminate].
  injection Hnext as <-. unfold session_invariant. simpl.
  destruct ev as [[|f files]|o|vs|e|]; simpl in *.
  - injection Hstep as <-. rewrite Nat.add_0_r, Nat.sub_0_r. repeat split; tauto.
  - injection Hstep as <-. simpl.
    apply negb_true_iff in Hen.
    assert (Hp : pending x = 0%nat).
    { destruct (pending x) as [|[|n]]; [reflexivity| |lia].
      destruct Hiff as [_ Hiff]. rewrite Hiff in Hen by reflexivity. discriminate. }
    rewrite Hp. simpl. repeat split; auto.
  - rewrite settle_sends_nothing.
    destruct (settled_state _ _ _ Hstep) as [_ Hfalse].
    apply Nat.ltb_lt in Hen.
    assert (Hp : pending x = 1%nat) by lia.
    rewrite Hp, Hfalse. simpl. repeat split; try lia; discriminate.
  - injection Hstep as <-. simpl. rewrite Nat.add_0_r, Nat.sub_0_r. repeat split; tauto.
  - assert (Hreq : requests (fst (handleMapClick e)) = 0%nat).
    { unfold handleMapClick. destruct (features e) as [[|feature l]|]; try reflexivity.
      destruct (get_prop feature "properties"); reflexivity. }
    rewrite Hreq, Nat.add_0_r, Nat.sub_0_r.
    destruct (step_keeps_upload_slots (MapClicked e) _ _
                ltac:(discriminate) ltac:(discriminate) Hstep) as (-> & -> & ->).
    repeat split; tauto.
  - injection Hstep as <-. simpl. rewrite Nat.add_0_r, Nat.sub_0_r. repeat split; tauto.
Qed.

Lemma reachable_session_invariant (x : session) : reachable x -> session_invariant x.
Proof.
  induction 1 as [|x x' ev Hx IH Hen Hnext].
  - unfold session_invariant. simpl. repeat split; try lia; discriminate.
  - eapply next_keeps_invariant; eassumption.
Qed.

(** X20.  In every session the application can reach, at most one
    request is in flight, the loading flag is set exactly while one is
    (the Analyze button is disabled meanwhile), and while it is set
    there is no analysis result and no error: no pit is rendered. *)
Theorem one_request_at_a_time (x : session) :
  reachable x ->
  (pending x <= 1)%nat /\
  (isLoading (app x) = true <-> pending x = 1%nat) /\
  (isLoading (app x) = true ->
     analysisResult (app x) = VNull /\
     error (app x) = None /\
     rendered_sources (app x) = Ok [] /\
     forall files, enabled (AnalyzeClicked files) x = false).
Proof.
  intros Hr. destruct (reachable_session_invariant x Hr) as (Hle & Hiff & Hload).
  split; [exact Hle|]. split; [exact Hiff|].
  intros Hl. destruct (Hload Hl) as [Hres Herr].
  split; [exact Hres|]. split; [exact Herr|]. split.
  - unfold rendered_sources. rewrite Hres. reflexivity.
  - intros files. simpl. rewrite Hl. reflexivity.
Qed.

Lemma one_request_at_a_time_witness :
  exists x,
    next (AnalyzeClicked ["boundary.zip"]) initial = Ok x /\
    pending x = 1%nat /\
    rendered_sources (app x) = Ok [].
Proof.
  eexists. split; [reflexivity|]. split; [reflexivity|].
  match goal with
  | |- rendered_sources (app ?x) = _ =>
      assert (Hr : reachable x);
      [apply (reachable_step initial x (AnalyzeClicked ["boundary.zip"]));
         [apply reachable_initial|reflexivity|reflexivity]|];
      destruct (one_request_at_a_time x Hr) as (_ & _ & H)
  end.
  apply H. reflexivity.
Defined.

End Sessions.

(** ** The store stays well formed *)

Section StoreInvariant.
Import Store Spec Props.

(** X21.  The annotator writes to no existing object, whatever its
    arguments and whether it returns or throws: every object of the
    store it starts from is found unchanged in the store it ends
    with. *)
Theorem annotator_never_writes (data fc : value) (isIllegal : bool) (h : heap)
    (l : loc) (o : object) :
  h !! l = Some o ->
  (addDataToFeatures data fc isIllegal h).1 !! l = Some o.
Proof.
  intros H. eapply lookup_grows; [apply addDataToFeatures_grows|exact H].
Qed.

Lemma annotator_never_writes_witness :
  (addDataToFeatures (VRef 7%positive) (VRef 1%positive) true Sample.store).1 !! 3%positive
  = Sample.store !! 3%positive.
Proof.
  apply (annotator_never_writes (VRef 7%positive) (VRef 1%positive) true Sample.store
           3%positive). reflexivity.
Defined.

Lemma bound_grows (h h' : heap) (v : value) : bound h v -> h ⊆ h' -> bound h' v.
Proof.
  destruct v; simpl; try tauto. intros [o Ho] Hsub.
  exists o. eapply lookup_grows; eassumption.
Qed.

Lemma members_bound_grows (h h' : heap) (o : object) :
  members_bound h o -> h ⊆ h' -> members_bound h' o.
Proof.
  destruct o as [props|elems]; simpl; intros H Hsub.
  - intros k v Hk. eapply bound_grows; [eapply H; exact Hk|exact Hsub].
  - eapply Forall_impl; [exact H|]. intros v Hv. eapply bound_grows; eassumption.
Qed.

Lemma closed_members (h : heap) :
  closed h <-> forall l o, h !! l = Some o -> members_bound h o.
Proof.
  unfold closed, members_bound.
  split; intros H l o Hl; specialize (H l o Hl); destruct o; exact H.
Qed.

Lemma closed_alloc (h : heap) (l : loc) (o : object) :
  closed h -> h !! l = None -> members_bound h o -> closed (<[l := o]> h).
Proof.
  intros Hc Hl Ho. apply closed_members. intros l' o' Hl'.
  assert (Hsub : h ⊆ <[l := o]> h) by (apply alloc_grows; exact Hl).
  apply lookup_insert_Some in Hl' as [[<- <-]|[_ Hl']].
  - eapply members_bound_grows; eassumption.
  - eapply members_bound_grows; [|exact Hsub].
    apply (proj1 (closed_members h) Hc l' o' Hl').
Qed.

Lemma safe_ret {A} (h0 : heap) (B : heap -> A -> Prop) (a : A) :
  (forall h, h0 ⊆ h -> B h a) -> safe h0 B (mret a).
Proof.
  intros HB h Hsub Hc. simpl. split; [exact Hc|]. split; [reflexivity|].
  intros a' [= <-]. apply HB. exact Hsub.
Qed.

Lemma safe_bind {A B} (h0 : heap) (P : heap -> A -> Prop) (Q : heap -> B -> Prop)
    (m : M A) (k : A -> M B) :
  safe h0 P m ->
  (forall h1 a, h0 ⊆ h1 -> P h1 a -> safe h1 Q (k a)) ->
  safe h0 Q (m ≫= k).
Proof.
  intros Hm Hk h Hsub Hc. destruct (Hm h Hsub Hc) as (Hc1 & Hsub1 & Hres).
  unfold mbind, M_bind. destruct (m h) as [h1 [a|]] eqn:Hrun; simpl in *.
  - assert (Hsub01 : h0 ⊆ h1) by (etrans; eassumption).
    destruct (Hk h1 a Hsub01 (Hres a eq_refl) h1 (reflexivity h1) Hc1) as (Hc2 & Hsub2 & Hres2).
    split; [exact Hc2|]. split; [etrans; eassumption|exact Hres2].
  - split; [exact Hc1|]. split; [exact Hsub1|]. intros b Hb. discriminate.
Qed.

Lemma safe_if {A} (h0 : heap) (B : heap -> A -> Prop) (b : bool) (m1 m2 : M A) :
  safe h0 B m1 -> safe h0 B m2 -> safe h0 B (if b then m1 else m2).
Proof. destruct b; auto. Qed.

Lemma safe_alloc (h0 : heap) (o : object) :
  members_bound h0 o -> safe h0 bound (alloc o).
Proof.
  intros Ho h Hsub Hc. destruct (alloc_run o h) as (l & Hrun & Hl). rewrite Hrun. simpl.
  split; [|split; [apply alloc_grows; exact Hl|]].
  - apply closed_alloc; [exact Hc|exact Hl|]. eapply members_bound_grows; eassumption.
  - intros a [= <-]. simpl. rewrite lookup_insert_eq. eexists; reflexivity.
Qed.

Lemma safe_get_prop (h0 : heap) (v : value) (key : string) :
  bound h0 v -> safe h0 bound (get_prop v key).
Proof.
  intros Hb h Hsub Hc. unfold get_prop, read. simpl.
  split; [exact Hc|]. split; [reflexivity|]. intros a Ha.
  destruct v; simpl in Ha; try discriminate;
    try (injection Ha as <-; try destruct (String.eqb _ _); exact I).
  destruct (h !! l) as [[props|elems]|] eqn:Hl; [| |discriminate]; injection Ha as <-.
  - destruct (props !! key) as [w|] eqn:Hw; simpl; [|exact I]. exact (Hc _ _ Hl _ _ Hw).
  - destruct (String.eqb _ _); exact I.
Qed.

Lemma safe_get_index (h0 : heap) (v : value) (i : nat) :
  bound h0 v -> safe h0 bound (get_index v i).
Proof.
  intros Hb h Hsub Hc. unfold get_index, read. simpl.
  split; [exact Hc|]. split; [reflexivity|]. intros a Ha.
  destruct v; simpl in Ha; try discriminate;
    try (injection Ha as <-; try destruct (String.get _ _); exact I).
  destruct (h !! l) as [[props|elems]|] eqn:Hl; [| |discriminate]; injection Ha as <-.
  - destruct (props !! JS.decimal i) as [w|] eqn:Hw; simpl; [|exact I].
    exact (Hc _ _ Hl _ _ Hw).
  - destruct (elems !! i) as [w|] eqn:Hw; simpl; [|exact I].
    pose proof (Hc _ _ Hl) as Hall. simpl in Hall.
    eapply Forall_forall; [exact Hall|]. eapply list_elem_of_lookup_2; exact Hw.
Qed.

Lemma indexed_bound (h : heap) (l : list value) :
  Forall (bound h) l -> props_bound h (indexed l).
Proof.
  intros Hall k v Hk. unfold indexed in Hk.
  apply elem_of_list_to_map_2 in Hk.
  apply elem_of_lookup_imap in Hk as (i & x & Heq & Hx).
  injection Heq as -> ->.
  eapply Forall_forall; [exact Hall|]. eapply list_elem_of_lookup_2; exact Hx.
Qed.

Lemma chars_bound (h : heap) (s : string) : Forall (bound h) (chars s).
Proof. induction s; simpl; constructor; [exact I|assumption]. Qed.

Lemma safe_own_props (h0 : heap) (v : value) :
  bound h0 v -> safe h0 props_bound (own_props v).
Proof.
  intros Hb h Hsub Hc. unfold own_props, read. simpl.
  split; [exact Hc|]. split; [reflexivity|]. intros a Ha.
  destruct v; simpl in Ha; try (injection Ha as <-; intros k v Hk; discriminate).
  - injection Ha as <-. apply indexed_bound. apply chars_bound.
  - destruct (h !! l) as [[props|elems]|] eqn:Hl; [| |discriminate]; injection Ha as <-.
    + exact (Hc _ _ Hl).
    + apply indexed_bound. exact (Hc _ _ Hl).
Qed.

Lemma safe_elements (h0 : heap) (v : value) :
  safe h0 (fun h l => Forall (bound h) l) (elements v).
Proof.
  intros h Hsub Hc. unfold elements, read. simpl.
  split; [exact Hc|]. split; [reflexivity|]. intros a Ha.
  destruct v; simpl in Ha; try discriminate.
  destruct (h !! l) as [[props|elems]|] eqn:Hl; try discriminate. injection Ha as <-.
  exact (Hc _ _ Hl).
Qed.

Lemma safe_map_from (f : value -> nat -> M value) (l : list value) :
  forall (i : nat) (h0 : heap),
    Forall (bound h0) l ->
    (forall h1 x j, h0 ⊆ h1 -> bound h1 x -> safe h1 bound (f x j)) ->
    safe h0 (fun h ys => Forall (bound h) ys) (map_from f i l).
Proof.
  induction l as [|x l IH]; intros i h0 Hall Hf; simpl.
  - apply safe_ret. intros h _. constructor.
  - inversion Hall as [|? ? Hx Hl]; subst.
    eapply safe_bind; [apply Hf; [reflexivity|exact Hx]|].
    intros h1 y Hsub1 Hy.
    eapply safe_bind.
    + apply IH.
      * eapply Forall_impl; [exact Hl|]. intros v Hv. eapply bound_grows; eassumption.
      * intros h2 x' j Hsub2 Hx'. apply Hf; [etrans; eassumption|exact Hx'].
    + intros h2 ys Hsub2 Hys. apply safe_ret. intros h Hsub. constructor.
      * eapply bound_grows; [exact Hy|]. etrans; eassumption.
      * eapply Forall_impl; [exact Hys|]. intros v Hv. eapply bound_grows; eassumption.
Qed.

Lemma safe_array_map (f : value -> nat -> M value) (v : value) (h0 : heap) :
  (forall h1 x j, h0 ⊆ h1 -> bound h1 x -> safe h1 bound (f x j)) ->
  safe h0 bound (array_map f v).
Proof.
  intros Hf. unfold array_map.
  eapply safe_bind; [apply safe_elements|]. intros h1 elems Hsub1 Helems.
  eapply safe_bind.
  - apply safe_map_from; [exact Helems|].
    intros h2 x j Hsub2 Hx. apply Hf; [etrans; eassumption|exact Hx].
  - intros h2 elems' Hsub2 Helems'. apply safe_alloc. exact Helems'.
Qed.

Lemma safe_operations (data : value) (h0 : heap) :
  bound h0 data -> safe h0 bound (operations data).
Proof.
  intros Hd. unfold operations.
  eapply safe_bind; [apply safe_get_prop; exact Hd|]. intros h1 ops Hsub1 Hops.
  apply safe_if.
  - apply safe_ret. intros h Hsub. eapply bound_grows; eassumption.
  - apply safe_alloc. constructor.
Qed.

Lemma props_bound_insert (h : heap) (props : gmap string value) (k : string) (v : value) :
  bound h v -> props_bound h props -> props_bound h (<[k := v]> props).
Proof.
  intros Hv Hp k' v' Hk'. apply lookup_insert_Some in Hk' as [[_ <-]|[_ Hk']].
  - exact Hv.
  - exact (Hp _ _ Hk').
Qed.

Lemma props_bound_grows (h h' : heap) (props : gmap string value) :
  props_bound h props -> h ⊆ h' -> props_bound h' props.
Proof. intros Hp Hsub k v Hk. eapply bound_grows; [exact (Hp _ _ Hk)|exact Hsub]. Qed.

Lemma safe_annotate (data feature : value) (isIllegal : bool) (index : nat) (h0 : heap) :
  bound h0 data -> bound h0 feature ->
  safe h0 bound (annotate data isIllegal feature index).
Proof.
  intros Hd Hf. unfold annotate.
  eapply safe_bind with (P := bound).
  { apply safe_if.
    - eapply safe_bind; [apply safe_operations; exact Hd|].
      intros h1 ops _ Hops. apply safe_get_index. exact Hops.
    - apply safe_ret. intros h _. exact I. }
  intros h1 operation Hsub1 Hop.
  assert (Hf1 : bound h1 feature) by (eapply bound_grows; eassumption).
  eapply safe_bind; [apply safe_own_props; exact Hf1|]. intros h2 copied Hsub2 Hcopied.
  assert (Hf2 : bound h2 feature) by (eapply bound_grows; eassumption).
  assert (Hop2 : bound h2 operation) by (eapply bound_grows; eassumption).
  eapply safe_bind; [apply safe_get_prop; exact Hf2|]. intros h3 properties Hsub3 Hprops.
  assert (Hop3 : bound h3 operation) by (eapply bound_grows; eassumption).
  eapply safe_bind; [apply safe_own_props; exact Hprops|]. intros h4 cprops Hsub4 Hcprops.
  assert (Hop4 : bound h4 operation) by (eapply bound_grows; eassumption).
  eapply safe_bind with (P := bound).
  { apply safe_if; [apply safe_get_prop; exact Hop4|].
    apply safe_ret. intros h _. exact I. }
  intros h5 depth Hsub5 Hdepth.
  assert (Hop5 : bound h5 operation) by (eapply bound_grows; eassumption).
  eapply safe_bind with (P := bound).
  { apply safe_if; [apply safe_get_prop; exact Hop5|].
    apply safe_ret. intros h _. exact I. }
  intros h6 volume Hsub6 Hvolume.
  eapply safe_bind.
  { apply safe_alloc. simpl. fold (props_bound h6).
    repeat apply props_bound_insert; try exact I; try exact Hvolume.
    - eapply bound_grows; eassumption.
    - eapply props_bound_grows; [exact Hcprops|]. etrans; eassumption. }
  intros h7 properties' Hsub7 Hprops'.
  apply safe_alloc. simpl. fold (props_bound h7).
  apply props_bound_insert; [exact Hprops'|].
  eapply props_bound_grows; [exact Hcopied|].
  repeat (etrans; [eassumption|]). reflexivity.
Qed.

Lemma safe_addDataToFeatures (data fc : value) (isIllegal : bool) (h0 : heap) :
  bound h0 data -> bound h0 fc ->
  safe h0 bound (addDataToFeatures data fc isIllegal).
Proof.
  intros Hd Hfc. unfold addDataToFeatures.
  apply safe_if; [apply safe_ret; intros h _; exact I|].
  eapply safe_bind; [apply safe_get_prop; exact Hfc|]. intros h1 features Hsub1 Hfeatures.
  apply safe_if; [apply safe_ret; intros h _; exact I|].
  assert (Hfc1 : bound h1 fc) by (eapply bound_grows; eassumption).
  eapply safe_bind; [apply safe_own_props; exact Hfc1|]. intros h2 copied Hsub2 Hcopied.
  eapply safe_bind.
  { apply safe_array_map. intros h3 x j Hsub3 Hx. apply safe_annotate; [|exact Hx].
    eapply bound_grows; [exact Hd|]. repeat (etrans; [eassumption|]). reflexivity. }
  intros h3 features' Hsub3 Hfeatures'.
  apply safe_alloc. simpl. fold (props_bound h3).
  apply props_bound_insert; [exact Hfeatures'|].
  eapply props_bound_grows; eassumption.
Qed.

(** X22.  The annotator keeps the store well formed.  Started in a
    store where every reference held by an object leads to an object,
    on arguments that are themselves in the store, it ends in such a
    store again, whether it returns or throws, and what it returns is
    in that store: its result can be handed to it once more. *)
Theorem annotator_keeps_store_closed (data fc : value) (isIllegal : bool) (h : heap) :
  closed h -> bound h data -> bound h fc ->
  closed (addDataToFeatures data fc isIllegal h).1 /\
  forall v, (addDataToFeatures data fc isIllegal h).2 = Some v ->
    bound (addDataToFeatures data fc isIllegal h).1 v.
Proof.
  intros Hc Hd Hfc.
  destruct (safe_addDataToFeatures data fc isIllegal h Hd Hfc h (reflexivity h) Hc)
    as (Hc' & _ & Hres).
  split; assumption.
Qed.

Lemma annotator_keeps_store_closed_witness :
  closed (addDataToFeatures (VRef 7%positive) (VRef 1%positive) true Sample.store).1.
Proof.
  apply (annotator_keeps_store_closed (VRef 7%positive) (VRef 1%positive) true Sample.store).
  - apply sample_store_closed.
  - simpl. eexists. reflexivity.
  - simpl. eexists. reflexivity.
Defined.

End StoreInvariant.
